(** * PaperFuse page-collection editor: model and verified properties

    A shallow embedding of the browser application (the [state] object,
    its handlers and the two export pipelines) together with the
    properties of the ordering / selection / export engine.

    Conventions of the embedding:
    - a JavaScript string is its sequence of UTF-16 code units;
    - a [Uint8Array] is an object: it has an identity (its address) and
      contents, and [===] on two of them compares identities;
    - [state.selectedIds] (a [Set] used only through has / add / delete /
      clear / size) is a finite set;
    - the PDF libraries, the thumbnail renderer and the id generator are
      collaborators, taken as an interface;
    - the model follows the later of the two variants of the script, the
      one with rotation, export preview and filename rules; what the
      earlier variant does differently is in the module [AppJs];
    - an [async] function is run to completion (its awaits are sequence
      points); the interleaving of several of them is studied separately
      on their synchronous prefixes and their [finally] blocks;
    - what a handler does to the page is recorded in a log of effects
      (loading overlay, toasts, downloads); CSS classes, the [disabled]
      state of toolbar buttons and the width of the progress bar are
      presentation and are left out. *)

From Stdlib Require Import QArith Qround String Ascii Decimal DecimalNat.
From stdpp Require Import base numbers list gmap.

Local Open Scope nat_scope.

(** ** JavaScript values *)

(** Strings: sequences of UTF-16 code units. *)
Abbreviation jsstring := (list N).

Definition js (s : string) : jsstring :=
  N_of_ascii <$> list_ascii_of_string s.

(** Template literal interpolation of a non-negative integer. *)
Fixpoint uint_units (d : Decimal.uint) : jsstring :=
  match d with
  | Nil => []
  | D0 d => 48%N :: uint_units d
  | D1 d => 49%N :: uint_units d
  | D2 d => 50%N :: uint_units d
  | D3 d => 51%N :: uint_units d
  | D4 d => 52%N :: uint_units d
  | D5 d => 53%N :: uint_units d
  | D6 d => 54%N :: uint_units d
  | D7 d => 55%N :: uint_units d
  | D8 d => 56%N :: uint_units d
  | D9 d => 57%N :: uint_units d
  end.

Definition num (n : nat) : jsstring := uint_units (Nat.to_uint n).

(** A [Uint8Array] object. *)
Record Uint8Array := {
  addr : nat;
  bytes : list Byte.byte
}.

(** [a === b] on two typed arrays. *)
Definition same_object (a b : Uint8Array) : bool := (addr a =? addr b).

(** ** The page object ([pageData] in [processFiles]) *)

Record PageData := {
  page_id : jsstring;
  sourceFile : jsstring;
  pageIndex : nat;
  originalPageNumber : nat;
  pdfBytes : Uint8Array;
  thumbnail : jsstring;
  rotation : nat
}.

Definition set_rotation (r : nat) (p : PageData) : PageData :=
  {| page_id := page_id p; sourceFile := sourceFile p;
     pageIndex := pageIndex p; originalPageNumber := originalPageNumber p;
     pdfBytes := pdfBytes p; thumbnail := thumbnail p; rotation := r |}.

(** ** The [state] object *)

Inductive Template := TplCustom | TplMerged | TplPages | TplDate | TplOther (t : jsstring).

Record State := {
  pages : list PageData;
  selectedIds : gset jsstring;
  draggedId : option jsstring;       (* [None] is [null] *)
  isProcessing : bool;
  currentFilename : jsstring;
  filenameTemplate : Template
}.

(** ** The part of the document the handlers read and write *)

Record Elements := {
  pageGrid : list jsstring;          (* [data-id] of the rendered cards *)
  exportModal_visible : bool;
  statPageCount_textContent : jsstring;
  statFileSize_textContent : jsstring;
  filenameInput_value : jsstring;
  filenameError_textContent : jsstring;
  confirmExport_disabled : bool
}.

(** ** Observable effects, in the order they happen *)

Inductive ToastType := success | error | info.

(** The arguments of [newPdf.save]. *)
Record SaveOptions := {
  useObjectStreams : bool;
  addDefaultPage : bool
}.

Inductive Effect :=
| ShowLoading (text : jsstring)
| UpdateLoadingProgress (text : jsstring)
| HideLoading
| ShowToast (message : jsstring) (type : ToastType)
| ConsoleError (label : jsstring) (message : jsstring)
| DownloadBlob (saved : list Byte.byte) (filename : jsstring)
| SetTimeout (ms : nat).

Record App := {
  state : State;
  elements : Elements;
  effects : list Effect;             (* oldest first *)
  heapNext : nat;                    (* address of the next allocated array *)
  idCalls : nat;                     (* number of [generateId] calls so far *)
  today : jsstring                   (* [new Date().toISOString().slice(0, 10)] *)
}.

(** Field updates. *)

Definition with_state (f : State → State) (a : App) : App :=
  {| state := f (state a); elements := elements a; effects := effects a;
     heapNext := heapNext a; idCalls := idCalls a; today := today a |}.

Definition with_elements (f : Elements → Elements) (a : App) : App :=
  {| state := state a; elements := f (elements a); effects := effects a;
     heapNext := heapNext a; idCalls := idCalls a; today := today a |}.

Definition emit (e : Effect) (a : App) : App :=
  {| state := state a; elements := elements a; effects := effects a ++ [e];
     heapNext := heapNext a; idCalls := idCalls a; today := today a |}.

Definition set_heapNext (n : nat) (a : App) : App :=
  {| state := state a; elements := elements a; effects := effects a;
     heapNext := n; idCalls := idCalls a; today := today a |}.

Definition set_idCalls (n : nat) (a : App) : App :=
  {| state := state a; elements := elements a; effects := effects a;
     heapNext := heapNext a; idCalls := n; today := today a |}.

Definition set_pages (l : list PageData) : App → App :=
  with_state (λ s,
    {| pages := l; selectedIds := selectedIds s; draggedId := draggedId s;
       isProcessing := isProcessing s; currentFilename := currentFilename s;
       filenameTemplate := filenameTemplate s |}).

Definition set_selectedIds (X : gset jsstring) : App → App :=
  with_state (λ s,
    {| pages := pages s; selectedIds := X; draggedId := draggedId s;
       isProcessing := isProcessing s; currentFilename := currentFilename s;
       filenameTemplate := filenameTemplate s |}).

Definition set_draggedId (d : option jsstring) : App → App :=
  with_state (λ s,
    {| pages := pages s; selectedIds := selectedIds s; draggedId := d;
       isProcessing := isProcessing s; currentFilename := currentFilename s;
       filenameTemplate := filenameTemplate s |}).

Definition set_isProcessing (b : bool) : App → App :=
  with_state (λ s,
    {| pages := pages s; selectedIds := selectedIds s; draggedId := draggedId s;
       isProcessing := b; currentFilename := currentFilename s;
       filenameTemplate := filenameTemplate s |}).

Definition set_currentFilename (f : jsstring) : App → App :=
  with_state (λ s,
    {| pages := pages s; selectedIds := selectedIds s; draggedId := draggedId s;
       isProcessing := isProcessing s; currentFilename := f;
       filenameTemplate := filenameTemplate s |}).

Definition set_filenameTemplate (t : Template) : App → App :=
  with_state (λ s,
    {| pages := pages s; selectedIds := selectedIds s; draggedId := draggedId s;
       isProcessing := isProcessing s; currentFilename := currentFilename s;
       filenameTemplate := t |}).

Definition set_pageGrid (v : list jsstring) : App → App :=
  with_elements (λ e,
    {| pageGrid := v;
       exportModal_visible := exportModal_visible e;
       statPageCount_textContent := statPageCount_textContent e;
       statFileSize_textContent := statFileSize_textContent e;
       filenameInput_value := filenameInput_value e;
       filenameError_textContent := filenameError_textContent e;
       confirmExport_disabled := confirmExport_disabled e |}).

Definition set_exportModal_visible (v : bool) : App → App :=
  with_elements (λ e,
    {| pageGrid := pageGrid e;
       exportModal_visible := v;
       statPageCount_textContent := statPageCount_textContent e;
       statFileSize_textContent := statFileSize_textContent e;
       filenameInput_value := filenameInput_value e;
       filenameError_textContent := filenameError_textContent e;
       confirmExport_disabled := confirmExport_disabled e |}).

Definition set_statPageCount_textContent (v : jsstring) : App → App :=
  with_elements (λ e,
    {| pageGrid := pageGrid e;
       exportModal_visible := exportModal_visible e;
       statPageCount_textContent := v;
       statFileSize_textContent := statFileSize_textContent e;
       filenameInput_value := filenameInput_value e;
       filenameError_textContent := filenameError_textContent e;
       confirmExport_disabled := confirmExport_disabled e |}).

Definition set_statFileSize_textContent (v : jsstring) : App → App :=
  with_elements (λ e,
    {| pageGrid := pageGrid e;
       exportModal_visible := exportModal_visible e;
       statPageCount_textContent := statPageCount_textContent e;
       statFileSize_textContent := v;
       filenameInput_value := filenameInput_value e;
       filenameError_textContent := filenameError_textContent e;
       confirmExport_disabled := confirmExport_disabled e |}).

Definition set_filenameInput_value (v : jsstring) : App → App :=
  with_elements (λ e,
    {| pageGrid := pageGrid e;
       exportModal_visible := exportModal_visible e;
       statPageCount_textContent := statPageCount_textContent e;
       statFileSize_textContent := statFileSize_textContent e;
       filenameInput_value := v;
       filenameError_textContent := filenameError_textContent e;
       confirmExport_disabled := confirmExport_disabled e |}).

Definition set_filenameError_textContent (v : jsstring) : App → App :=
  with_elements (λ e,
    {| pageGrid := pageGrid e;
       exportModal_visible := exportModal_visible e;
       statPageCount_textContent := statPageCount_textContent e;
       statFileSize_textContent := statFileSize_textContent e;
       filenameInput_value := filenameInput_value e;
       filenameError_textContent := v;
       confirmExport_disabled := confirmExport_disabled e |}).

Definition set_confirmExport_disabled (v : bool) : App → App :=
  with_elements (λ e,
    {| pageGrid := pageGrid e;
       exportModal_visible := exportModal_visible e;
       statPageCount_textContent := statPageCount_textContent e;
       statFileSize_textContent := statFileSize_textContent e;
       filenameInput_value := filenameInput_value e;
       filenameError_textContent := filenameError_textContent e;
       confirmExport_disabled := v |}).

(** The application as the script leaves it once loaded. *)
Definition initial (date : jsstring) : App :=
  {| state := {| pages := []; selectedIds := ∅; draggedId := None;
                 isProcessing := false; currentFilename := js "merged";
                 filenameTemplate := TplCustom |};
     elements := {| pageGrid := []; exportModal_visible := false;
                    statPageCount_textContent := [];
                    statFileSize_textContent := [];
                    filenameInput_value := [];
                    filenameError_textContent := [];
                    confirmExport_disabled := false |};
     effects := []; heapNext := 0; idCalls := 0; today := date |}.

(** ** Array primitives *)

(** [arr.findIndex(pred)]; [None] is [-1]. *)
Definition findIndex {A} (P : A → Prop) `{∀ x, Decision (P x)} (l : list A) : option nat :=
  fst <$> list_find P l.

(** [arr.splice(start, 1)] on an index in range: the array that is left. *)
Definition splice_remove {A} (start : nat) (l : list A) : list A := delete start l.

(** [arr.splice(start, 0, x)]: [start] beyond the end is clamped. *)
Definition splice_insert {A} (start : nat) (x : A) (l : list A) : list A :=
  take start l ++ x :: drop start l.

(** ** Rendering, selection, rotation *)

Definition showToast (message : jsstring) (type : ToastType) : App → App :=
  emit (ShowToast message type).

Definition renderPages (a : App) : App :=
  set_pageGrid (page_id <$> pages (state a)) a.

Definition togglePageSelection (i : jsstring) (a : App) : App :=
  if decide (i ∈ selectedIds (state a))
  then set_selectedIds (selectedIds (state a) ∖ {[ i ]}) a
  else set_selectedIds (selectedIds (state a) ∪ {[ i ]}) a.

Definition selectAll (a : App) : App :=
  renderPages
    (set_selectedIds (selectedIds (state a) ∪ list_to_set (page_id <$> pages (state a))) a).

Definition clearAll (a : App) : App :=
  showToast (js "All pages cleared") info
    (renderPages (set_selectedIds ∅ (set_pages [] a))).

(** [page.rotation = (page.rotation + 90) % 360] on the first page with
    that id; the page object is shared, so the array sees the update. *)
Definition rotatePage (i : jsstring) (a : App) : App :=
  match list_find (λ p, page_id p = i) (pages (state a)) with
  | None => a
  | Some (k, p) =>
      let r := (rotation p + 90) `mod` 360 in
      showToast (js "Rotated to " ++ num r ++ [176%N]) info
        (set_pages (<[k := set_rotation r p]> (pages (state a))) a)
  end.

(** ** Drag and drop reorder *)

Definition handlePageDragStart (i : jsstring) : App → App :=
  set_draggedId (Some i).

Definition handlePageDragEnd : App → App :=
  set_draggedId None.

Definition handlePageDrop (targetId : jsstring) (a : App) : App :=
  let ps := pages (state a) in
  if decide (draggedId (state a) = Some targetId) then a
  else
    match findIndex (λ p, Some (page_id p) = draggedId (state a)) ps,
          findIndex (λ p, page_id p = targetId) ps with
    | Some draggedIndex, Some targetIndex =>
        match ps !! draggedIndex with
        | Some draggedPage =>
            renderPages
              (set_pages (splice_insert targetIndex draggedPage
                            (splice_remove draggedIndex ps)) a)
        | None => a                  (* not reached: the index was just found *)
        end
    | _, _ => a
    end.

(** ** Delete *)

Definition deleteSelected (a : App) : App :=
  if decide (size (selectedIds (state a)) = 0) then a
  else
    let count := size (selectedIds (state a)) in
    let kept := filter (λ p, page_id p ∉ selectedIds (state a)) (pages (state a)) in
    showToast (js "Deleted " ++ num count ++ js " page(s)") success
      (renderPages (set_selectedIds ∅ (set_pages kept a))).

(** ** Exceptions and effects

    A computation runs on the application, may change it, and either
    returns or throws; what it did before throwing stays done. *)

Inductive result (A : Type) :=
| Ok (x : A)
| Throw (message : jsstring).
Arguments Ok {A} x.
Arguments Throw {A} message.

Definition M (A : Type) : Type := App → App * result A.

Definition ret {A} (x : A) : M A := λ a, (a, Ok x).

Definition bind {A B} (m : M A) (k : A → M B) : M B :=
  λ a, match m a with
       | (a', Ok x) => k x a'
       | (a', Throw e) => (a', Throw e)
       end.

(** An application update that cannot throw. *)
Definition act (f : App → App) : M unit := λ a, (f a, Ok tt).

(** The outcome of a collaborator call. *)
Definition await {A} (r : result A) : M A := λ a, (a, r).

#[export] Instance M_ret : MRet M := @ret.
#[export] Instance M_bind : MBind M := λ A B k m, bind m k.

(** [try { body } catch (error) { handler(error.message) } finally { fin }]
    for a handler that does not throw. *)
Definition try_catch_finally (body : M unit) (handler : jsstring → App → App)
    (fin : App → App) (a : App) : App :=
  match body a with
  | (a', Ok _) => fin a'
  | (a', Throw e) => fin (handler e a')
  end.

(** [for (let i = start; ...; i++) { f(i, l[i - start]) }] *)
Fixpoint for_indexed {A} (f : nat → A → M unit) (start : nat) (l : list A) : M unit :=
  match l with
  | [] => ret tt
  | x :: l' => f start x ;; for_indexed f (S start) l'
  end.

(** A loop that carries a value from one round to the next. *)
Fixpoint for_accum {A B} (f : B → A → M B) (l : list A) (b : B) : M B :=
  match l with
  | [] => ret b
  | x :: l' => b' ← f b x; for_accum f l' b'
  end.

Definition showLoading (text : jsstring) : App → App := emit (ShowLoading text).
Definition updateLoadingProgress (text : jsstring) : App → App :=
  emit (UpdateLoadingProgress text).
Definition hideLoading : App → App := emit HideLoading.
Definition downloadBlob (saved : list Byte.byte) (filename : jsstring) : App → App :=
  emit (DownloadBlob saved filename).

(** ** Collaborators *)

(** A page of an output document: the copied page, and the argument of
    [setRotation] when it was called on it. *)
Record OutPage {PDFPage : Type} := {
  copied : PDFPage;
  setRotation : option nat
}.
Arguments OutPage : clear implicits.

Class Collaborators := {
  PDFDoc : Type;                     (* pdf-lib document *)
  PDFPage : Type;                    (* pdf-lib page copied into a new document *)
  PDFJsDoc : Type;                   (* PDF.js document *)
  (* PDFLib.PDFDocument.load(bytes, { ignoreEncryption: true }) *)
  PDFDocument_load : list Byte.byte → result PDFDoc;
  getPageCount : PDFDoc → nat;
  (* newPdf.copyPages(sourcePdf, [index]) *)
  copyPages : PDFDoc → nat → result PDFPage;
  (* newPdf.save(options), for the pages added so far *)
  save : list (OutPage PDFPage) → SaveOptions → result (list Byte.byte);
  (* pdfjsLib.getDocument({ data }).promise *)
  getDocument : list Byte.byte → result PDFJsDoc;
  (* generateThumbnail(pdfJsDoc, pageNumber): canvas rendering *)
  generateThumbnail : PDFJsDoc → nat → result jsstring;
  (* generateId(), by call number: clock and random source *)
  generateId : nat → jsstring
}.

(** An uploaded [File]. *)
Record File := {
  name : jsstring;
  type : jsstring;
  arrayBuffer : list Byte.byte
}.

(** [{ useObjectStreams: true, addDefaultPage: false }] *)
Definition exportOptions : SaveOptions :=
  {| useObjectStreams := true; addDefaultPage := false |}.

(** ** Export planning *)

(** [state.pages.filter(p => state.selectedIds.has(p.id))] *)
Definition selectedPages (s : State) : list PageData :=
  filter (λ p, page_id p ∈ selectedIds s) (pages s).

(** [state.selectedIds.size > 0 ? state.pages.filter(p => state.selectedIds.has(p.id)) : state.pages] *)
Definition pagesToExport (s : State) : list PageData :=
  if decide (0 < size (selectedIds s)) then selectedPages s else pages s.

(** [l.filter(p => p.pdfBytes === b).length] *)
Definition pagesSharing (b : Uint8Array) (l : list PageData) : nat :=
  length (filter (λ p, same_object (pdfBytes p) b = true) l).

(** The second loop of [estimateFileSize]: the running estimate and the
    set of arrays already counted.  Numbers are exact rationals here;
    the rounding of IEEE doubles is not part of the model, and a division
    by zero (a planned page that is not in the collection, which no caller
    passes) gives 0 here where JavaScript gives Infinity or NaN.  (The
    first loop of the function fills [sourceStats] and [totalBytes], which
    are never read again.) *)
Definition estimate_step (all : list PageData) (planned : list PageData)
    (acc : Q * gset nat) (page : PageData) : Q * gset nat :=
  let '(estimatedBytes, processed) := acc in
  if decide (addr (pdfBytes page) ∈ processed) then acc
  else
    let pagesFromSource := pagesSharing (pdfBytes page) planned in
    let totalPagesInSource := pagesSharing (pdfBytes page) all in
    ((estimatedBytes
      + inject_Z (Z.of_nat (length (bytes (pdfBytes page))))
        * inject_Z (Z.of_nat pagesFromSource)
        / inject_Z (Z.of_nat totalPagesInSource))%Q,
     {[ addr (pdfBytes page) ]} ∪ processed).

(** [estimatedBytes] just before it is formatted, as an exact number: the
    doubles of the script round each operation, so its value and the text
    shown can differ from these in the last place. *)
Definition estimatedBytes (s : State) (planned : list PageData) : Q :=
  (fst (foldl (estimate_step (pages s) planned) (0%Q, ∅) planned) * (85 # 100))%Q.

(** [Math.round(x)] for [x >= 0]. *)
Definition Math_round (x : Q) : Z := Qfloor (x + (1 # 2))%Q.

(** [x.toFixed(1)] for [x >= 0]. *)
Definition toFixed1 (x : Q) : jsstring :=
  let tenths := Z.to_nat (Math_round (x * 10)%Q) in
  num (tenths / 10) ++ js "." ++ num (tenths `mod` 10).

Definition formatSize (estimated : Q) : jsstring :=
  if Qlt_le_dec estimated 1024 then
    num (Z.to_nat (Math_round estimated)) ++ js " B"
  else if Qlt_le_dec estimated (1024 * 1024) then
    num (Z.to_nat (Math_round (estimated / 1024)%Q)) ++ js " KB"
  else
    toFixed1 (estimated / (1024 * 1024))%Q ++ js " MB".

Definition estimateFileSize (s : State) (planned : list PageData) : jsstring :=
  formatSize (estimatedBytes s planned).

(** ** Filename rules *)

(** White space and line terminators, as [String.prototype.trim] strips them. *)
Definition is_whitespace (c : N) : bool :=
  bool_decide (c ∈ [9; 10; 11; 12; 13; 32; 160; 5760; 8192; 8193; 8194; 8195;
                    8196; 8197; 8198; 8199; 8200; 8201; 8202; 8232; 8233;
                    8239; 8287; 12288; 65279]%N).

Fixpoint dropWhile {A} (f : A → bool) (l : list A) : list A :=
  match l with
  | [] => []
  | x :: l' => if f x then dropWhile f l' else l
  end.

Definition trim (s : jsstring) : jsstring :=
  reverse (dropWhile is_whitespace (reverse (dropWhile is_whitespace s))).

(** The characters of the class [invalidChars]:
    backslash, slash, colon, star, question mark, double quote, less-than,
    greater-than, vertical bar. *)
Definition invalidCharCodes : list N := [92; 47; 58; 42; 63; 34; 60; 62; 124]%N.

(** [invalidChars.test(value)] *)
Definition invalidChars_test (value : jsstring) : bool :=
  existsb (λ c, bool_decide (c ∈ invalidCharCodes)) value.

Definition msg_empty : jsstring := js "Filename cannot be empty".
Definition msg_too_long : jsstring := js "Filename too long (max 100 characters)".
Definition msg_invalid : jsstring :=
  js "Invalid characters: \ / : * ? " ++ [34%N] ++ js " < > |".

(** The [error] string computed by [validateFilenameInput]. *)
Definition filenameErrorOf (value : jsstring) : jsstring :=
  if length value =? 0 then msg_empty
  else if 100 <? length value then msg_too_long
  else if invalidChars_test value then msg_invalid
  else [].

Definition validateFilenameInput (a : App) : App * bool :=
  let value := trim (filenameInput_value (elements a)) in
  let err := filenameErrorOf value in
  let a1 := set_filenameError_textContent err a in
  let a2 := set_confirmExport_disabled (negb (bool_decide (err = []))) a1 in
  let a3 := if bool_decide (err = []) then set_currentFilename value a2 else a2 in
  (a3, bool_decide (err = [])).

Definition updateFilenameFromTemplate (a : App) : App :=
  let planned := pagesToExport (state a) in
  let filename :=
    match filenameTemplate (state a) with
    | TplMerged => js "merged"
    | TplPages => js "pages_1-" ++ num (length planned)
    | TplDate => js "document_" ++ today a
    | TplCustom | TplOther _ =>
        match filenameInput_value (elements a) with
        | [] => js "merged"
        | v => v
        end
    end in
  fst (validateFilenameInput
         (set_currentFilename filename (set_filenameInput_value filename a))).

Definition selectFilenameTemplate (t : Template) (a : App) : App :=
  updateFilenameFromTemplate (set_filenameTemplate t a).

Definition hideExportPreview : App → App := set_exportModal_visible false.

Definition showExportPreview (a : App) : App :=
  match pages (state a) with
  | [] => showToast (js "No pages to export") error a
  | _ =>
      let planned := pagesToExport (state a) in
      set_exportModal_visible true
        (updateFilenameFromTemplate
           (set_statFileSize_textContent (estimateFileSize (state a) planned)
              (set_statPageCount_textContent (num (length planned)) a)))
  end.

(** ** Ingestion and export *)

Section Handlers.
Context `{C : Collaborators}.

(** [new Uint8Array(arrayBuffer).slice()], [pdfBytes.slice()]: a new array. *)
Definition slice (data : list Byte.byte) : M Uint8Array :=
  λ a, (set_heapNext (S (heapNext a)) a, Ok {| addr := heapNext a; bytes := data |}).

Definition nextId : M jsstring :=
  λ a, (set_idCalls (S (idCalls a)) a, Ok (generateId (idCalls a))).

(** [state.pages.push(pageData)] *)
Definition pages_push (p : PageData) (a : App) : App :=
  set_pages (pages (state a) ++ [p]) a.

(** First pass of [processFiles]: count the pages of the batch. *)
Definition countPages (files : list File) : M nat :=
  for_accum
    (λ totalPages file,
       pdfDoc ← await (PDFDocument_load (arrayBuffer file));
       mret (totalPages + getPageCount pdfDoc))
    files 0.

(** One round of the inner loop of the second pass. *)
Definition processPage (file : File) (pdfBytes : Uint8Array) (pdfJsDoc : PDFJsDoc)
    (totalPages processedPages i : nat) : M nat :=
  act (updateLoadingProgress
         (js "Processing page " ++ num (processedPages + 1) ++ js " of "
          ++ num totalPages ++ js "..."));;
  thumbnail ← await (generateThumbnail pdfJsDoc (i + 1));
  id ← nextId;
  act (pages_push {| page_id := id; sourceFile := name file; pageIndex := i;
                     originalPageNumber := i + 1; pdfBytes := pdfBytes;
                     thumbnail := thumbnail; rotation := 0 |});;
  mret (processedPages + 1).

(** One round of the outer loop of the second pass. *)
Definition processFile (totalPages processedPages : nat) (file : File) : M nat :=
  pdfBytes ← slice (arrayBuffer file);
  pdfDoc ← await (PDFDocument_load (bytes pdfBytes));
  let pageCount := getPageCount pdfDoc in
  forJs ← slice (bytes pdfBytes);
  pdfJsDoc ← await (getDocument (bytes forJs));
  for_accum (processPage file pdfBytes pdfJsDoc totalPages)
    (seq 0 pageCount) processedPages.

Definition processFiles_try (files : list File) : M unit :=
  totalPages ← countPages files;
  processedPages ← for_accum (processFile totalPages) files 0;
  act hideLoading;;
  act renderPages;;
  act (showToast (js "Added " ++ num processedPages ++ js " pages from "
                  ++ num (length files) ++ js " file(s)") success).

Definition processFiles_catch (message : jsstring) (a : App) : App :=
  showToast (js "Error processing PDF: " ++ message) error
    (hideLoading (emit (ConsoleError (js "Error processing PDF:") message) a)).

(** The synchronous prefix of [processFiles]: [None] when it returns at once. *)
Definition processFiles_begin (a : App) : option App :=
  if isProcessing (state a) then None
  else Some (showLoading (js "Loading PDF files...") (set_isProcessing true a)).

Definition processFiles (files : list File) (a : App) : App :=
  match processFiles_begin a with
  | None => a
  | Some a1 =>
      try_catch_finally (processFiles_try files) processFiles_catch
        (set_isProcessing false) a1
  end.

(** [handleFileSelect]: an empty choice starts nothing. *)
Definition handleFileSelect (files : list File) (a : App) : App :=
  match files with
  | [] => a
  | _ => processFiles files a
  end.

(** [handleFileDrop]: only the PDF files of the drop are processed. *)
Definition handleFileDrop (dropped : list File) (a : App) : App :=
  match filter (λ f, type f = js "application/pdf") dropped with
  | [] => showToast (js "Please drop PDF files only") error a
  | files => processFiles files a
  end.

(** Load the source, copy the page, rotate the copy if the page is rotated. *)
Definition copyAndRotate (page : PageData) : M (OutPage PDFPage) :=
  sourcePdf ← await (PDFDocument_load (bytes (pdfBytes page)));
  copiedPage ← await (copyPages sourcePdf (pageIndex page));
  mret {| copied := copiedPage;
          setRotation := if decide (0 < rotation page)
                         then Some (rotation page) else None |}.

(** One round of the loop of [splitSelected]. *)
Definition splitPage (total : nat) (i : nat) (page : PageData) : M unit :=
  act (updateLoadingProgress
         (js "Creating page " ++ num (i + 1) ++ js " of " ++ num total ++ js "..."));;
  out ← copyAndRotate page;
  saved ← await (save [out] exportOptions);
  act (downloadBlob saved (js "page_" ++ num (i + 1) ++ js ".pdf"));;
  act (emit (SetTimeout 300)).

Definition splitSelected_try : M unit :=
  λ a,
    let selected := selectedPages (state a) in
    (for_indexed (splitPage (length selected)) 0 selected;;
     act hideLoading;;
     act (showToast (js "Split " ++ num (length selected)
                     ++ js " page(s) into separate PDFs") success)) a.

Definition splitSelected_catch (message : jsstring) (a : App) : App :=
  showToast (js "Error splitting PDF: " ++ message) error
    (hideLoading (emit (ConsoleError (js "Error splitting PDF:") message) a)).

(** The synchronous prefix of [splitSelected]. *)
Definition splitSelected_begin (a : App) : option App :=
  if decide (size (selectedIds (state a)) = 0) then None
  else Some (showLoading (js "Splitting PDF...") (set_isProcessing true a)).

Definition splitSelected (a : App) : App :=
  match splitSelected_begin a with
  | None => showToast (js "Select pages to split") error a
  | Some a1 =>
      try_catch_finally splitSelected_try splitSelected_catch
        (set_isProcessing false) a1
  end.

(** One round of the loop of [mergeAndExport]: the pages added so far. *)
Definition mergePage (total : nat) (acc : nat * list (OutPage PDFPage))
    (page : PageData) : M (nat * list (OutPage PDFPage)) :=
  let '(i, added) := acc in
  act (updateLoadingProgress
         (js "Adding page " ++ num (i + 1) ++ js " of " ++ num total ++ js "..."));;
  out ← copyAndRotate page;
  mret (S i, added ++ [out]).

Definition mergeAndExport_try : M unit :=
  λ a,
    let pagesToMerge := pagesToExport (state a) in
    ('(_, added) ← for_accum (mergePage (length pagesToMerge)) pagesToMerge (0, []);
     saved ← await (save added exportOptions);
     let filename := currentFilename (state a) ++ js ".pdf" in
     act (downloadBlob saved filename);;
     act hideLoading;;
     act (showToast (js "Exported " ++ num (length pagesToMerge) ++ js " pages as "
                     ++ [34%N] ++ filename ++ [34%N]) success)) a.

Definition mergeAndExport_catch (message : jsstring) (a : App) : App :=
  showToast (js "Error merging PDF: " ++ message) error
    (hideLoading (emit (ConsoleError (js "Error merging PDF:") message) a)).

(** The synchronous prefix of [mergeAndExport]. *)
Definition mergeAndExport_begin (a : App) : option App :=
  match pages (state a) with
  | [] => None
  | _ => Some (showLoading (js "Merging PDF...") (set_isProcessing true a))
  end.

Definition mergeAndExport (a : App) : App :=
  match mergeAndExport_begin a with
  | None => showToast (js "No pages to merge") error a
  | Some a1 =>
      try_catch_finally mergeAndExport_try mergeAndExport_catch
        (set_isProcessing false) a1
  end.

Definition confirmAndExport (a : App) : App :=
  match validateFilenameInput a with
  | (a1, false) => a1
  | (a1, true) => mergeAndExport (hideExportPreview a1)
  end.

End Handlers.

(** ** The earlier variant of the script ([app.js])

    Its page objects carry no rotation (they are the pages whose
    rotation is 0 here), its merge button exports at once under a dated
    name, and neither export touches the rotation of a copied page.  Its
    other handlers are those above, without the preview and the filename
    rules. *)

Module AppJs.
Section Handlers.
Context `{C : Collaborators}.

Definition copyPage (page : PageData) : M (OutPage PDFPage) :=
  sourcePdf ← await (PDFDocument_load (bytes (pdfBytes page)));
  copiedPage ← await (copyPages sourcePdf (pageIndex page));
  mret {| copied := copiedPage; setRotation := None |}.

Definition splitPage (total : nat) (i : nat) (page : PageData) : M unit :=
  act (updateLoadingProgress
         (js "Creating page " ++ num (i + 1) ++ js " of " ++ num total ++ js "..."));;
  out ← copyPage page;
  saved ← await (save [out] exportOptions);
  act (downloadBlob saved (js "page_" ++ num (i + 1) ++ js ".pdf"));;
  act (emit (SetTimeout 300)).

Definition splitSelected_try : M unit :=
  λ a,
    let selected := selectedPages (state a) in
    (for_indexed (splitPage (length selected)) 0 selected;;
     act hideLoading;;
     act (showToast (js "Split " ++ num (length selected)
                     ++ js " page(s) into separate PDFs") success)) a.

Definition splitSelected (a : App) : App :=
  match splitSelected_begin a with
  | None => showToast (js "Select pages to split") error a
  | Some a1 =>
      try_catch_finally splitSelected_try splitSelected_catch
        (set_isProcessing false) a1
  end.

Definition mergePage (total : nat) (acc : nat * list (OutPage PDFPage))
    (page : PageData) : M (nat * list (OutPage PDFPage)) :=
  let '(i, added) := acc in
  act (updateLoadingProgress
         (js "Adding page " ++ num (i + 1) ++ js " of " ++ num total ++ js "..."));;
  out ← copyPage page;
  mret (S i, added ++ [out]).

(** [merged_selected_<date>.pdf] or [merged_all_<date>.pdf] *)
Definition exportName (a : App) : jsstring :=
  if decide (0 < size (selectedIds (state a)))
  then js "merged_selected_" ++ today a ++ js ".pdf"
  else js "merged_all_" ++ today a ++ js ".pdf".

Definition mergeAndExport_try : M unit :=
  λ a,
    let pagesToMerge := pagesToExport (state a) in
    ('(_, added) ← for_accum (mergePage (length pagesToMerge)) pagesToMerge (0, []);
     saved ← await (save added exportOptions);
     act (downloadBlob saved (exportName a));;
     act hideLoading;;
     let pageLabel :=
       if decide (0 < size (selectedIds (state a))) then js "selected" else js "all" in
     act (showToast (js "Exported " ++ num (length pagesToMerge) ++ js " "
                     ++ pageLabel ++ js " pages") success)) a.

Definition mergeAndExport (a : App) : App :=
  match mergeAndExport_begin a with
  | None => showToast (js "No pages to merge") error a
  | Some a1 =>
      try_catch_finally mergeAndExport_try mergeAndExport_catch
        (set_isProcessing false) a1
  end.

End Handlers.
End AppJs.

(** ** Reading the log of effects *)

Definition downloads (es : list Effect) : list (list Byte.byte * jsstring) :=
  omap (λ e, match e with DownloadBlob d f => Some (d, f) | _ => None end) es.

Definition toasts (es : list Effect) : list (jsstring * ToastType) :=
  omap (λ e, match e with ShowToast m t => Some (m, t) | _ => None end) es.

Definition progressUpdates (es : list Effect) : list jsstring :=
  omap (λ e, match e with UpdateLoadingProgress t => Some t | _ => None end) es.

(** ** The user interface as a transition system

    The events the page can deliver.  A card exists for an id exactly when
    the grid was last rendered with it, and only an existing card can be
    clicked, dragged or dropped on. *)

Inductive Event :=
| CardClick (i : jsstring)
| RotateClick (i : jsstring)
| CardDragStart (i : jsstring)
| CardDragEnd
| CardDrop (i : jsstring)
| DeleteClick
| SelectAllClick
| ClearAllClick
| SplitClick
| MergeClick
| ModalClose
| FilenameInput (v : jsstring)
| TemplateClick (t : Template)
| ConfirmExportClick
| FilesChosen (files : list File)
| FilesDropped (files : list File).

Definition enabled (a : App) (ev : Event) : Prop :=
  match ev with
  | CardClick i | RotateClick i | CardDragStart i | CardDrop i =>
      i ∈ pageGrid (elements a)
  | ConfirmExportClick => confirmExport_disabled (elements a) = false
  | _ => True
  end.

Section Interface.
Context `{C : Collaborators}.

Definition handle (ev : Event) (a : App) : App :=
  match ev with
  | CardClick i => togglePageSelection i a
  | RotateClick i => rotatePage i a
  | CardDragStart i => handlePageDragStart i a
  | CardDragEnd => handlePageDragEnd a
  | CardDrop i => handlePageDrop i a
  | DeleteClick => deleteSelected a
  | SelectAllClick => selectAll a
  | ClearAllClick => clearAll a
  | SplitClick => splitSelected a
  | MergeClick => showExportPreview a
  | ModalClose => hideExportPreview a
  | FilenameInput v => fst (validateFilenameInput (set_filenameInput_value v a))
  | TemplateClick t => selectFilenameTemplate t a
  | ConfirmExportClick => confirmAndExport a
  | FilesChosen files => handleFileSelect files a
  | FilesDropped files => handleFileDrop files a
  end.

Inductive reachable (date : jsstring) : App → Prop :=
| reachable_initial : reachable date (initial date)
| reachable_step a ev :
    reachable date a → enabled a ev → reachable date (handle ev a).

End Interface.

(** Every selected id is the id of a page of the collection. *)
Definition selection_valid (s : State) : Prop :=
  ∀ i, i ∈ selectedIds s → ∃ p, p ∈ pages s ∧ page_id p = i.

(** Every rendered card is the card of a page of the collection. *)
Definition grid_valid (a : App) : Prop :=
  ∀ i, i ∈ pageGrid (elements a) → ∃ p, p ∈ pages (state a) ∧ page_id p = i.

(** ** Reposition, as a relation between positions *)

(** [x] is at some position and [y] at the next one. *)
Definition immediately_precedes {A} (x y : A) (l : list A) : Prop :=
  ∃ k, l !! k = Some x ∧ l !! S k = Some y.

(** The first position of a page with the given id. *)
Definition firstIndexOf (i : jsstring) (l : list PageData) : option nat :=
  findIndex (λ p, page_id p = i) l.

(** ** A small stand-in for the collaborators

    A toy document format to run the model on: the first byte of a file is
    its number of pages, an empty file does not decode, a file whose
    second byte is 255 decodes but cannot be rendered. *)

Definition toy_pageCount (data : list Byte.byte) : nat :=
  match data with
  | [] => 0
  | b :: _ => Byte.to_nat b
  end.

Definition toy_load (data : list Byte.byte) : result (list Byte.byte) :=
  match data with
  | [] => Throw (js "No PDF header found")
  | _ => Ok data
  end.

Definition toy_copyPages (doc : list Byte.byte) (i : nat) : result (list Byte.byte * nat) :=
  if decide (i < toy_pageCount doc) then Ok (doc, i) else Throw (js "Invalid page index").

Definition toy_save (added : list (OutPage (list Byte.byte * nat))) (o : SaveOptions)
    : result (list Byte.byte) :=
  Ok (mjoin ((λ out, take 1 (fst (copied out))) <$> added)).

Definition toy_getDocument (data : list Byte.byte) : result (list Byte.byte) :=
  match data with
  | _ :: Byte.xff :: _ => Throw (js "Invalid PDF structure")
  | _ => Ok data
  end.

Definition toy : Collaborators :=
  {| PDFDoc := list Byte.byte;
     PDFPage := list Byte.byte * nat;
     PDFJsDoc := list Byte.byte;
     PDFDocument_load := toy_load;
     getPageCount := toy_pageCount;
     copyPages := toy_copyPages;
     save := toy_save;
     getDocument := toy_getDocument;
     generateThumbnail := λ _ n, Ok (js "data:image/jpeg;base64," ++ num n);
     generateId := λ n, js "page_" ++ num n |}.

Definition file_two_pages : File :=
  {| name := js "two.pdf"; type := js "application/pdf";
     arrayBuffer := [Byte.x02; Byte.x25; Byte.x50; Byte.x44] |}.

Definition file_three_pages : File :=
  {| name := js "three.pdf"; type := js "application/pdf";
     arrayBuffer := [Byte.x03; Byte.x25; Byte.x50; Byte.x44; Byte.x46] |}.

Definition file_corrupt : File :=
  {| name := js "broken.pdf"; type := js "application/pdf";
     arrayBuffer := [] |}.

Definition file_unrenderable : File :=
  {| name := js "odd.pdf"; type := js "application/pdf";
     arrayBuffer := [Byte.x02; Byte.xff] |}.

(** The application after a three-page upload. *)
Definition app_three : App :=
  processFiles (C := toy) [file_three_pages] (initial (js "2024-01-31")).

(** The three-page collection with its first page being dragged. *)
Definition app_dragging_first : App :=
  handlePageDragStart (js "page_0") app_three.

(** ** Vocabulary of the export properties *)

(** The application with more effects logged. *)
Definition log (es : list Effect) (a : App) : App :=
  {| state := state a; elements := elements a; effects := effects a ++ es;
     heapNext := heapNext a; idCalls := idCalls a; today := today a |}.

Section ExportVocabulary.
Context `{C : Collaborators}.

(** [out] is the page of [p], copied from its source document, with the
    rotation of [p] set on it when that rotation is not zero. *)
Definition copy_of (p : PageData) (out : OutPage PDFPage) : Prop :=
  ∃ doc, PDFDocument_load (bytes (pdfBytes p)) = Ok doc
         ∧ copyPages doc (pageIndex p) = Ok (copied out)
         ∧ setRotation out = if decide (rotation p = 0) then None
                             else Some (rotation p).

(** [saved] is the serialization, with the export options, of a
    document whose pages are the copies of [l], in order. *)
Definition serialized (l : list PageData) (saved : list Byte.byte) : Prop :=
  ∃ outs, Forall2 copy_of l outs ∧ save outs exportOptions = Ok saved.

(** Every document of the batch decodes, opens in the renderer, and
    each of its pages renders. *)
Definition decodes (f : File) : Prop :=
  ∃ doc, PDFDocument_load (arrayBuffer f) = Ok doc.

Definition renders (f : File) : Prop :=
  ∃ doc jsdoc, PDFDocument_load (arrayBuffer f) = Ok doc
               ∧ getDocument (arrayBuffer f) = Ok jsdoc
               ∧ ∀ i, i < getPageCount doc →
                      ∃ t, generateThumbnail jsdoc (i + 1) = Ok t.

(** Number of pages of a file; zero when it does not decode. *)
Definition pageCountOf (data : list Byte.byte) : nat :=
  match PDFDocument_load data with
  | Ok doc => getPageCount doc
  | Throw _ => 0
  end.
End ExportVocabulary.

(** The name given to the [i]-th document of a split, counting from one. *)
Definition splitName (i : nat) : jsstring := js "page_" ++ num i ++ js ".pdf".



(** Three pages, the first rotated a quarter turn, the first and the
    third selected. *)
Definition app_first_and_third : App :=
  togglePageSelection (js "page_2")
    (togglePageSelection (js "page_0") (rotatePage (js "page_0") app_three)).

(** Three pages, all selected. *)
Definition app_all_selected : App := selectAll app_three.

Definition pages_three : list PageData :=
  Eval vm_compute in pages (state app_three).

Definition pages_first_and_third : list PageData :=
  Eval vm_compute in pagesToExport (state app_first_and_third).

(** ** Vocabulary of the ingestion properties *)

(** [a'] is [a] with the pages [ps] appended to the collection and the
    effects [es] logged; selection, drag state, flags and the document
    are as in [a]. *)
Definition ingested (a a' : App) (ps : list PageData) (es : list Effect) : Prop :=
  state a' = state (set_pages (pages (state a) ++ ps) a)
  ∧ elements a' = elements a
  ∧ effects a' = effects a ++ es
  ∧ today a' = today a.

Section IngestionVocabulary.
Context `{C : Collaborators}.

(** Total number of pages of a batch. *)
Definition batchPageCount (files : list File) : nat :=
  sum_list ((λ f, pageCountOf (arrayBuffer f)) <$> files).

(** The measure of the ingestion claim as first stated: the page counts
    of the documents that decode, up to the first one that does not. *)
Fixpoint decodedBeforeFailure (files : list File) : nat :=
  match files with
  | [] => 0
  | f :: fs =>
      match PDFDocument_load (arrayBuffer f) with
      | Ok doc => getPageCount doc + decodedBeforeFailure fs
      | Throw _ => 0
      end
  end.
End IngestionVocabulary.

(** A batch whose second document is corrupt, and one whose second
    document decodes but does not render. *)
Definition batch_with_corrupt : list File := [file_two_pages; file_corrupt].
Definition batch_with_unrenderable : list File := [file_two_pages; file_unrenderable].

(** Handlers that leave the collection, the selection and the grid alone. *)
Definition same_collection (a a' : App) : Prop :=
  pages (state a') = pages (state a)
  ∧ selectedIds (state a') = selectedIds (state a)
  ∧ pageGrid (elements a') = pageGrid (elements a).

(** A session: upload three pages, click the first card, then the third. *)
Definition session_two_clicks : App :=
  handle (C := toy) (CardClick (js "page_2"))
    (handle (C := toy) (CardClick (js "page_0"))
       (handle (C := toy) (FilesChosen [file_three_pages]) (initial (js "2024-01-31")))).

(** ** Size estimate, as specified *)

(** The arrays referenced by a list of pages, each once, in order of
    first reference. *)
Fixpoint distinctBuffers (l : list PageData) (seen : gset nat) : list Uint8Array :=
  match l with
  | [] => []
  | p :: l' =>
      if decide (addr (pdfBytes p) ∈ seen) then distinctBuffers l' seen
      else pdfBytes p :: distinctBuffers l' ({[ addr (pdfBytes p) ]} ∪ seen)
  end.

Section EstimateSpec.
Context `{C : Collaborators}.

(** Sum over the distinct source arrays of the planned pages of
    [byteLength * (pagesUsedFromThisBuffer / totalPagesInThisBuffer)],
    times 0.85, where the total is the page count of the source
    document. *)
Definition estimatedBytes_spec (planned : list PageData) : Q :=
  (foldl (λ acc b,
            acc + inject_Z (Z.of_nat (length (bytes b)))
                  * (inject_Z (Z.of_nat (pagesSharing b planned))
                     / inject_Z (Z.of_nat (pageCountOf (bytes b)))))%Q
         0%Q (distinctBuffers planned ∅)
   * (85 # 100))%Q.
End EstimateSpec.

(** A three-page source of 3000 bytes. *)
Definition file_large : File :=
  {| name := js "report.pdf"; type := js "application/pdf";
     arrayBuffer := Byte.x03 :: replicate 2999 Byte.x20 |}.

(** Upload it, select the first two pages, delete them: one page is left. *)
Definition session_one_page_left : App :=
  handle (C := toy) DeleteClick
    (handle (C := toy) (CardClick (js "page_1"))
       (handle (C := toy) (CardClick (js "page_0"))
          (handle (C := toy) (FilesChosen [file_large]) (initial (js "2024-01-31"))))).

(** ** Long operations in flight

    An [async] handler runs its synchronous prefix when it is called,
    then yields at each [await]; other handlers run in between.  Only the
    prefix and the [finally] block touch [state.isProcessing], so the
    interleavings of the flag are those of starts and finishes. *)

Inductive Operation := Ingestion | SplitAssembly | MergeAssembly.

(** Calling the entry point of an operation: the application once the
    prefix has run, or [None] when the entry point returns at once. *)
Definition start (op : Operation) (a : App) : option App :=
  match op with
  | Ingestion => processFiles_begin a
  | SplitAssembly => splitSelected_begin a
  | MergeAssembly => mergeAndExport_begin a
  end.

(** The [finally] block, the same in the three handlers. *)
Definition finish (a : App) : App := set_isProcessing false a.

(** The application and the operations started and not yet finished. *)
Inductive interleaving : App * list Operation → App * list Operation → Prop :=
| interleaving_start op a a' running :
    start op a = Some a' →
    interleaving (a, running) (a', op :: running)
| interleaving_finish op a running1 running2 :
    interleaving (a, running1 ++ op :: running2) (finish a, running1 ++ running2).

(** ** Vocabulary of the collection invariants *)

(** The loading text of the second pass of [processFiles]. *)
Definition progressText (total k : nat) : jsstring :=
  js "Processing page " ++ num k ++ js " of " ++ num total ++ js "...".

(** Angles a page can have. *)
Definition rotation_valid (p : PageData) : Prop := rotation p ∈ [0; 90; 180; 270].

(** What identifies the source of a page: its array and its file name. *)
Definition source (p : PageData) : Uint8Array * jsstring := (pdfBytes p, sourceFile p).

(** One array per address: pages that share an address share the array
    and the name of the file it was read from. *)
Definition sources_coherent (l : list PageData) : Prop :=
  ∀ p q, p ∈ l → q ∈ l → addr (pdfBytes p) = addr (pdfBytes q) → source p = source q.

Section CollectionVocabulary.
Context `{C : Collaborators}.

(** The page index is a page of the source document, and the page
    number shown is one more. *)
Definition page_in_source (p : PageData) : Prop :=
  (∃ doc, PDFDocument_load (bytes (pdfBytes p)) = Ok doc
          ∧ pageIndex p < getPageCount doc)
  ∧ originalPageNumber p = pageIndex p + 1.

(** The id of a page was returned by one of the calls made so far. *)
Definition id_issued (calls : nat) (p : PageData) : Prop :=
  ∃ k, k < calls ∧ page_id p = generateId k.

(** The sources of a collection as the handlers keep them, for a given
    number of allocated arrays. *)
Definition sources_ok (l : list PageData) (heap : nat) : Prop :=
  Forall page_in_source l
  ∧ Forall rotation_valid l
  ∧ Forall (λ p, addr (pdfBytes p) < heap) l
  ∧ sources_coherent l.

(** The ids of a collection as the handlers keep them, for a given
    number of calls of the generator. *)
Definition ids_ok (l : list PageData) (calls : nat) : Prop :=
  NoDup (page_id <$> l) ∧ Forall (id_issued calls) l.

(** The pages a batch appends when all goes well, as source name, page
    index and array: file after file, page after page, one new array per
    file (a second array is allocated for the renderer). *)
Fixpoint batchLayout (files : list File) (heap : nat)
    : list (jsstring * nat * Uint8Array) :=
  match files with
  | [] => []
  | f :: fs =>
      ((λ i, (name f, i, {| addr := heap; bytes := arrayBuffer f |}))
         <$> seq 0 (pageCountOf (arrayBuffer f)))
      ++ batchLayout fs (heap + 2)
  end.

(** Number of pages of a document that render before the first one that
    does not, for the page indices [l] in order. *)
Fixpoint thumbnailsBeforeFailure (jsdoc : PDFJsDoc) (l : list nat) : nat :=
  match l with
  | [] => 0
  | i :: l' =>
      match generateThumbnail jsdoc (i + 1) with
      | Ok _ => S (thumbnailsBeforeFailure jsdoc l')
      | Throw _ => 0
      end
  end.

(** Number of pages of a file that render before its first failure:
    none when the file does not open in the renderer. *)
Definition renderedOf (f : File) : nat :=
  match PDFDocument_load (arrayBuffer f), getDocument (arrayBuffer f) with
  | Ok doc, Ok jsdoc => thumbnailsBeforeFailure jsdoc (seq 0 (getPageCount doc))
  | _, _ => 0
  end.

(** The file decodes, opens in the renderer and all its pages render. *)
Definition fully_rendered (f : File) : bool :=
  match PDFDocument_load (arrayBuffer f), getDocument (arrayBuffer f) with
  | Ok doc, Ok jsdoc =>
      thumbnailsBeforeFailure jsdoc (seq 0 (getPageCount doc)) =? getPageCount doc
  | _, _ => false
  end.

(** Number of pages of a batch that render before the first failure of
    the renderer: all pages of the files before the first file that does
    not render fully, and the pages of that file before its first
    failure. *)
Fixpoint renderedBeforeFailure (files : list File) : nat :=
  match files with
  | [] => 0
  | f :: fs =>
      if fully_rendered f
      then pageCountOf (arrayBuffer f) + renderedBeforeFailure fs
      else renderedOf f
  end.

(** A page as the second pass makes it from file [f] with array address [h]. *)
Definition page_of_file (f : File) (h : nat) (p : PageData) : Prop :=
  pdfBytes p = {| addr := h; bytes := arrayBuffer f |}
  ∧ sourceFile p = name f
  ∧ rotation p = 0
  ∧ originalPageNumber p = pageIndex p + 1
  ∧ pageIndex p < pageCountOf (arrayBuffer f)
  ∧ decodes f.

(** What a stretch of the second pass has done: pages appended with
    fresh ids, effects logged without a toast; the rest is untouched. *)
Definition appended (a a' : App) (ps : list PageData) (es : list Effect) : Prop :=
  ingested a a' ps es
  ∧ idCalls a' = idCalls a + length ps
  ∧ page_id <$> ps = generateId <$> seq (idCalls a) (length ps)
  ∧ toasts es = [].
End CollectionVocabulary.

(** Two applications with the same pages and the same counters. *)
Definition same_sources (a a' : App) : Prop :=
  pages (state a') = pages (state a)
  ∧ idCalls a' = idCalls a
  ∧ heapNext a' = heapNext a.

(** Proof steps for the examples on the stand-in collaborators. *)
Ltac toy_renders :=
  repeat constructor;
  match goal with
  | |- renders ?f =>
      exists (arrayBuffer f), (arrayBuffer f); repeat split; intros ? _; by eexists
  end.

Ltac session_reachable :=
  unfold session_two_clicks;
  apply reachable_step; [apply reachable_step; [apply reachable_step|]|];
  [ apply reachable_initial
  | exact I
  | unfold enabled; apply (bool_decide_unpack _); vm_compute; reflexivity
  | unfold enabled; apply (bool_decide_unpack _); vm_compute; reflexivity ].

(** * Properties *)

(** ** Array primitives *)

Section Arrays.
Context {A : Type}.
Implicit Types (l : list A) (x : A).

Lemma findIndex_Some (P : A → Prop) `{∀ x, Decision (P x)} l i :
  findIndex P l = Some i →
  ∃ x, l !! i = Some x ∧ P x ∧ ∀ j y, l !! j = Some y → j < i → ¬ P y.
Proof.
  unfold findIndex. destruct (list_find P l) as [[k x]|] eqn:E; simpl; [|done].
  intros [= <-]. exists x. by apply list_find_Some in E.
Qed.

Lemma findIndex_None (P : A → Prop) `{∀ x, Decision (P x)} l :
  findIndex P l = None ↔ Forall (λ x, ¬ P x) l.
Proof.
  unfold findIndex. rewrite fmap_None. apply list_find_None.
Qed.

Lemma findIndex_is_Some (P : A → Prop) `{∀ x, Decision (P x)} l x :
  x ∈ l → P x → is_Some (findIndex P l).
Proof.
  intros Hx HP. destruct (findIndex P l) eqn:E; [by eexists|].
  apply findIndex_None in E. rewrite Forall_forall in E.
  by destruct (E x Hx).
Qed.

Lemma splice_insert_Permutation i x l : splice_insert i x l ≡ₚ x :: l.
Proof.
  unfold splice_insert. rewrite <- Permutation_middle.
  by rewrite take_drop.
Qed.

Lemma splice_insert_lookup i x l :
  i ≤ length l → splice_insert i x l !! i = Some x.
Proof.
  intros Hi. unfold splice_insert.
  rewrite lookup_app_r; rewrite length_take; [|lia].
  by replace (i - i `min` length l) with 0 by lia.
Qed.

Lemma splice_insert_lookup_lt i j x l :
  j < i → i ≤ length l → splice_insert i x l !! j = l !! j.
Proof.
  intros Hj Hi. unfold splice_insert.
  rewrite lookup_app_l by (rewrite length_take; lia).
  by rewrite lookup_take_lt.
Qed.

Lemma splice_insert_lookup_gt i j x l :
  i ≤ j → i ≤ length l → splice_insert i x l !! S j = l !! j.
Proof.
  intros Hj Hi. unfold splice_insert.
  rewrite lookup_app_r; rewrite length_take; [|lia].
  replace (S j - i `min` length l) with (S (j - i)) by lia. simpl.
  rewrite lookup_drop. f_equal. lia.
Qed.

Lemma splice_insert_delete i x l :
  i ≤ length l → delete i (splice_insert i x l) = l.
Proof.
  intros Hi. unfold splice_insert.
  assert (length (take i l) = i) as Hlen by (rewrite length_take; lia).
  rewrite <- Hlen at 1. rewrite delete_middle. apply take_drop.
Qed.

Lemma splice_remove_length i x l :
  l !! i = Some x → S (length (splice_remove i l)) = length l.
Proof.
  intros Hx. unfold splice_remove. rewrite length_delete by eauto.
  apply lookup_lt_Some in Hx. lia.
Qed.

(** Removing the element at [i] and inserting it back at [j]. *)
Lemma move_Permutation i j x l :
  l !! i = Some x → splice_insert j x (splice_remove i l) ≡ₚ l.
Proof.
  intros Hx. rewrite splice_insert_Permutation. unfold splice_remove.
  symmetry. by apply delete_Permutation.
Qed.

Lemma move_lookup i j x l :
  l !! i = Some x → j < length l →
  splice_insert j x (splice_remove i l) !! j = Some x.
Proof.
  intros Hx Hj. apply splice_insert_lookup.
  apply splice_remove_length in Hx. lia.
Qed.

Lemma move_others i j x l :
  l !! i = Some x → j < length l →
  delete j (splice_insert j x (splice_remove i l)) = delete i l.
Proof.
  intros Hx Hj. apply splice_insert_delete.
  apply splice_remove_length in Hx. unfold splice_remove in Hx. lia.
Qed.

Lemma move_backward i j x y l :
  l !! i = Some x → l !! j = Some y → j < i →
  immediately_precedes x y (splice_insert j x (splice_remove i l)).
Proof.
  intros Hx Hy Hji. exists j.
  assert (j < length l) by (by eapply lookup_lt_Some).
  split; [by apply move_lookup|].
  pose proof (splice_remove_length _ _ _ Hx).
  pose proof (lookup_lt_Some _ _ _ Hx).
  rewrite splice_insert_lookup_gt by lia.
  unfold splice_remove. by rewrite list_lookup_delete_lt.
Qed.

Lemma move_forward i j x y l :
  l !! i = Some x → l !! j = Some y → i < j →
  immediately_precedes y x (splice_insert j x (splice_remove i l)).
Proof.
  intros Hx Hy Hij.
  assert (j < length l) by (by eapply lookup_lt_Some).
  pose proof (splice_remove_length _ _ _ Hx).
  destruct j as [|j]; [lia|]. exists j. split.
  - rewrite splice_insert_lookup_lt by lia.
    unfold splice_remove. rewrite list_lookup_delete_ge by lia. done.
  - by apply move_lookup.
Qed.
End Arrays.

(** ** Reorder *)

Lemma firstIndexOf_dragged a d :
  draggedId (state a) = Some d →
  findIndex (λ p, Some (page_id p) = draggedId (state a)) (pages (state a))
  = firstIndexOf d (pages (state a)).
Proof.
  intros Hd. unfold firstIndexOf, findIndex. f_equal.
  apply list_find_ext. intros p. rewrite Hd. split; congruence.
Qed.

Lemma findIndex_null a :
  draggedId (state a) = None →
  findIndex (λ p, Some (page_id p) = draggedId (state a)) (pages (state a)) = None.
Proof.
  intros Hd. apply findIndex_None, Forall_forall. intros p _. by rewrite Hd.
Qed.

Lemma firstIndexOf_None i l : firstIndexOf i l = None ↔ i ∉ page_id <$> l.
Proof.
  unfold firstIndexOf. rewrite findIndex_None, Forall_forall, list_elem_of_fmap.
  split.
  - intros Hall (p & -> & Hp). by apply (Hall p).
  - intros Hnot p Hp Hid. apply Hnot. by exists p.
Qed.

(** What a drop does: nothing, or one move. *)
Lemma handlePageDrop_cases a t :
  handlePageDrop t a = a
  ∨ ∃ d di ti dp,
      draggedId (state a) = Some d ∧ d ≠ t
      ∧ firstIndexOf d (pages (state a)) = Some di
      ∧ firstIndexOf t (pages (state a)) = Some ti
      ∧ pages (state a) !! di = Some dp
      ∧ handlePageDrop t a
        = renderPages (set_pages (splice_insert ti dp
                                    (splice_remove di (pages (state a)))) a).
Proof.
  unfold handlePageDrop. case_decide as Hsame; [by left|].
  destruct (draggedId (state a)) as [d|] eqn:Hd.
  - rewrite <- Hd. rewrite (firstIndexOf_dragged a d Hd).
    fold (firstIndexOf t (pages (state a))).
    destruct (firstIndexOf d _) as [di|] eqn:Hdi; [|by left].
    destruct (firstIndexOf t _) as [ti|] eqn:Hti; [|by left].
    destruct (pages (state a) !! di) as [dp|] eqn:Hdp; [|by left].
    right. exists d, di, ti, dp. rewrite Hd. repeat split; try done. congruence.
  - rewrite <- Hd. rewrite (findIndex_null a Hd). by left.
Qed.

Lemma handlePageDrop_moves a t d di ti :
  draggedId (state a) = Some d → d ≠ t →
  firstIndexOf d (pages (state a)) = Some di →
  firstIndexOf t (pages (state a)) = Some ti →
  ∃ dp, pages (state a) !! di = Some dp ∧ page_id dp = d
    ∧ pages (state (handlePageDrop t a))
      = splice_insert ti dp (splice_remove di (pages (state a))).
Proof.
  intros Hd Hne Hdi Hti.
  destruct (findIndex_Some _ _ _ Hdi) as (dp & Hdp & Hid & _).
  exists dp. split; [done|]. split; [done|].
  unfold handlePageDrop. rewrite decide_False by congruence.
  rewrite (firstIndexOf_dragged a d Hd), Hdi.
  fold (firstIndexOf t (pages (state a))). by rewrite Hti, Hdp.
Qed.

(** C5: a drop gesture permutes the collection: the pages, hence the
    multiset of their ids, and the length are unchanged; dropping a page
    onto itself, or a gesture whose dragged id or target id is not the id
    of a page of the collection, changes nothing at all. *)
Theorem reorder_is_permutation (a : App) (targetId : jsstring) :
  pages (state (handlePageDrop targetId a)) ≡ₚ pages (state a)
  ∧ page_id <$> pages (state (handlePageDrop targetId a)) ≡ₚ page_id <$> pages (state a)
  ∧ length (pages (state (handlePageDrop targetId a))) = length (pages (state a))
  ∧ (draggedId (state a) = Some targetId → handlePageDrop targetId a = a)
  ∧ ((∀ d, draggedId (state a) = Some d → d ∉ page_id <$> pages (state a))
     → handlePageDrop targetId a = a)
  ∧ (targetId ∉ page_id <$> pages (state a) → handlePageDrop targetId a = a).
Proof.
  assert (pages (state (handlePageDrop targetId a)) ≡ₚ pages (state a)) as Hperm.
  { destruct (handlePageDrop_cases a targetId)
      as [->|(d & di & ti & dp & _ & _ & _ & _ & Hdp & ->)]; [done|].
    simpl. by apply move_Permutation. }
  split; [done|]. split; [by rewrite Hperm|]. split; [by rewrite Hperm|].
  split; [|split].
  - intros Hsame. unfold handlePageDrop. by rewrite decide_True.
  - intros Hstale.
    destruct (handlePageDrop_cases a targetId)
      as [->|(d & di & ti & dp & Hd & _ & Hdi & _)]; [done|].
    apply Hstale, firstIndexOf_None in Hd. congruence.
  - intros Hstale.
    destruct (handlePageDrop_cases a targetId)
      as [->|(d & di & ti & dp & _ & _ & _ & Hti & _)]; [done|].
    apply firstIndexOf_None in Hstale. congruence.
Qed.

Lemma reorder_is_permutation_witness :
  handlePageDrop (js "page_0") app_dragging_first = app_dragging_first
  ∧ handlePageDrop (js "page_7") app_dragging_first = app_dragging_first
  ∧ handlePageDrop (js "page_1") app_three = app_three.
Proof.
  split; [|split].
  - destruct (reorder_is_permutation app_dragging_first (js "page_0"))
      as (_ & _ & _ & Hself & _). apply Hself. reflexivity.
  - destruct (reorder_is_permutation app_dragging_first (js "page_7"))
      as (_ & _ & _ & _ & _ & Htarget). apply Htarget.
    apply firstIndexOf_None. reflexivity.
  - destruct (reorder_is_permutation app_three (js "page_1"))
      as (_ & _ & _ & _ & Hdragged & _). apply Hdragged. intros d [=].
Defined.

(** C6, as stated, fails: dragging the first of three pages onto the
    third leaves it after the third, not before it. *)
Lemma reposition_forward_counterexample :
  draggedId (state app_dragging_first) = Some (js "page_0")
  ∧ page_id <$> pages (state app_dragging_first)
    = [js "page_0"; js "page_1"; js "page_2"]
  ∧ page_id <$> pages (state (handlePageDrop (js "page_2") app_dragging_first))
    = [js "page_1"; js "page_2"; js "page_0"]
  ∧ ¬ immediately_precedes (js "page_0") (js "page_2")
        (page_id <$> pages (state (handlePageDrop (js "page_2") app_dragging_first))).
Proof.
  split; [reflexivity|]. split; [reflexivity|].
  assert (page_id <$> pages (state (handlePageDrop (js "page_2") app_dragging_first))
          = [js "page_1"; js "page_2"; js "page_0"]) as -> by (vm_compute; reflexivity).
  split; [reflexivity|].
  intros [k [H0 H2]].
  destruct k as [|[|[|k]]]; vm_compute in H0, H2; discriminate.
Qed.

(** C6, amended: a page dragged onto a distinct page, both in the
    collection, ends at the position the target had before the move; it
    immediately precedes the target when it was dragged backward and
    immediately follows it when it was dragged forward.  The result holds
    the same page objects (none duplicated, dropped or changed) and the
    other pages keep their order. *)
Theorem reposition_takes_target_position
    (a : App) (d targetId : jsstring) (di ti : nat) (dp tp : PageData) :
  draggedId (state a) = Some d →
  d ≠ targetId →
  firstIndexOf d (pages (state a)) = Some di →
  firstIndexOf targetId (pages (state a)) = Some ti →
  pages (state a) !! di = Some dp →
  pages (state a) !! ti = Some tp →
  let after := pages (state (handlePageDrop targetId a)) in
  after !! ti = Some dp
  ∧ (ti < di → immediately_precedes dp tp after)
  ∧ (di < ti → immediately_precedes tp dp after)
  ∧ after ≡ₚ pages (state a)
  ∧ delete ti after = delete di (pages (state a)).
Proof.
  intros Hd Hne Hdi Hti Hdp Htp after.
  destruct (handlePageDrop_moves a targetId d di ti Hd Hne Hdi Hti)
    as (dp' & Hdp' & _ & Hafter).
  assert (dp' = dp) as -> by congruence.
  subst after. rewrite Hafter.
  assert (ti < length (pages (state a))) by (by eapply lookup_lt_Some).
  split; [by apply move_lookup|].
  split; [by apply move_backward|].
  split; [by apply move_forward|].
  split; [by apply move_Permutation|].
  by apply move_others.
Qed.

Lemma reposition_takes_target_position_witness :
  ∃ dp tp,
    pages (state (handlePageDrop (js "page_2") app_dragging_first)) !! 2 = Some dp
    ∧ immediately_precedes tp dp
        (pages (state (handlePageDrop (js "page_2") app_dragging_first)))
    ∧ page_id dp = js "page_0" ∧ page_id tp = js "page_2".
Proof.
  destruct (pages (state app_dragging_first) !! 0) as [dp|] eqn:Hdp; [|discriminate].
  destruct (pages (state app_dragging_first) !! 2) as [tp|] eqn:Htp; [|discriminate].
  exists dp, tp.
  destruct (reposition_takes_target_position app_dragging_first
              (js "page_0") (js "page_2") 0 2 dp tp)
    as (Hat & _ & Hfwd & _); try reflexivity; try done.
  split; [done|]. split; [apply Hfwd; lia|].
  vm_compute in Hdp, Htp. injection Hdp as <-. injection Htp as <-. done.
Defined.

Arguments js : simpl never.
Arguments num : simpl never.

(** ** Effects log *)

Lemma log_nil a : log [] a = a.
Proof. destruct a. unfold log. simpl. by rewrite app_nil_r. Qed.

Lemma log_log es1 es2 a : log es2 (log es1 a) = log (es1 ++ es2) a.
Proof. unfold log. simpl. by rewrite app_assoc. Qed.

Lemma emit_log e a : emit e a = log [e] a.
Proof. reflexivity. Qed.

Lemma downloads_app es1 es2 : downloads (es1 ++ es2) = downloads es1 ++ downloads es2.
Proof. apply omap_app. Qed.

Lemma toasts_app es1 es2 : toasts (es1 ++ es2) = toasts es1 ++ toasts es2.
Proof. apply omap_app. Qed.

Lemma progressUpdates_app es1 es2 :
  progressUpdates (es1 ++ es2) = progressUpdates es1 ++ progressUpdates es2.
Proof. apply omap_app. Qed.

(** ** The monad *)

Lemma bind_run {A B} (m : M A) (k : A → M B) a :
  (m ≫= k) a = match m a with
               | (a', Ok x) => k x a'
               | (a', Throw e) => (a', Throw e)
               end.
Proof. reflexivity. Qed.

Section ExportRuns.
Context `{C : Collaborators}.

Lemma copyAndRotate_run p :
  (∃ out, copy_of p out ∧ ∀ a, copyAndRotate p a = (a, Ok out))
  ∨ (∃ e, (¬ ∃ out, copy_of p out) ∧ ∀ a, copyAndRotate p a = (a, Throw e)).
Proof.
  destruct (PDFDocument_load (bytes (pdfBytes p))) as [doc|e] eqn:Hload.
  - destruct (copyPages doc (pageIndex p)) as [pg|e] eqn:Hcopy.
    + left.
      exists {| copied := pg;
                setRotation := if decide (0 < rotation p)
                               then Some (rotation p) else None |}.
      split.
      * exists doc. simpl. repeat split; try done.
        destruct (decide (0 < rotation p)), (decide (rotation p = 0)); (done || lia).
      * intros a. unfold copyAndRotate. rewrite bind_run. unfold await. rewrite Hload, bind_run, Hcopy.
        reflexivity.
    + right. exists e. split.
      * intros (out & doc' & Hload' & Hcopy' & _). congruence.
      * intros a. unfold copyAndRotate. rewrite bind_run. unfold await. by rewrite Hload, bind_run, Hcopy.
  - right. exists e. split.
    + intros (out & doc' & Hload' & _). congruence.
    + intros a. unfold copyAndRotate. rewrite bind_run. unfold await. by rewrite Hload.
Qed.

Lemma copy_of_functional p out1 out2 : copy_of p out1 → copy_of p out2 → out1 = out2.
Proof.
  intros (d1 & Hl1 & Hc1 & Hr1) (d2 & Hl2 & Hc2 & Hr2).
  destruct out1, out2. simpl in *. f_equal; congruence.
Qed.

(** One round of the loop of [mergeAndExport]. *)
Lemma mergePage_run total i added p a :
  ∃ t,
    (∃ out, copy_of p out
       ∧ mergePage total (i, added) p a
         = (log [UpdateLoadingProgress t] a, Ok (S i, added ++ [out])))
    ∨ (∃ e, (¬ ∃ out, copy_of p out)
       ∧ mergePage total (i, added) p a = (log [UpdateLoadingProgress t] a, Throw e)).
Proof.
  eexists. unfold mergePage. rewrite bind_run. unfold act, updateLoadingProgress.
  rewrite emit_log, bind_run.
  destruct (copyAndRotate_run p) as [(out & Hout & ->)|(e & Hfail & ->)].
  - left. by exists out.
  - right. by exists e.
Qed.

Lemma for_accum_cons {A B} (f : B → A → M B) x l b :
  for_accum f (x :: l) b = (f b x ≫= λ b', for_accum f l b').
Proof. reflexivity. Qed.

(** The loop of [mergeAndExport]. *)
Lemma merge_loop_run total l : ∀ i added a,
  ∃ es, downloads es = [] ∧ toasts es = []
    ∧ ((∃ outs, Forall2 copy_of l outs
          ∧ for_accum (mergePage total) l (i, added) a
            = (log es a, Ok (i + length l, added ++ outs)))
       ∨ (∃ e, (¬ ∃ outs, Forall2 copy_of l outs)
          ∧ for_accum (mergePage total) l (i, added) a = (log es a, Throw e))).
Proof.
  induction l as [|p l IH]; intros i added a.
  - exists []. split; [done|]. split; [done|]. left. exists [].
    split; [constructor|]. simpl. unfold ret. rewrite log_nil, app_nil_r.
    repeat f_equal. lia.
  - rewrite for_accum_cons, bind_run.
    destruct (mergePage_run total i added p a)
      as (t & [(out & Hout & ->)|(e & Hfail & ->)]).
    + destruct (IH (S i) (added ++ [out]) (log [UpdateLoadingProgress t] a))
        as (es & Hd & Ht & [(outs & Houts & ->)|(e & Hfail & ->)]).
      * exists (UpdateLoadingProgress t :: es). rewrite log_log.
        split; [done|]. split; [done|]. left. exists (out :: outs).
        split; [by constructor|]. rewrite <- app_assoc. simpl.
        repeat f_equal. lia.
      * exists (UpdateLoadingProgress t :: es). rewrite log_log.
        split; [done|]. split; [done|]. right. exists e.
        split; [|reflexivity]. intros (outs & Houts).
        apply Hfail. inversion Houts; subst. eauto.
    + exists [UpdateLoadingProgress t]. split; [done|]. split; [done|].
      right. exists e. split; [|reflexivity].
      intros (outs & Houts). apply Hfail. inversion Houts; subst. eauto.
Qed.
Lemma serialized_single p saved :
  serialized [p] saved ↔ ∃ out, copy_of p out ∧ save [out] exportOptions = Ok saved.
Proof.
  split.
  - intros (outs & Houts & Hsave). inversion Houts as [|? out ? outs' Hout Hnil]; subst.
    inversion Hnil; subst. by exists out.
  - intros (out & Hout & Hsave). exists [out]. split; [|done].
    by repeat constructor.
Qed.

(** One round of the loop of [splitSelected]. *)
Lemma splitPage_run total i p a :
  ∃ t,
    (∃ saved, serialized [p] saved
       ∧ splitPage total i p a
         = (log [UpdateLoadingProgress t; DownloadBlob saved (splitName (S i));
                 SetTimeout 300] a, Ok tt))
    ∨ (∃ e, (¬ ∃ saved, serialized [p] saved)
       ∧ splitPage total i p a = (log [UpdateLoadingProgress t] a, Throw e)).
Proof.
  eexists. unfold splitPage. rewrite !Nat.add_1_r.
  rewrite bind_run. unfold act, updateLoadingProgress.
  rewrite emit_log, bind_run.
  destruct (copyAndRotate_run p) as [(out & Hout & ->)|(e & Hfail & ->)].
  - rewrite bind_run. unfold await.
    destruct (save [out] exportOptions) as [saved|e] eqn:Hsave.
    + left. exists saved. split; [apply serialized_single; eauto|].
      rewrite bind_run. unfold downloadBlob. rewrite !emit_log, !log_log.
      reflexivity.
    + right. exists e. split; [|reflexivity].
      intros (saved & Hs). apply serialized_single in Hs as (out' & Hout' & Hsave').
      rewrite (copy_of_functional _ _ _ Hout' Hout) in Hsave'. congruence.
  - right. exists e. split; [|reflexivity].
    intros (saved & Hs). apply serialized_single in Hs as (out' & Hout' & _). eauto.
Qed.

(** The loop of [splitSelected]: the first [k] pages are emitted, each
    as a complete single-page document under its positional name; the
    loop ends there, either because the list is exhausted or because
    page [k] cannot be built. *)
Lemma split_loop_run total l : ∀ i a,
  ∃ k es,
    k ≤ length l
    ∧ Forall2 (λ p d, serialized [p] d.1) (take k l) (downloads es)
    ∧ (downloads es).*2 = splitName <$> seq (S i) k
    ∧ toasts es = []
    ∧ ((k = length l ∧ length (progressUpdates es) = k
        ∧ for_indexed (splitPage total) i l a = (log es a, Ok tt))
       ∨ (k < length l ∧ length (progressUpdates es) = S k
          ∧ (∃ p, l !! k = Some p ∧ ¬ ∃ saved, serialized [p] saved)
          ∧ ∃ e, for_indexed (splitPage total) i l a = (log es a, Throw e))).
Proof.
  induction l as [|p l IH]; intros i a.
  - exists 0, []. split; [done|]. split; [constructor|]. split; [done|].
    split; [done|]. left. split; [done|]. split; [done|].
    simpl. unfold ret. by rewrite log_nil.
  - change (for_indexed (splitPage total) i (p :: l))
      with (splitPage total i p ≫= λ _, for_indexed (splitPage total) (S i) l).
    rewrite bind_run.
    destruct (splitPage_run total i p a)
      as (t & [(saved & Hsaved & ->)|(e & Hfail & ->)]).
    + set (round := [UpdateLoadingProgress t;
                     DownloadBlob saved (splitName (S i)); SetTimeout 300]).
      destruct (IH (S i) (log round a))
        as (k & es & Hk & Hdocs & Hnames & Ht & Hend).
      exists (S k), (round ++ es).
      assert (downloads (round ++ es) = (saved, splitName (S i)) :: downloads es)
        as Hdl by (by rewrite downloads_app).
      assert (toasts (round ++ es) = toasts es) as Hts by (by rewrite toasts_app).
      assert (length (progressUpdates (round ++ es)) = S (length (progressUpdates es)))
        as Hpr by (by rewrite progressUpdates_app).
      rewrite Hdl, Hts, Hpr.
      split; [simpl; lia|]. split; [by constructor|].
      split; [by rewrite fmap_cons, Hnames|]. split; [done|].
      destruct Hend as [(-> & Hp & ->)|(Hlt & Hp & Hbad & e & ->)].
      * left. rewrite log_log. by rewrite Hp.
      * right. rewrite log_log. split; [simpl; lia|]. split; [by rewrite Hp|].
        split; [done|]. by exists e.
    + exists 0, [UpdateLoadingProgress t]. split; [simpl; lia|].
      split; [constructor|]. split; [done|]. split; [done|].
      right. split; [simpl; lia|]. split; [done|]. split; [by exists p|].
      by exists e.
Qed.
(** A whole run of [splitSelected] on a non-empty selection. *)
Lemma splitSelected_run a :
  size (selectedIds (state a)) ≠ 0 →
  ∃ k new,
    splitSelected a = set_isProcessing false (log new a)
    ∧ k ≤ length (selectedPages (state a))
    ∧ Forall2 (λ p d, serialized [p] d.1)
        (take k (selectedPages (state a))) (downloads new)
    ∧ (downloads new).*2 = splitName <$> seq 1 k
    ∧ ((k = length (selectedPages (state a))
        ∧ length (progressUpdates new) = k
        ∧ ∃ m, toasts new = [(m, success)])
       ∨ (k < length (selectedPages (state a))
          ∧ length (progressUpdates new) = S k
          ∧ (∃ p, selectedPages (state a) !! k = Some p
                  ∧ ¬ ∃ saved, serialized [p] saved)
          ∧ ∃ m, toasts new = [(js "Error splitting PDF: " ++ m, error)])).
Proof.
  intros Hsel. unfold splitSelected, splitSelected_begin.
  rewrite decide_False by done.
  unfold try_catch_finally, splitSelected_try.
  set (a1 := showLoading (js "Splitting PDF...") (set_isProcessing true a)).
  change (selectedPages (state a1)) with (selectedPages (state a)).
  set (sel := selectedPages (state a)).
  rewrite bind_run.
  destruct (split_loop_run (length sel) sel 0 a1)
    as (k & es & Hk & Hdocs & Hnames & Ht & Hend).
  exists k.
  destruct Hend as [(-> & Hp & ->)|(Hlt & Hp & Hbad & e & ->)].
  - rewrite bind_run. unfold act, hideLoading, showToast, a1, showLoading.
    rewrite !emit_log, !log_log.
    eexists. split; [reflexivity|].
    rewrite !downloads_app, !toasts_app, !progressUpdates_app, Ht.
    split; [done|]. split; [by rewrite app_nil_r|]. split; [by rewrite app_nil_r|].
    left. split; [done|]. split; [rewrite !length_app; simpl; lia|].
    by eexists.
  - unfold splitSelected_catch, hideLoading, showToast, a1, showLoading.
    rewrite !emit_log, !log_log.
    eexists. split; [reflexivity|].
    rewrite !downloads_app, !toasts_app, !progressUpdates_app, Ht.
    split; [done|]. split; [by rewrite app_nil_r|]. split; [by rewrite app_nil_r|].
    right. split; [done|]. split; [rewrite !length_app; simpl; lia|].
    split; [done|]. by exists e.
Qed.
(** A whole run of [mergeAndExport] on a non-empty collection. *)
Lemma mergeAndExport_run a :
  pages (state a) ≠ [] →
  ∃ new,
    mergeAndExport a = set_isProcessing false (log new a)
    ∧ ((∃ saved m,
          serialized (pagesToExport (state a)) saved
          ∧ downloads new = [(saved, currentFilename (state a) ++ js ".pdf")]
          ∧ toasts new = [(m, success)])
       ∨ ((¬ ∃ saved, serialized (pagesToExport (state a)) saved)
          ∧ downloads new = []
          ∧ ∃ m, toasts new = [(js "Error merging PDF: " ++ m, error)])).
Proof.
  intros Hne. unfold mergeAndExport, mergeAndExport_begin.
  destruct (pages (state a)) as [|p0 ps] eqn:Hps; [done|]. clear Hne.
  unfold try_catch_finally, mergeAndExport_try.
  set (a1 := showLoading (js "Merging PDF...") (set_isProcessing true a)).
  change (pagesToExport (state a1)) with (pagesToExport (state a)).
  change (currentFilename (state a1)) with (currentFilename (state a)).
  set (planned := pagesToExport (state a)).
  rewrite bind_run.
  destruct (merge_loop_run (length planned) planned 0 [] a1)
    as (es & Hd & Ht & [(outs & Houts & ->)|(e & Hfail & ->)]).
  - cbn beta iota zeta. rewrite app_nil_l, bind_run. unfold await.
    destruct (save outs exportOptions) as [saved|e] eqn:Hsave.
    + repeat (rewrite bind_run; unfold act at 1).
      unfold act, downloadBlob, hideLoading, showToast, a1, showLoading.
      rewrite !emit_log, !log_log.
      eexists. split; [reflexivity|].
      rewrite !downloads_app, !toasts_app, Hd, Ht.
      left. exists saved. eexists. split; [by exists outs|]. split; reflexivity.
    + unfold mergeAndExport_catch, hideLoading, showToast, a1, showLoading.
      rewrite !emit_log, !log_log.
      eexists. split; [reflexivity|].
      rewrite !downloads_app, !toasts_app, Hd, Ht.
      right. split; [|split; [done|by exists e]].
      intros (saved & outs' & Houts' & Hsave').
      assert (outs' = outs) as ->; [|congruence].
      clear -Houts Houts'. revert outs' Houts'.
      induction Houts; intros outs' Houts'; inversion Houts'; subst; [done|].
      f_equal; [by eapply copy_of_functional|eauto].
  - unfold mergeAndExport_catch, hideLoading, showToast, a1, showLoading.
    rewrite !emit_log, !log_log.
    eexists. split; [reflexivity|].
    rewrite !downloads_app, !toasts_app, Hd, Ht.
    right. split; [|split; [done|by exists e]].
    intros (saved & outs & Houts & _). eauto.
Qed.
End ExportRuns.

Lemma size_zero_empty (X : gset jsstring) : size X = 0 ↔ X = ∅.
Proof. rewrite size_empty_iff. by unfold_leibniz. Qed.

Lemma pagesToExport_plan s :
  pagesToExport s
  = if decide (selectedIds s = ∅) then pages s
    else filter (λ p, page_id p ∈ selectedIds s) (pages s).
Proof.
  unfold pagesToExport, selectedPages.
  destruct (decide (selectedIds s = ∅)) as [He|Hne].
  - rewrite decide_False; [done|]. apply size_zero_empty in He. lia.
  - rewrite decide_True; [done|].
    assert (size (selectedIds s) ≠ 0) by (by rewrite size_zero_empty). lia.
Qed.

(** C1: a merge over a non-empty collection, when the collaborators
    deliver, emits exactly one document.  Its pages are, in order, the
    copies of the planned pages: the selected pages in collection order
    when the selection is not empty, otherwise all pages; each copy has
    the rotation of its page set on it, as an absolute angle, exactly
    when that rotation is not zero.  The document is saved with object
    streams on and without a default page. *)
Theorem merge_emits_planned_document `{C : Collaborators}
    (a : App) (outs : list (OutPage PDFPage)) (saved : list Byte.byte) :
  pages (state a) ≠ [] →
  Forall2 (λ p out,
             ∃ doc, PDFDocument_load (bytes (pdfBytes p)) = Ok doc
                    ∧ copyPages doc (pageIndex p) = Ok (copied out)
                    ∧ setRotation out = if decide (rotation p = 0) then None
                                        else Some (rotation p))
          (if decide (selectedIds (state a) = ∅) then pages (state a)
           else filter (λ p, page_id p ∈ selectedIds (state a)) (pages (state a)))
          outs →
  save outs {| useObjectStreams := true; addDefaultPage := false |} = Ok saved →
  downloads (effects (mergeAndExport a))
  = downloads (effects a) ++ [(saved, currentFilename (state a) ++ js ".pdf")].
Proof.
  intros Hne Houts Hsave. rewrite <- pagesToExport_plan in Houts.
  destruct (mergeAndExport_run a Hne) as (new & -> & Hrun).
  change (effects (set_isProcessing false (log new a))) with (effects a ++ new).
  rewrite downloads_app. f_equal.
  destruct Hrun as [(saved' & m & (outs' & Houts' & Hsave') & -> & _)|(Hfail & _)].
  - assert (outs' = outs) as ->.
    2: { unfold exportOptions in Hsave'. rewrite Hsave in Hsave'.
         by injection Hsave' as <-. }
    clear -Houts Houts'. revert outs' Houts'.
    induction Houts; intros outs' Houts'; inversion Houts'; subst; [done|].
    f_equal; [by eapply copy_of_functional|eauto].
  - destruct Hfail. exists saved, outs. by split.
Qed.

Lemma merge_emits_planned_document_witness :
  downloads (effects (mergeAndExport (C := toy) app_first_and_third))
  = downloads (effects app_first_and_third)
    ++ [([Byte.x03; Byte.x03], js "merged.pdf")].
Proof.
  apply (merge_emits_planned_document (C := toy) app_first_and_third
           [ {| copied := ([Byte.x03; Byte.x25; Byte.x50; Byte.x44; Byte.x46], 0);
                setRotation := Some 90 |};
             {| copied := ([Byte.x03; Byte.x25; Byte.x50; Byte.x44; Byte.x46], 2);
                setRotation := None |} ]).
  - discriminate.
  - change (if decide (selectedIds (state app_first_and_third) = ∅)
            then pages (state app_first_and_third)
            else filter (λ p, page_id p ∈ selectedIds (state app_first_and_third))
                   (pages (state app_first_and_third)))
      with pages_first_and_third.
    repeat constructor;
      exists [Byte.x03; Byte.x25; Byte.x50; Byte.x44; Byte.x46]; repeat split.
  - reflexivity.
Defined.




(** C10: in a split over a non-empty selection the documents come out
    in the order of the selected pages in the collection (the pages of
    the collection whose id is selected, in collection order), and the
    i-th one emitted, counting from one, is the single-page document of
    the i-th selected page and is named page_i.pdf whatever its source
    file, its original page number, the filename template or the current
    filename; when every selected page can be built there is one document
    per selected page. *)
Theorem split_names_are_positional `{C : Collaborators} (a : App) :
  size (selectedIds (state a)) ≠ 0 →
  ∃ k new,
    effects (splitSelected a) = effects a ++ new
    ∧ k ≤ length (filter (λ p, page_id p ∈ selectedIds (state a)) (pages (state a)))
    ∧ Forall2 (λ p d, serialized [p] d.1)
        (take k (filter (λ p, page_id p ∈ selectedIds (state a)) (pages (state a))))
        (downloads new)
    ∧ (downloads new).*2 = (λ i, js "page_" ++ num i ++ js ".pdf") <$> seq 1 k
    ∧ (Forall (λ p, ∃ saved, serialized [p] saved)
         (filter (λ p, page_id p ∈ selectedIds (state a)) (pages (state a))) →
       k = length (filter (λ p, page_id p ∈ selectedIds (state a)) (pages (state a)))).
Proof.
  intros Hsel.
  destruct (splitSelected_run a Hsel) as (k & new & -> & Hk & Hdocs & Hnames & Hend).
  unfold selectedPages in Hk, Hdocs, Hend.
  exists k, new. split; [done|]. split; [done|]. split; [done|]. split; [done|].
  intros Hall.
  destruct Hend as [(-> & _)|(_ & _ & (p & Hlook & Hbad) & _)]; [done|].
  rewrite Forall_forall in Hall. destruct Hbad.
  apply Hall. by eapply list_elem_of_lookup_2.
Qed.

Lemma split_names_are_positional_witness :
  ∃ k new,
    effects (splitSelected (C := toy) app_first_and_third)
    = effects app_first_and_third ++ new
    ∧ k ≤ length (filter (λ p, page_id p ∈ selectedIds (state app_first_and_third))
                    (pages (state app_first_and_third)))
    ∧ Forall2 (λ p d, serialized (C := toy) [p] d.1)
        (take k (filter (λ p, page_id p ∈ selectedIds (state app_first_and_third))
                   (pages (state app_first_and_third))))
        (downloads new)
    ∧ (downloads new).*2 = (λ i, js "page_" ++ num i ++ js ".pdf") <$> seq 1 k
    ∧ (Forall (λ p, ∃ saved, serialized (C := toy) [p] saved)
         (filter (λ p, page_id p ∈ selectedIds (state app_first_and_third))
            (pages (state app_first_and_third))) →
       k = length (filter (λ p, page_id p ∈ selectedIds (state app_first_and_third))
                     (pages (state app_first_and_third)))).
Proof.
  apply (split_names_are_positional (C := toy) app_first_and_third).
  vm_compute. discriminate.
Defined.

(** The first and the third of three pages are selected: two documents,
    named by their position in the run. *)
Example split_first_and_third :
  (downloads (effects (splitSelected (C := toy) app_first_and_third))).*2
  = [js "page_1.pdf"; js "page_2.pdf"].
Proof. vm_compute. reflexivity. Qed.

Example split_three_pages :
  (downloads (effects (splitSelected (C := toy) app_all_selected))).*2
  = [js "page_1.pdf"; js "page_2.pdf"; js "page_3.pdf"].
Proof. vm_compute. reflexivity. Qed.

(** ** Ingestion *)

Lemma ingested_refl a : ingested a a [] [].
Proof.
  unfold ingested. rewrite !app_nil_r. destruct a as [[] ? ? ? ? ?]. done.
Qed.

Lemma ingested_trans a a' a'' ps ps' es es' :
  ingested a a' ps es → ingested a' a'' ps' es' →
  ingested a a'' (ps ++ ps') (es ++ es').
Proof.
  intros (Hs & He & Hf & Ht) (Hs' & He' & Hf' & Ht').
  unfold ingested. rewrite Hs', He', Hf', Ht', He, Hf, Ht. simpl. rewrite Hs. simpl.
  by rewrite !app_assoc.
Qed.

Lemma mret_run {A} (x : A) (a : App) : (mret x : M A) a = (a, Ok x).
Proof. reflexivity. Qed.

Lemma await_run {A} (r : result A) (a : App) : await r a = (a, r).
Proof. reflexivity. Qed.

Lemma act_run (f : App → App) (a : App) : act f a = (f a, Ok tt).
Proof. reflexivity. Qed.

Section Ingestion.
Context `{C : Collaborators}.

Lemma countPages_loop files : ∀ n a,
  (Forall decodes files
   ∧ for_accum (λ totalPages file,
                  pdfDoc ← await (PDFDocument_load (arrayBuffer file));
                  mret (totalPages + getPageCount pdfDoc)) files n a
     = (a, Ok (n + batchPageCount files)))
  ∨ (¬ Forall decodes files
     ∧ ∃ e, for_accum (λ totalPages file,
                  pdfDoc ← await (PDFDocument_load (arrayBuffer file));
                  mret (totalPages + getPageCount pdfDoc)) files n a
            = (a, Throw e)).
Proof.
  induction files as [|f files IH]; intros n a.
  - left. split; [constructor|]. simpl. unfold ret. by rewrite Nat.add_0_r.
  - rewrite for_accum_cons, !bind_run, await_run.
    destruct (PDFDocument_load (arrayBuffer f)) as [doc|e] eqn:Hload.
    + rewrite mret_run.
      destruct (IH (n + getPageCount doc) a) as [[Hall ->]|[Hbad [e ->]]].
      * left. split; [constructor; [by exists doc|done]|].
        assert (batchPageCount (f :: files)
                = getPageCount doc + batchPageCount files) as ->.
        { unfold batchPageCount. simpl. unfold pageCountOf at 1. by rewrite Hload. }
        do 2 f_equal. lia.
      * right. split; [|by exists e]. intros Hall. apply Hbad.
        by apply Forall_cons in Hall as [_ ?].
    + right. split; [|by exists e]. intros Hall.
      apply Forall_cons in Hall as [[doc Hdoc] _]. congruence.
Qed.

Lemma countPages_run files a :
  (Forall decodes files ∧ countPages files a = (a, Ok (batchPageCount files)))
  ∨ (¬ Forall decodes files ∧ ∃ e, countPages files a = (a, Throw e)).
Proof. apply (countPages_loop files 0 a). Qed.
Lemma ingested_same a a' :
  state a' = state a → elements a' = elements a → effects a' = effects a →
  today a' = today a → ingested a a' [] [].
Proof.
  intros Hs He Hf Ht. unfold ingested. rewrite Hs, He, Hf, Ht, !app_nil_r.
  destruct a as [[] ? ? ? ? ?]. done.
Qed.

(** One page of the second pass. *)
Lemma processPage_run file (b : Uint8Array) (jsdoc : PDFJsDoc) total n i a :
  ∃ a' ps es r,
    processPage file b jsdoc total n i a = (a', r)
    ∧ ingested a a' ps es ∧ toasts es = [] ∧ length ps ≤ 1
    ∧ ((∃ t, generateThumbnail jsdoc (i + 1) = Ok t) →
       r = Ok (n + 1) ∧ length ps = 1).
Proof.
  unfold processPage. rewrite bind_run, act_run, bind_run, await_run.
  destruct (generateThumbnail jsdoc (i + 1)) as [t|e] eqn:Hthumb.
  - rewrite bind_run. unfold nextId at 1. rewrite bind_run, act_run, mret_run.
    eexists _, [_], [_], _. split; [reflexivity|].
    split; [split; [reflexivity|split; [reflexivity|split; reflexivity]]|].
    split; [reflexivity|]. split; [reflexivity|]. intros _. split; reflexivity.
  - eexists _, [], [_], _. split; [reflexivity|].
    split.
    { unfold ingested. simpl. rewrite app_nil_r. by destruct a as [[] ? ? ? ? ?]. }
    split; [reflexivity|]. split; [simpl; lia|]. intros [t [=]].
Qed.

(** The pages of one document. *)
Lemma processPages_run file (b : Uint8Array) (jsdoc : PDFJsDoc) total l : ∀ n a,
  ∃ a' ps es r,
    for_accum (processPage file b jsdoc total) l n a = (a', r)
    ∧ ingested a a' ps es ∧ toasts es = [] ∧ length ps ≤ length l
    ∧ (Forall (λ i, ∃ t, generateThumbnail jsdoc (i + 1) = Ok t) l →
       r = Ok (n + length l) ∧ length ps = length l).
Proof.
  induction l as [|i l IH]; intros n a.
  - exists a, [], [], (Ok n). split; [done|]. split; [apply ingested_refl|].
    split; [done|]. split; [done|]. intros _. by rewrite Nat.add_0_r.
  - rewrite for_accum_cons, bind_run.
    destruct (processPage_run file b jsdoc total n i a)
      as (a1 & ps1 & es1 & r1 & -> & Hin1 & Ht1 & Hlen1 & Hok1).
    destruct r1 as [n1|e].
    + destruct (IH n1 a1) as (a2 & ps2 & es2 & r2 & -> & Hin2 & Ht2 & Hlen2 & Hok2).
      exists a2, (ps1 ++ ps2), (es1 ++ es2), r2. split; [done|].
      split; [by eapply ingested_trans|].
      split; [by rewrite toasts_app, Ht1, Ht2|].
      split; [rewrite length_app; simpl; lia|].
      intros Hall. apply Forall_cons in Hall as [Hi Hl].
      destruct (Hok1 Hi) as [[= ->] Hl1]. destruct (Hok2 Hl) as [-> Hl2].
      split; [f_equal; simpl; lia|]. rewrite length_app. simpl. lia.
    + exists a1, ps1, es1, (Throw e). split; [done|]. split; [done|].
      split; [done|]. split; [simpl; lia|].
      intros Hall. apply Forall_cons in Hall as [Hi _].
      by destruct (Hok1 Hi) as [[=] _].
Qed.

(** One document of the second pass. *)
Lemma processFile_run total n f a :
  ∃ a' ps es r,
    processFile total n f a = (a', r)
    ∧ ingested a a' ps es ∧ toasts es = []
    ∧ (renders f →
       r = Ok (n + pageCountOf (arrayBuffer f))
       ∧ length ps = pageCountOf (arrayBuffer f)).
Proof.
  unfold processFile. rewrite bind_run. unfold slice at 1.
  set (a1 := set_heapNext (S (heapNext a)) a).
  rewrite bind_run, await_run. cbn [bytes].
  destruct (PDFDocument_load (arrayBuffer f)) as [doc|e] eqn:Hload.
  - rewrite bind_run. unfold slice at 1.
    set (a2 := set_heapNext (S (heapNext a1)) a1).
    rewrite bind_run, await_run. cbn [bytes].
    destruct (getDocument (arrayBuffer f)) as [jsdoc|e] eqn:Hjs.
    + destruct (processPages_run f {| addr := heapNext a; bytes := arrayBuffer f |}
                  jsdoc total (seq 0 (getPageCount doc)) n a2)
        as (a' & ps & es & r & -> & Hin & Ht & Hlen & Hok).
      exists a', ps, es, r. split; [done|].
      split; [|split; [done|]].
      * destruct Hin as (Hs & He & Hf & Hd). by repeat split.
      * intros (doc' & jsdoc' & Hload' & Hjs' & Hthumbs).
        assert (doc' = doc) as -> by congruence.
        assert (jsdoc' = jsdoc) as -> by congruence.
        unfold pageCountOf. rewrite Hload, length_seq in *.
        apply Hok. apply Forall_forall. intros i Hi.
        apply elem_of_seq in Hi. apply Hthumbs. lia.
    + exists a2, [], [], (Throw e). split; [done|].
      split; [by apply ingested_same|]. split; [done|].
      intros (doc' & jsdoc' & _ & Hjs' & _). congruence.
  - exists a1, [], [], (Throw e). split; [done|].
    split; [by apply ingested_same|]. split; [done|].
    intros (doc' & jsdoc' & Hload' & _). congruence.
Qed.

(** The second pass. *)
Lemma processFiles_loop total files : ∀ n a,
  ∃ a' ps es r,
    for_accum (processFile total) files n a = (a', r)
    ∧ ingested a a' ps es ∧ toasts es = []
    ∧ (Forall renders files →
       r = Ok (n + batchPageCount files) ∧ length ps = batchPageCount files).
Proof.
  induction files as [|f files IH]; intros n a.
  - exists a, [], [], (Ok n). split; [done|]. split; [apply ingested_refl|].
    split; [done|]. intros _. unfold batchPageCount. simpl. by rewrite Nat.add_0_r.
  - rewrite for_accum_cons, bind_run.
    destruct (processFile_run total n f a)
      as (a1 & ps1 & es1 & r1 & -> & Hin1 & Ht1 & Hok1).
    assert (batchPageCount (f :: files)
            = pageCountOf (arrayBuffer f) + batchPageCount files) as Hsum by done.
    destruct r1 as [n1|e].
    + destruct (IH n1 a1) as (a2 & ps2 & es2 & r2 & -> & Hin2 & Ht2 & Hok2).
      exists a2, (ps1 ++ ps2), (es1 ++ es2), r2. split; [done|].
      split; [by eapply ingested_trans|].
      split; [by rewrite toasts_app, Ht1, Ht2|].
      intros Hall. apply Forall_cons in Hall as [Hf Hfs].
      destruct (Hok1 Hf) as [[= ->] Hl1]. destruct (Hok2 Hfs) as [-> Hl2].
      rewrite Hsum, length_app. split; [f_equal|]; lia.
    + exists a1, ps1, es1, (Throw e). split; [done|]. split; [done|].
      split; [done|].
      intros Hall. apply Forall_cons in Hall as [Hf _].
      by destruct (Hok1 Hf) as [[=] _].
Qed.
(** A whole run of [processFiles] started with the flag down. *)
Lemma processFiles_run files a :
  isProcessing (state a) = false →
  ∃ ps new,
    state (processFiles files a) = state (set_pages (pages (state a) ++ ps) a)
    ∧ effects (processFiles files a) = effects a ++ new
    ∧ (pageGrid (elements (processFiles files a)) = pageGrid (elements a)
       ∨ pageGrid (elements (processFiles files a))
         = page_id <$> pages (state (processFiles files a)))
    ∧ (Forall renders files →
       length ps = batchPageCount files ∧ ∃ m, toasts new = [(m, success)])
    ∧ (¬ Forall decodes files →
       ps = [] ∧ ∃ m, toasts new = [(js "Error processing PDF: " ++ m, error)]).
Proof.
  intros Hflag. unfold processFiles, processFiles_begin. rewrite Hflag.
  set (a1 := showLoading (js "Loading PDF files...") (set_isProcessing true a)).
  assert (∀ a' ps, state a' = state (set_pages (pages (state a1) ++ ps) a1) →
          state (set_isProcessing false a')
          = state (set_pages (pages (state a) ++ ps) a)) as Hstate.
  { intros a' ps Hs. simpl. rewrite Hs. simpl.
    destruct a as [[] ? ? ? ? ?]. simpl in *. by subst. }
  unfold try_catch_finally, processFiles_try. rewrite bind_run.
  destruct (countPages_run files a1) as [[Hdec ->]|[Hbad [e ->]]].
  - rewrite bind_run.
    destruct (processFiles_loop (batchPageCount files) files 0 a1)
      as (a2 & ps & es & r & -> & (Hs & He & Hf & Hd) & Ht & Hok).
    destruct r as [n|e].
    + rewrite !bind_run, !act_run.
      exists ps, ([ShowLoading (js "Loading PDF files...")] ++ es
                  ++ [HideLoading;
                      ShowToast (js "Added " ++ num n ++ js " pages from "
                                 ++ num (length files) ++ js " file(s)") success]).
      split; [by apply Hstate|].
      split; [simpl; rewrite Hf; simpl; by rewrite <- !app_assoc|].
      split; [by right|].
      split.
      * intros Hall. destruct (Hok Hall) as [_ Hlen]. split; [done|].
        eexists. rewrite !toasts_app, Ht. reflexivity.
      * intros Hnot. by destruct Hnot.
    + exists ps, ([ShowLoading (js "Loading PDF files...")] ++ es
                  ++ [ConsoleError (js "Error processing PDF:") e; HideLoading;
                      ShowToast (js "Error processing PDF: " ++ e) error]).
      split; [by apply Hstate|].
      split; [simpl; rewrite Hf; simpl; by rewrite <- !app_assoc|].
      split; [left; simpl; by rewrite He|].
      split.
      * intros Hall. by destruct (Hok Hall) as [[=] _].
      * intros Hnot. by destruct Hnot.
  - exists [], [ShowLoading (js "Loading PDF files...");
                ConsoleError (js "Error processing PDF:") e; HideLoading;
                ShowToast (js "Error processing PDF: " ++ e) error].
    split; [apply Hstate; simpl; by rewrite app_nil_r|].
    split; [simpl; by rewrite <- !app_assoc|].
    split; [by left|].
    split.
    + intros Hall. destruct Hbad.
      eapply Forall_impl; [exact Hall|]. intros f (doc & jsdoc & Hload & _).
      by exists doc.
    + intros _. split; [done|]. by exists e.
Qed.
End Ingestion.

(** ** Ingestion, page by page *)

Section IngestionDetail.
Context `{C : Collaborators}.

Lemma appended_refl a : appended a a [] [].
Proof.
  split; [apply ingested_refl|]. split; [simpl; lia|]. done.
Qed.

Lemma appended_trans a a' a'' ps ps' es es' :
  appended a a' ps es → appended a' a'' ps' es' →
  appended a a'' (ps ++ ps') (es ++ es').
Proof.
  intros (Hin & Hcalls & Hids & Ht) (Hin' & Hcalls' & Hids' & Ht').
  split; [by eapply ingested_trans|]. split; [rewrite length_app; lia|].
  split; [|by rewrite toasts_app, Ht, Ht'].
  rewrite fmap_app, Hids, Hids', Hcalls, length_app, seq_app, fmap_app. done.
Qed.

Lemma appended_pages a a' ps es :
  appended a a' ps es → pages (state a') = pages (state a) ++ ps.
Proof. intros ((Hs & _) & _). by rewrite Hs. Qed.

(** One page of the second pass. *)
Lemma processPage_detail file (b : Uint8Array) (jsdoc : PDFJsDoc) total n i a :
  ∃ a' ps es r,
    processPage file b jsdoc total n i a = (a', r)
    ∧ appended a a' ps es ∧ heapNext a' = heapNext a
    ∧ progressUpdates es = [progressText total (S n)]
    ∧ ((∃ t, generateThumbnail jsdoc (i + 1) = Ok t ∧ r = Ok (S n)
             ∧ ps = [ {| page_id := generateId (idCalls a); sourceFile := name file;
                         pageIndex := i; originalPageNumber := i + 1;
                         pdfBytes := b; thumbnail := t; rotation := 0 |} ])
       ∨ (∃ e, generateThumbnail jsdoc (i + 1) = Throw e ∧ r = Throw e ∧ ps = [])).
Proof.
  unfold processPage. rewrite (Nat.add_1_r n).
  rewrite bind_run, act_run, bind_run, await_run.
  destruct (generateThumbnail jsdoc (i + 1)) as [t|e] eqn:Hthumb.
  - rewrite bind_run. unfold nextId at 1. rewrite bind_run, act_run, mret_run.
    eexists _, [_], [_], _. split; [reflexivity|].
    split.
    { split; [split; [reflexivity|split; [reflexivity|split; reflexivity]]|].
      split; [simpl; lia|]. split; reflexivity. }
    split; [reflexivity|]. split; [reflexivity|].
    left. exists t. done.
  - eexists _, [], [_], _. split; [reflexivity|].
    split.
    { split.
      { unfold ingested. simpl. rewrite app_nil_r. by destruct a as [[] ? ? ? ? ?]. }
      split; [simpl; lia|]. split; reflexivity. }
    split; [reflexivity|]. split; [reflexivity|].
    right. exists e. done.
Qed.

(** The pages of one document. *)
Lemma processPages_detail file (b : Uint8Array) (jsdoc : PDFJsDoc) total l : ∀ n a,
  ∃ a' ps es r,
    for_accum (processPage file b jsdoc total) l n a = (a', r)
    ∧ appended a a' ps es ∧ heapNext a' = heapNext a
    ∧ Forall (λ p, pdfBytes p = b ∧ sourceFile p = name file ∧ rotation p = 0
                   ∧ originalPageNumber p = pageIndex p + 1) ps
    ∧ pageIndex <$> ps = take (length ps) l
    ∧ (Forall (λ i, ∃ t, generateThumbnail jsdoc (i + 1) = Ok t) l →
       r = Ok (n + length l))
    ∧ (∀ n', r = Ok n' →
       n' = n + length l ∧ length ps = length l
       ∧ progressUpdates es = progressText total <$> seq (S n) (length l)).
Proof.
  induction l as [|i l IH]; intros n a.
  - exists a, [], [], (Ok n). split; [done|]. split; [apply appended_refl|].
    split; [done|]. split; [done|]. split; [done|].
    split; [intros _; by rewrite Nat.add_0_r|].
    intros n' [= <-]. by rewrite Nat.add_0_r.
  - rewrite for_accum_cons, bind_run.
    destruct (processPage_detail file b jsdoc total n i a)
      as (a1 & ps1 & es1 & r1 & -> & Happ1 & Hheap1 & Hprog1 & Hcase).
    destruct Hcase as [(t & Hthumb & -> & ->)|(e & Hthumb & -> & ->)].
    + destruct (IH (S n) a1)
        as (a2 & ps2 & es2 & r2 & -> & Happ2 & Hheap2 & Hall2 & Hidx2 & Hok2 & Hres2).
      eexists a2, (_ :: ps2), (es1 ++ es2), r2. split; [done|].
      split; [by apply (appended_trans _ _ _ [_] _ _ _ Happ1 Happ2)|].
      split; [congruence|].
      split; [by constructor|].
      split; [rewrite fmap_cons, Hidx2; reflexivity|].
      split.
      * intros Hall. apply Forall_cons in Hall as [_ Hl].
        rewrite (Hok2 Hl). f_equal. simpl. lia.
      * intros n' Hr. destruct (Hres2 n' Hr) as (-> & Hlen & Hprog).
        split; [simpl; lia|]. split; [simpl; lia|].
        rewrite progressUpdates_app, Hprog1, Hprog. done.
    + exists a1, [], es1, (Throw e). split; [done|]. split; [done|].
      split; [done|]. split; [done|]. split; [done|].
      split; [|by intros n' [=]].
      intros Hall. apply Forall_cons in Hall as [[t Ht] _]. congruence.
Qed.
Lemma appended_same a a' :
  state a' = state a → elements a' = elements a → effects a' = effects a →
  today a' = today a → idCalls a' = idCalls a → appended a a' [] [].
Proof.
  intros Hs He Hf Ht Hc. split; [by apply ingested_same|].
  split; [simpl; lia|]. done.
Qed.

Lemma pages_of_one_source (b : Uint8Array) (nm : jsstring) ps :
  Forall (λ p, pdfBytes p = b ∧ sourceFile p = nm ∧ rotation p = 0
               ∧ originalPageNumber p = pageIndex p + 1) ps →
  (λ p, (sourceFile p, pageIndex p, pdfBytes p)) <$> ps
  = (λ i, (nm, i, b)) <$> (pageIndex <$> ps).
Proof.
  induction 1 as [|p ps (Hb & Hn & _) _ IH]; [done|].
  rewrite !fmap_cons, IH, Hb, Hn. done.
Qed.

(** One document of the second pass. *)
Lemma processFile_detail total n f a :
  ∃ a' ps es r,
    processFile total n f a = (a', r)
    ∧ appended a a' ps es
    ∧ heapNext a < heapNext a' ≤ heapNext a + 2
    ∧ Forall (page_of_file f (heapNext a)) ps
    ∧ (renders f → r = Ok (n + pageCountOf (arrayBuffer f)))
    ∧ (∀ n', r = Ok n' →
       n' = n + pageCountOf (arrayBuffer f)
       ∧ heapNext a' = heapNext a + 2
       ∧ (λ p, (sourceFile p, pageIndex p, pdfBytes p)) <$> ps
         = (λ i, (name f, i, {| addr := heapNext a; bytes := arrayBuffer f |}))
             <$> seq 0 (pageCountOf (arrayBuffer f))
       ∧ progressUpdates es
         = progressText total <$> seq (S n) (pageCountOf (arrayBuffer f))).
Proof.
  unfold processFile. rewrite bind_run. unfold slice at 1.
  set (a1 := set_heapNext (S (heapNext a)) a).
  rewrite bind_run, await_run. cbn [bytes].
  destruct (PDFDocument_load (arrayBuffer f)) as [doc|e] eqn:Hload.
  - rewrite bind_run. unfold slice at 1.
    set (a2 := set_heapNext (S (heapNext a1)) a1).
    rewrite bind_run, await_run. cbn [bytes].
    assert (pageCountOf (arrayBuffer f) = getPageCount doc) as Hcount
      by (unfold pageCountOf; by rewrite Hload).
    destruct (getDocument (arrayBuffer f)) as [jsdoc|e] eqn:Hjs.
    + destruct (processPages_detail f {| addr := heapNext a; bytes := arrayBuffer f |}
                  jsdoc total (seq 0 (getPageCount doc)) n a2)
        as (a' & ps & es & r & -> & Happ & Hheap & Hall & Hidx & Hok & Hres).
      exists a', ps, es, r. split; [done|].
      split.
      { apply (appended_trans a a2 a' [] ps [] es); [by apply appended_same|done]. }
      split; [rewrite Hheap; simpl; lia|].
      split.
      { apply Forall_forall. intros p Hp.
        rewrite Forall_forall in Hall. destruct (Hall p Hp) as (Hb & Hn & Hr & Ho).
        repeat split; try done; [|by exists doc].
        rewrite Hcount.
        assert (pageIndex p ∈ take (length ps) (seq 0 (getPageCount doc))) as Hin
          by (rewrite <- Hidx; by apply list_elem_of_fmap_2).
        eapply elem_of_sublist in Hin; [|apply sublist_take].
        apply elem_of_seq in Hin. lia. }
      split.
      { intros (doc' & jsdoc' & Hload' & Hjs' & Hthumbs).
        assert (doc' = doc) as -> by congruence.
        assert (jsdoc' = jsdoc) as -> by congruence.
        rewrite Hcount. rewrite <- (length_seq (getPageCount doc) 0).
        apply Hok. apply Forall_forall. intros i Hi.
        apply elem_of_seq in Hi. apply Hthumbs. lia. }
      intros n' Hr. destruct (Hres n' Hr) as (-> & Hlen & Hprog).
      rewrite length_seq in *. rewrite Hcount.
      split; [done|]. split; [rewrite Hheap; simpl; lia|]. split; [|done].
      rewrite (pages_of_one_source _ _ _ Hall), Hidx, Hlen.
      rewrite take_ge by (rewrite length_seq; lia). done.
    + exists a2, [], [], (Throw e). split; [done|].
      split; [by apply appended_same|]. split; [simpl; lia|]. split; [done|].
      split; [|by intros n' [=]].
      intros (doc' & jsdoc' & _ & Hjs' & _). congruence.
  - exists a1, [], [], (Throw e). split; [done|].
    split; [by apply appended_same|]. split; [simpl; lia|]. split; [done|].
    split; [|by intros n' [=]].
    intros (doc' & jsdoc' & Hload' & _). congruence.
Qed.

(** The second pass over a batch. *)
Lemma processBatch_detail total files : ∀ n a,
  ∃ a' ps es r,
    for_accum (processFile total) files n a = (a', r)
    ∧ appended a a' ps es
    ∧ heapNext a ≤ heapNext a'
    ∧ Forall (λ p, ∃ f h, f ∈ files ∧ heapNext a ≤ h < heapNext a'
                          ∧ page_of_file f h p) ps
    ∧ sources_coherent ps
    ∧ (Forall renders files → r = Ok (n + batchPageCount files))
    ∧ (∀ n', r = Ok n' →
       n' = n + batchPageCount files
       ∧ (λ p, (sourceFile p, pageIndex p, pdfBytes p)) <$> ps
         = batchLayout files (heapNext a)
       ∧ progressUpdates es = progressText total <$> seq (S n) (batchPageCount files)).
Proof.
  induction files as [|f files IH]; intros n a.
  - exists a, [], [], (Ok n). split; [done|]. split; [apply appended_refl|].
    split; [done|]. split; [done|].
    split; [intros p q Hp; by apply elem_of_nil in Hp|].
    unfold batchPageCount. simpl. rewrite Nat.add_0_r. split; [done|].
    by intros n' [= <-].
  - rewrite for_accum_cons, bind_run.
    destruct (processFile_detail total n f a)
      as (a1 & ps1 & es1 & r1 & -> & Happ1 & Hheap1 & Hall1 & Hok1 & Hres1).
    assert (batchPageCount (f :: files)
            = pageCountOf (arrayBuffer f) + batchPageCount files) as Hsum by done.
    destruct r1 as [n1|e].
    + destruct (IH n1 a1)
        as (a2 & ps2 & es2 & r2 & -> & Happ2 & Hheap2 & Hall2 & Hcoh2 & Hok2 & Hres2).
      destruct (Hres1 n1 eq_refl) as (-> & Hheap1' & Hlay1 & Hprog1).
      exists a2, (ps1 ++ ps2), (es1 ++ es2), r2. split; [done|].
      split; [by eapply appended_trans|]. split; [lia|].
      split.
      { apply Forall_app. split.
        - eapply Forall_impl; [exact Hall1|]. intros p Hp.
          exists f, (heapNext a). split; [by left|]. split; [lia|done].
        - eapply Forall_impl; [exact Hall2|]. intros p (f' & h & Hf' & Hh & Hp).
          exists f', h. split; [by right|]. split; [lia|done]. }
      split.
      { assert (∀ p q, p ∈ ps1 → q ∈ ps2 →
                addr (pdfBytes p) ≠ addr (pdfBytes q)) as Hapart.
        { intros p q Hp Hq. rewrite Forall_forall in Hall1, Hall2.
          destruct (Hall1 p Hp) as (-> & _).
          destruct (Hall2 q Hq) as (f' & h & _ & Hh & -> & _). simpl. lia. }
        intros p q Hp Hq Haddr.
        apply elem_of_app in Hp as [Hp|Hp]; apply elem_of_app in Hq as [Hq|Hq].
        - rewrite Forall_forall in Hall1.
          destruct (Hall1 p Hp) as (Hbp & Hnp & _).
          destruct (Hall1 q Hq) as (Hbq & Hnq & _).
          unfold source. by rewrite Hbp, Hnp, Hbq, Hnq.
        - by destruct (Hapart p q Hp Hq).
        - by destruct (Hapart q p Hq Hp).
        - by apply Hcoh2. }
      split.
      { intros Hall. apply Forall_cons in Hall as [_ Hfs].
        rewrite (Hok2 Hfs), Hsum. f_equal. lia. }
      intros n' Hr. destruct (Hres2 n' Hr) as (-> & Hlay2 & Hprog2).
      rewrite Hsum. split; [lia|]. split.
      * rewrite fmap_app, Hlay1, Hlay2, Hheap1'. done.
      * rewrite progressUpdates_app, Hprog1, Hprog2, seq_app, fmap_app.
        do 3 f_equal; lia.
    + exists a1, ps1, es1, (Throw e). split; [done|]. split; [done|].
      split; [lia|].
      split.
      { eapply Forall_impl; [exact Hall1|]. intros p Hp.
        exists f, (heapNext a). split; [by left|]. split; [lia|done]. }
      split.
      { intros p q Hp Hq _. rewrite Forall_forall in Hall1.
        destruct (Hall1 p Hp) as (Hbp & Hnp & _).
        destruct (Hall1 q Hq) as (Hbq & Hnq & _).
        unfold source. by rewrite Hbp, Hnp, Hbq, Hnq. }
      split; [|by intros n' [=]].
      intros Hall. apply Forall_cons in Hall as [Hf _]. by specialize (Hok1 Hf).
Qed.
(** A whole run of [processFiles] started with the flag down, in detail. *)
Lemma processFiles_detail files a :
  isProcessing (state a) = false →
  ∃ ps new,
    state (processFiles files a) = state (set_pages (pages (state a) ++ ps) a)
    ∧ effects (processFiles files a) = effects a ++ new
    ∧ idCalls (processFiles files a) = idCalls a + length ps
    ∧ heapNext a ≤ heapNext (processFiles files a)
    ∧ page_id <$> ps = generateId <$> seq (idCalls a) (length ps)
    ∧ Forall (λ p, ∃ f h, f ∈ files
                          ∧ heapNext a ≤ h < heapNext (processFiles files a)
                          ∧ page_of_file f h p) ps
    ∧ sources_coherent ps
    ∧ (pageGrid (elements (processFiles files a)) = pageGrid (elements a)
       ∨ pageGrid (elements (processFiles files a))
         = page_id <$> pages (state (processFiles files a)))
    ∧ (Forall renders files →
       (λ p, (sourceFile p, pageIndex p, pdfBytes p)) <$> ps
       = batchLayout files (heapNext a)
       ∧ toasts new
         = [(js "Added " ++ num (length ps) ++ js " pages from "
             ++ num (length files) ++ js " file(s)", success)]
       ∧ progressUpdates new
         = progressText (batchPageCount files) <$> seq 1 (batchPageCount files)
       ∧ length ps = batchPageCount files
       ∧ pageGrid (elements (processFiles files a))
         = page_id <$> pages (state (processFiles files a))).
Proof.
  intros Hflag. unfold processFiles, processFiles_begin. rewrite Hflag.
  set (a1 := showLoading (js "Loading PDF files...") (set_isProcessing true a)).
  assert (∀ a' ps, state a' = state (set_pages (pages (state a1) ++ ps) a1) →
          state (set_isProcessing false a')
          = state (set_pages (pages (state a) ++ ps) a)) as Hstate.
  { intros a' ps Hs. simpl. rewrite Hs. simpl.
    destruct a as [[] ? ? ? ? ?]. simpl in *. by subst. }
  unfold try_catch_finally, processFiles_try. rewrite bind_run.
  destruct (countPages_run files a1) as [[Hdec ->]|[Hbad [e ->]]].
  - rewrite bind_run.
    destruct (processBatch_detail (batchPageCount files) files 0 a1)
      as (a2 & ps & es & r & -> & ((Hs & He & Hf & Hd) & Hcalls & Hids & Ht)
          & Hheap & Hall & Hcoh & Hok & Hres).
    destruct r as [n|e].
    + rewrite !bind_run, !act_run.
      destruct (Hres n eq_refl) as (-> & Hlay & Hprog). simpl in Hprog.
      assert (length ps = batchPageCount files) as Hlen.
      { apply (f_equal length) in Hlay. rewrite length_fmap in Hlay. rewrite Hlay.
        clear. generalize (heapNext a1). unfold batchPageCount.
        induction files as [|f fs IH]; intros h; [done|].
        simpl. rewrite length_app, length_fmap, length_seq, IH. done. }
      exists ps, ([ShowLoading (js "Loading PDF files...")] ++ es
                  ++ [HideLoading;
                      ShowToast (js "Added " ++ num (batchPageCount files)
                                 ++ js " pages from "
                                 ++ num (length files) ++ js " file(s)") success]).
      split; [by apply Hstate|].
      split; [simpl; rewrite Hf; simpl; by rewrite <- !app_assoc|].
      split; [done|]. split; [done|]. split; [done|]. split; [done|].
      split; [done|]. split; [by right|].
      intros _. split; [done|].
      split; [rewrite !toasts_app, Ht, Hlen; reflexivity|].
      split; [|done].
      rewrite !progressUpdates_app, Hprog. simpl. by rewrite app_nil_r.
    + exists ps, ([ShowLoading (js "Loading PDF files...")] ++ es
                  ++ [ConsoleError (js "Error processing PDF:") e; HideLoading;
                      ShowToast (js "Error processing PDF: " ++ e) error]).
      split; [by apply Hstate|].
      split; [simpl; rewrite Hf; simpl; by rewrite <- !app_assoc|].
      split; [done|]. split; [done|]. split; [done|]. split; [done|].
      split; [done|]. split; [left; simpl; by rewrite He|].
      intros Hrenders. by specialize (Hok Hrenders).
  - exists [], [ShowLoading (js "Loading PDF files...");
                ConsoleError (js "Error processing PDF:") e; HideLoading;
                ShowToast (js "Error processing PDF: " ++ e) error].
    split; [apply Hstate; simpl; by rewrite app_nil_r|].
    split; [simpl; by rewrite <- !app_assoc|].
    split; [simpl; lia|]. split; [done|]. split; [done|]. split; [done|].
    split; [intros p q Hp; by apply elem_of_nil in Hp|]. split; [by left|].
    intros Hrenders. destruct Hbad.
    eapply Forall_impl; [exact Hrenders|]. intros f (doc & jsdoc & Hload & _).
    by exists doc.
Qed.
End IngestionDetail.

(** ** Ingestion, what a failure of the renderer keeps *)

Section IngestionKept.
Context `{C : Collaborators}.

Lemma thumbnailsBeforeFailure_le jsdoc l : thumbnailsBeforeFailure jsdoc l ≤ length l.
Proof.
  induction l as [|i l IH]; [done|]. simpl.
  destruct (generateThumbnail jsdoc (i + 1)); lia.
Qed.

Lemma thumbnailsBeforeFailure_all jsdoc l :
  thumbnailsBeforeFailure jsdoc l = length l
  ↔ Forall (λ i, ∃ t, generateThumbnail jsdoc (i + 1) = Ok t) l.
Proof.
  induction l as [|i l IH]; [done|]. simpl. rewrite Forall_cons, <- IH.
  destruct (generateThumbnail jsdoc (i + 1)) as [t|e]; split.
  - intros [= H]. split; [by exists t|done].
  - intros [_ H]. by rewrite H.
  - done.
  - by intros [[t [=]] _].
Qed.

Lemma fully_rendered_renders f : fully_rendered f = true ↔ renders f.
Proof.
  unfold fully_rendered, renders.
  destruct (PDFDocument_load (arrayBuffer f)) as [doc|e];
    [|split; [done|by intros (? & ? & [=] & _)]].
  destruct (getDocument (arrayBuffer f)) as [jsdoc|e];
    [|split; [done|by intros (? & ? & _ & [=] & _)]].
  rewrite Nat.eqb_eq. rewrite <- (length_seq (getPageCount doc) 0) at 2.
  rewrite thumbnailsBeforeFailure_all, Forall_forall. split.
  - intros Hall. exists doc, jsdoc. split; [done|]. split; [done|].
    intros i Hi. apply Hall, elem_of_seq. lia.
  - intros (doc' & jsdoc' & [= <-] & [= <-] & Hall) i Hi.
    apply Hall. apply elem_of_seq in Hi. lia.
Qed.

Lemma renderedOf_le f : renderedOf f ≤ pageCountOf (arrayBuffer f).
Proof.
  unfold renderedOf, pageCountOf.
  destruct (PDFDocument_load (arrayBuffer f)) as [doc|e]; [|done].
  destruct (getDocument (arrayBuffer f)) as [jsdoc|e]; [|lia].
  etrans; [apply thumbnailsBeforeFailure_le|]. by rewrite length_seq.
Qed.

Lemma renderedOf_full f :
  fully_rendered f = true → renderedOf f = pageCountOf (arrayBuffer f).
Proof.
  unfold fully_rendered, renderedOf, pageCountOf.
  destruct (PDFDocument_load (arrayBuffer f)) as [doc|e]; [|done].
  destruct (getDocument (arrayBuffer f)) as [jsdoc|e]; [|done].
  by intros H%Nat.eqb_eq.
Qed.

Lemma batchLayout_length files : ∀ h,
  length (batchLayout files h) = batchPageCount files.
Proof.
  unfold batchPageCount. induction files as [|f fs IH]; intros h; [done|].
  simpl. by rewrite length_app, length_fmap, length_seq, IH.
Qed.

Lemma renderedBeforeFailure_le files :
  renderedBeforeFailure files ≤ batchPageCount files.
Proof.
  induction files as [|f fs IH]; [done|].
  change (batchPageCount (f :: fs))
    with (pageCountOf (arrayBuffer f) + batchPageCount fs).
  cbn [renderedBeforeFailure].
  destruct (fully_rendered f); [lia|]. pose proof (renderedOf_le f). lia.
Qed.

(** The pages of one document: how many are kept. *)
Lemma processPages_kept file (b : Uint8Array) (jsdoc : PDFJsDoc) total l :
  ∀ n a a' r,
    for_accum (processPage file b jsdoc total) l n a = (a', r) →
    length (pages (state a'))
    = length (pages (state a)) + thumbnailsBeforeFailure jsdoc l
    ∧ ((∃ n', r = Ok n') ↔ thumbnailsBeforeFailure jsdoc l = length l).
Proof.
  induction l as [|i l IH]; intros n a a' r Hrun.
  - injection Hrun as <- <-. simpl. split; [lia|]. split; [done|by exists n].
  - rewrite for_accum_cons, bind_run in Hrun.
    destruct (processPage_detail file b jsdoc total n i a)
      as (a1 & ps1 & es1 & r1 & E & Happ1 & _ & _ & Hcase).
    rewrite E in Hrun. apply appended_pages in Happ1.
    destruct Hcase as [(t & Hthumb & -> & ->)|(e & Hthumb & -> & ->)].
    + destruct (IH _ _ _ _ Hrun) as [Hlen Hiff].
      simpl. rewrite Hthumb. rewrite Hlen, Happ1, length_app. simpl.
      split; [lia|]. rewrite Hiff. split; [by intros ->|by intros [=]].
    + injection Hrun as <- <-. simpl. rewrite Hthumb, Happ1, app_nil_r.
      split; [lia|]. split; [by intros [n' [=]]|done].
Qed.

(** One document of the second pass: which pages are kept. *)
Lemma processFile_kept total n f a :
  decodes f →
  ∃ a' ps r,
    processFile total n f a = (a', r)
    ∧ pages (state a') = pages (state a) ++ ps
    ∧ (λ p, (sourceFile p, pageIndex p, pdfBytes p)) <$> ps
      = take (renderedOf f)
          ((λ i, (name f, i, {| addr := heapNext a; bytes := arrayBuffer f |}))
             <$> seq 0 (pageCountOf (arrayBuffer f)))
    ∧ ((∃ n', r = Ok n') ↔ fully_rendered f = true)
    ∧ (∀ n', r = Ok n' → heapNext a' = heapNext a + 2).
Proof.
  intros [doc Hload]. unfold processFile. rewrite bind_run. unfold slice at 1.
  set (a1 := set_heapNext (S (heapNext a)) a).
  rewrite bind_run, await_run. cbn [bytes]. rewrite Hload.
  rewrite bind_run. unfold slice at 1.
  set (a2 := set_heapNext (S (heapNext a1)) a1).
  rewrite bind_run, await_run. cbn [bytes].
  unfold renderedOf, fully_rendered, pageCountOf. rewrite Hload.
  destruct (getDocument (arrayBuffer f)) as [jsdoc|e] eqn:Hjs.
  - destruct (processPages_detail f {| addr := heapNext a; bytes := arrayBuffer f |}
                jsdoc total (seq 0 (getPageCount doc)) n a2)
      as (a' & ps & es & r & E & Happ & Hheap & Hall & Hidx & _ & _).
    destruct (processPages_kept _ _ _ _ _ _ _ _ _ E) as [Hlen Hiff].
    apply appended_pages in Happ.
    change (pages (state a2)) with (pages (state a)) in Happ, Hlen.
    rewrite Happ, length_app in Hlen.
    exists a', ps, r. split; [done|]. split; [done|].
    split; [|split].
    + rewrite (pages_of_one_source _ _ _ Hall), Hidx, fmap_take. f_equal. lia.
    + rewrite Hiff, length_seq. symmetry. apply Nat.eqb_eq.
    + intros _ _. rewrite Hheap. simpl. lia.
  - exists a2, [], (Throw e). split; [done|].
    split; [by rewrite app_nil_r|]. split; [done|].
    split; [|by intros n' [=]]. split; [by intros [n' [=]]|done].
Qed.

(** The second pass over a batch: which pages are kept. *)
Lemma processBatch_kept total files : ∀ n a,
  Forall decodes files →
  ∃ a' ps r,
    for_accum (processFile total) files n a = (a', r)
    ∧ pages (state a') = pages (state a) ++ ps
    ∧ (λ p, (sourceFile p, pageIndex p, pdfBytes p)) <$> ps
      = take (renderedBeforeFailure files) (batchLayout files (heapNext a))
    ∧ ((∃ n', r = Ok n') ↔ Forall renders files).
Proof.
  induction files as [|f files IH]; intros n a Hdec.
  - exists a, [], (Ok n). split; [done|]. split; [by rewrite app_nil_r|].
    split; [done|]. split; [done|by exists n].
  - apply Forall_cons in Hdec as [Hf Hfs].
    rewrite for_accum_cons, bind_run.
    destruct (processFile_kept total n f a Hf)
      as (a1 & ps1 & r1 & -> & Hp1 & Hlay1 & Hiff1 & Hheap1).
    pose proof (renderedOf_le f) as Hle.
    destruct r1 as [n1|e].
    + assert (fully_rendered f = true) as Hfull by (apply Hiff1; by exists n1).
      destruct (IH n1 a1 Hfs) as (a2 & ps2 & r2 & -> & Hp2 & Hlay2 & Hiff2).
      exists a2, (ps1 ++ ps2), r2. split; [done|].
      split; [by rewrite Hp2, Hp1, app_assoc|].
      split.
      * simpl. rewrite Hfull, fmap_app, Hlay1, Hlay2, (Hheap1 n1 eq_refl).
        rewrite (renderedOf_full f Hfull).
        rewrite take_ge by (rewrite length_fmap, length_seq; lia).
        rewrite take_app_add'; [done|]. by rewrite length_fmap, length_seq.
      * rewrite Forall_cons, <- Hiff2, <- fully_rendered_renders. by split; [|intros [_ ?]].
    + assert (fully_rendered f = false) as Hnot.
      { destruct Hiff1 as [_ Hback]. destruct (fully_rendered f); [|done].
        by destruct (Hback eq_refl) as [n' [=]]. }
      exists a1, ps1, (Throw e). split; [done|]. split; [done|].
      split.
      * simpl. rewrite Hnot, Hlay1.
        rewrite take_app_le; [done|]. by rewrite length_fmap, length_seq.
      * split; [by intros [n' [=]]|].
        intros [Hr _]%Forall_cons. apply fully_rendered_renders in Hr. congruence.
Qed.

(** A whole run of [processFiles] on a batch that decodes: what is kept. *)
Lemma processFiles_kept files a ps new :
  isProcessing (state a) = false →
  Forall decodes files →
  pages (state (processFiles files a)) = pages (state a) ++ ps →
  effects (processFiles files a) = effects a ++ new →
  (λ p, (sourceFile p, pageIndex p, pdfBytes p)) <$> ps
  = take (renderedBeforeFailure files) (batchLayout files (heapNext a))
  ∧ (¬ Forall renders files →
     ∃ m, toasts new = [(js "Error processing PDF: " ++ m, error)]).
Proof.
  intros Hflag Hdec. unfold processFiles, processFiles_begin. rewrite Hflag.
  set (a1 := showLoading (js "Loading PDF files...") (set_isProcessing true a)).
  unfold try_catch_finally, processFiles_try. rewrite bind_run.
  destruct (countPages_run files a1) as [[_ ->]|[Hbad _]]; [|done].
  rewrite bind_run.
  destruct (processBatch_kept (batchPageCount files) files 0 a1 Hdec)
    as (a2 & ps' & r & E & Hp & Hlay & Hiff).
  destruct (processBatch_detail (batchPageCount files) files 0 a1)
    as (a2' & ps'' & es & r' & E' & ((_ & _ & Hf & _) & _ & _ & Ht) & _).
  rewrite E in E'. injection E' as <- <-. rewrite E.
  change (pages (state a1)) with (pages (state a)) in Hp.
  change (heapNext a1) with (heapNext a) in Hlay.
  change (effects a1) with (effects a ++ [ShowLoading (js "Loading PDF files...")]) in Hf.
  destruct r as [n|e].
  - rewrite !bind_run, !act_run. intros Hps Hnew.
    change (pages (state a2) = pages (state a) ++ ps) in Hps.
    rewrite Hp in Hps. apply app_inv_head in Hps as <-.
    split; [done|]. intros Hnot. destruct Hnot. apply Hiff. by exists n.
  - intros Hps Hnew.
    change (pages (state a2) = pages (state a) ++ ps) in Hps.
    rewrite Hp in Hps. apply app_inv_head in Hps as <-.
    split; [done|]. intros _. exists e.
    unfold processFiles_catch, showToast, hideLoading in Hnew.
    rewrite !emit_log, !log_log in Hnew.
    change (effects (set_isProcessing false (log ?l a2))) with (effects a2 ++ l) in Hnew.
    rewrite Hf, <- !app_assoc in Hnew. apply app_inv_head in Hnew as <-.
    rewrite !toasts_app, Ht. reflexivity.
Qed.
End IngestionKept.

(** C2, as stated, fails: in a batch of a two-page document followed by
    a corrupt one, the first document decodes, yet the collection does
    not grow: the counting pass meets the corrupt document before any
    page is appended. *)
Lemma ingestion_growth_counterexample :
  decodedBeforeFailure (C := toy) batch_with_corrupt = 2
  ∧ pages (state (processFiles (C := toy) batch_with_corrupt app_three))
    = pages (state app_three)
  ∧ length (pages (state (processFiles (C := toy) batch_with_corrupt app_three)))
    ≠ length (pages (state app_three))
      + decodedBeforeFailure (C := toy) batch_with_corrupt.
Proof.
  split; [reflexivity|]. split; [vm_compute; reflexivity|].
  vm_compute. discriminate.
Qed.

(** C2, amended: a batch started while nothing is in progress only ever
    appends to the collection, and nothing appended is rolled back.  When
    every document decodes and renders, the collection grows by the sum of
    the page counts of all documents of the batch and the batch succeeds.
    When some document does not decode, the batch fails in the counting
    pass: the collection is unchanged, whatever decoded before.  When
    every document decodes, the pages appended are exactly the pages of
    the batch, file by file and page by page, up to the first failure of
    the renderer: they stay in the collection, and if there was such a
    failure the batch ends with the error notification. *)
Theorem ingestion_never_rolls_back `{C : Collaborators}
    (files : list File) (a : App) :
  isProcessing (state a) = false →
  ∃ ps new,
    pages (state (processFiles files a)) = pages (state a) ++ ps
    ∧ effects (processFiles files a) = effects a ++ new
    ∧ (Forall renders files →
       length ps = batchPageCount files ∧ ∃ m, toasts new = [(m, success)])
    ∧ (¬ Forall decodes files →
       ps = [] ∧ ∃ m, toasts new = [(js "Error processing PDF: " ++ m, error)])
    ∧ (Forall decodes files →
       (λ p, (sourceFile p, pageIndex p, pdfBytes p)) <$> ps
       = take (renderedBeforeFailure files) (batchLayout files (heapNext a))
       ∧ length ps = renderedBeforeFailure files
       ∧ (¬ Forall renders files →
          ∃ m, toasts new = [(js "Error processing PDF: " ++ m, error)])).
Proof.
  intros Hflag.
  destruct (processFiles_run files a Hflag) as (ps & new & Hs & Hf & _ & Hok & Hbad).
  assert (pages (state (processFiles files a)) = pages (state a) ++ ps) as Hps
    by (by rewrite Hs).
  exists ps, new. split; [done|]. split; [done|]. split; [done|]. split; [done|].
  intros Hdec.
  destruct (processFiles_kept files a ps new Hflag Hdec Hps Hf) as [Hlay Herr].
  split; [done|]. split; [|done].
  apply (f_equal length) in Hlay.
  rewrite length_fmap, length_take, batchLayout_length in Hlay.
  pose proof (renderedBeforeFailure_le files). lia.
Qed.

Lemma ingestion_never_rolls_back_witness :
  (∃ ps new,
    pages (state (processFiles (C := toy) batch_with_unrenderable app_three))
    = pages (state app_three) ++ ps
    ∧ effects (processFiles (C := toy) batch_with_unrenderable app_three)
      = effects app_three ++ new
    ∧ (Forall (renders (C := toy)) batch_with_unrenderable →
       length ps = batchPageCount (C := toy) batch_with_unrenderable
       ∧ ∃ m, toasts new = [(m, success)])
    ∧ (¬ Forall (decodes (C := toy)) batch_with_unrenderable →
       ps = [] ∧ ∃ m, toasts new = [(js "Error processing PDF: " ++ m, error)])
    ∧ (Forall (decodes (C := toy)) batch_with_unrenderable →
       (λ p, (sourceFile p, pageIndex p, pdfBytes p)) <$> ps
       = take (renderedBeforeFailure (C := toy) batch_with_unrenderable)
           (batchLayout (C := toy) batch_with_unrenderable (heapNext app_three))
       ∧ length ps = renderedBeforeFailure (C := toy) batch_with_unrenderable
       ∧ (¬ Forall (renders (C := toy)) batch_with_unrenderable →
          ∃ m, toasts new = [(js "Error processing PDF: " ++ m, error)])))
  ∧ renderedBeforeFailure (C := toy) batch_with_unrenderable = 2
  ∧ Forall (decodes (C := toy)) batch_with_unrenderable
  ∧ ¬ Forall (decodes (C := toy)) batch_with_corrupt.
Proof.
  split; [|split; [reflexivity|split]].
  - apply (ingestion_never_rolls_back (C := toy) batch_with_unrenderable app_three).
    reflexivity.
  - repeat constructor; by eexists.
  - intros [_ [[doc Hdoc] _]%Forall_cons]%Forall_cons. discriminate Hdoc.
Defined.

(** A failure of the renderer in the second pass keeps what was
    appended before it. *)
Example ingestion_keeps_earlier_documents :
  length (pages (state (processFiles (C := toy) batch_with_unrenderable app_three)))
  = length (pages (state app_three)) + 2
  ∧ (toasts (effects (processFiles (C := toy) batch_with_unrenderable
                        (initial (js "2024-01-31"))))).*2
    = [error].
Proof. split; vm_compute; reflexivity. Qed.

(** ** Selection and collection *)

Lemma selection_valid_ids s :
  selection_valid s ↔ ∀ i, i ∈ selectedIds s → i ∈ page_id <$> pages s.
Proof.
  unfold selection_valid. split; intros H i Hi.
  - destruct (H i Hi) as (p & Hp & <-). by apply list_elem_of_fmap_2.
  - apply H, list_elem_of_fmap in Hi as (p & -> & Hp). by exists p.
Qed.

Lemma grid_valid_ids a :
  grid_valid a ↔ ∀ i, i ∈ pageGrid (elements a) → i ∈ page_id <$> pages (state a).
Proof.
  unfold grid_valid. split; intros H i Hi.
  - destruct (H i Hi) as (p & Hp & <-). by apply list_elem_of_fmap_2.
  - apply H, list_elem_of_fmap in Hi as (p & -> & Hp). by exists p.
Qed.

Lemma same_collection_refl a : same_collection a a.
Proof. done. Qed.

Lemma same_collection_valid a a' :
  same_collection a a' →
  selection_valid (state a) ∧ grid_valid a →
  selection_valid (state a') ∧ grid_valid a'.
Proof.
  intros (Hp & Hs & Hg). rewrite !selection_valid_ids, !grid_valid_ids.
  by rewrite Hp, Hs, Hg.
Qed.

Lemma validateFilenameInput_same a : same_collection a (validateFilenameInput a).1.
Proof. unfold validateFilenameInput. simpl. by case_bool_decide. Qed.

Lemma updateFilenameFromTemplate_same a :
  same_collection a (updateFilenameFromTemplate a).
Proof.
  unfold updateFilenameFromTemplate.
  match goal with |- same_collection _ (validateFilenameInput ?b).1 =>
    destruct (validateFilenameInput_same b) as (Hp & Hs & Hg) end.
  by repeat split; rewrite ?Hp, ?Hs, ?Hg.
Qed.

Lemma showExportPreview_same a : same_collection a (showExportPreview a).
Proof.
  unfold showExportPreview. destruct (pages (state a)) eqn:E; [done|].
  match goal with |- same_collection _ (set_exportModal_visible _ (updateFilenameFromTemplate ?b)) =>
    destruct (updateFilenameFromTemplate_same b) as (Hp & Hs & Hg) end.
  by repeat split; simpl; rewrite ?Hp, ?Hs, ?Hg.
Qed.

Lemma rotatePage_ids i a :
  page_id <$> pages (state (rotatePage i a)) = page_id <$> pages (state a)
  ∧ selectedIds (state (rotatePage i a)) = selectedIds (state a)
  ∧ pageGrid (elements (rotatePage i a)) = pageGrid (elements a).
Proof.
  unfold rotatePage.
  destruct (list_find _ _) as [[k p]|] eqn:E; [|done].
  apply list_find_Some in E as (Hk & _). simpl.
  split; [|done]. rewrite list_fmap_insert. simpl.
  apply list_insert_id. by rewrite list_lookup_fmap, Hk.
Qed.

Section Invariant.
Context `{C : Collaborators}.

Lemma splitSelected_same a : same_collection a (splitSelected a).
Proof.
  destruct (decide (size (selectedIds (state a)) = 0)) as [Hz|Hnz].
  - unfold splitSelected, splitSelected_begin. by rewrite decide_True.
  - by destruct (splitSelected_run a Hnz) as (k & new & -> & _).
Qed.

Lemma mergeAndExport_same a : same_collection a (mergeAndExport a).
Proof.
  destruct (pages (state a)) as [|p ps] eqn:Hps.
  - unfold mergeAndExport, mergeAndExport_begin. by rewrite Hps.
  - destruct (mergeAndExport_run a) as (new & -> & _); [by rewrite Hps|done].
Qed.

Lemma confirmAndExport_same a : same_collection a (confirmAndExport a).
Proof.
  unfold confirmAndExport.
  pose proof (validateFilenameInput_same a) as (Hp & Hs & Hg).
  destruct (validateFilenameInput a) as [a1 [|]]; simpl in *; [|done].
  destruct (mergeAndExport_same (hideExportPreview a1)) as (Hp' & Hs' & Hg').
  repeat split; simpl in *; congruence.
Qed.

Lemma processFiles_preserves files a :
  selection_valid (state a) ∧ grid_valid a →
  selection_valid (state (processFiles files a)) ∧ grid_valid (processFiles files a).
Proof.
  intros Hinv. destruct (isProcessing (state a)) eqn:Hflag.
  { unfold processFiles, processFiles_begin. by rewrite Hflag. }
  destruct (processFiles_run files a Hflag) as (ps & new & Hs & _ & Hg & _).
  destruct Hinv as [Hsel Hgrid]. rewrite selection_valid_ids, grid_valid_ids in *.
  rewrite Hs. simpl. split.
  - intros j Hj. rewrite fmap_app. apply elem_of_app. left. by apply Hsel.
  - destruct Hg as [-> | ->]; intros j Hj.
    + rewrite fmap_app. apply elem_of_app. left. by apply Hgrid.
    + by rewrite Hs in Hj.
Qed.

(** Every handler keeps the selection within the collection and the
    cards within the collection. *)
Lemma handle_preserves a ev :
  selection_valid (state a) ∧ grid_valid a → enabled a ev →
  selection_valid (state (handle ev a)) ∧ grid_valid (handle ev a).
Proof.
  intros Hinv Hen.
  destruct ev as [i|i|i| |i| | | | | | |v|t| |files|files]; simpl in *.
  - (* card click *)
    destruct Hinv as [Hsel Hgrid]. rewrite selection_valid_ids in *.
    rewrite grid_valid_ids in *. unfold togglePageSelection.
    case_decide; simpl; (split; [|done]); intros j Hj.
    + apply Hsel. by apply elem_of_difference in Hj as [Hj _].
    + apply elem_of_union in Hj as [Hj|Hj]; [by apply Hsel|].
      apply elem_of_singleton in Hj as ->. by apply Hgrid.
  - (* rotate *)
    destruct (rotatePage_ids i a) as (Hp & Hs & Hg).
    rewrite selection_valid_ids, grid_valid_ids in *. by rewrite Hp, Hs, Hg.
  - done.
  - done.
  - (* drop *)
    destruct (handlePageDrop_cases a i)
      as [->|(d & di & ti & dp & _ & _ & _ & _ & Hdp & ->)]; [done|].
    destruct Hinv as [Hsel _]. rewrite selection_valid_ids, grid_valid_ids in *.
    simpl. split; [|done]. intros j Hj.
    rewrite (move_Permutation di ti dp _ Hdp). by apply Hsel.
  - (* delete *)
    unfold deleteSelected. case_decide; [done|].
    rewrite selection_valid_ids, grid_valid_ids. simpl.
    split; [set_solver|done].
  - (* select all *)
    destruct Hinv as [Hsel _].
    rewrite selection_valid_ids, grid_valid_ids in *. unfold selectAll. simpl.
    split; [|done]. intros j Hj. apply elem_of_union in Hj as [Hj|Hj].
    + by apply Hsel.
    + by apply elem_of_list_to_set in Hj.
  - (* clear all *)
    rewrite selection_valid_ids, grid_valid_ids. simpl. split; set_solver.
  - eapply same_collection_valid; [apply splitSelected_same|done].
  - eapply same_collection_valid; [apply showExportPreview_same|done].
  - done.
  - eapply same_collection_valid; [|done].
    apply (validateFilenameInput_same (set_filenameInput_value v a)).
  - eapply same_collection_valid; [|done].
    apply (updateFilenameFromTemplate_same (set_filenameTemplate t a)).
  - eapply same_collection_valid; [apply confirmAndExport_same|done].
  - (* upload *)
    unfold handleFileSelect. destruct files as [|f files]; [done|].
    by apply processFiles_preserves.
  - (* drop of files *)
    unfold handleFileDrop. destruct (filter _ files) as [|f fs]; [done|].
    by apply processFiles_preserves.
Qed.

Lemma reachable_valid date a :
  reachable date a → selection_valid (state a) ∧ grid_valid a.
Proof.
  induction 1 as [|a ev _ IH Hen].
  - split; intros i Hi; simpl in Hi; set_solver.
  - by apply handle_preserves.
Qed.
End Invariant.

(** C7: in every state the application can reach, and after every
    further operation on it (upload, card click, select all, delete,
    clear, drop, and the others), each selected id is the id of a page of
    the collection.  Deleting removes the selected pages from the
    collection and empties the selection in the same step: no selected id
    remains in either. *)
Theorem selection_within_collection `{C : Collaborators} (date : jsstring) (a : App) :
  reachable date a →
  selection_valid (state a)
  ∧ (∀ ev, enabled a ev → selection_valid (state (handle ev a)))
  ∧ selectedIds (state (deleteSelected a)) = ∅
  ∧ pages (state (deleteSelected a))
    = filter (λ p, page_id p ∉ selectedIds (state a)) (pages (state a))
  ∧ (∀ i, i ∈ selectedIds (state a) →
          i ∉ page_id <$> pages (state (deleteSelected a))).
Proof.
  intros Hreach. pose proof (reachable_valid date a Hreach) as Hinv.
  split; [apply Hinv|].
  split; [intros ev Hen; by apply handle_preserves|].
  assert (pages (state (deleteSelected a))
          = filter (λ p, page_id p ∉ selectedIds (state a)) (pages (state a))) as Hdel.
  { unfold deleteSelected. case_decide as Hz; [|done].
    apply size_zero_empty in Hz. rewrite Hz.
    induction (pages (state a)) as [|p l IH]; [done|].
    rewrite filter_cons_True by apply not_elem_of_empty. by rewrite <- IH. }
  split; [|split; [done|]].
  - unfold deleteSelected. case_decide as Hz; [|done]. by apply size_zero_empty.
  - intros i Hi Hin. rewrite Hdel in Hin.
    apply list_elem_of_fmap in Hin as (p & -> & Hp).
    by apply list_elem_of_filter in Hp as [? _].
Qed.

Lemma selection_within_collection_witness :
  selection_valid (state session_two_clicks)
  ∧ selectedIds (state (deleteSelected session_two_clicks)) = ∅
  ∧ page_id <$> pages (state (deleteSelected session_two_clicks)) = [js "page_1"].
Proof.
  assert (reachable (C := toy) (js "2024-01-31") session_two_clicks) as Hreach.
  { unfold session_two_clicks.
    apply reachable_step; [apply reachable_step; [apply reachable_step|]|].
    - apply reachable_initial.
    - exact I.
    - unfold enabled. apply (bool_decide_unpack _). vm_compute. reflexivity.
    - unfold enabled. apply (bool_decide_unpack _). vm_compute. reflexivity. }
  destruct (selection_within_collection (C := toy) _ _ Hreach)
    as (Hvalid & _ & Hempty & Hpages & _).
  split; [done|]. split; [done|].
  rewrite Hpages. vm_compute. reflexivity.
Defined.

(** ** Filename validation *)

Lemma dropWhile_nil_iff {A} (f : A → bool) l :
  dropWhile f l = [] ↔ Forall (λ x, f x = true) l.
Proof.
  induction l as [|x l IH]; simpl.
  - split; [constructor|done].
  - destruct (f x) eqn:E.
    + rewrite IH. split; [by constructor|]. by intros [_ ?]%Forall_cons.
    + split; [done|]. intros [? _]%Forall_cons. congruence.
Qed.

Lemma dropWhile_suffix {A} (f : A → bool) l : dropWhile f l `suffix_of` l.
Proof.
  induction l as [|x l IH]; simpl; [done|].
  destruct (f x); [by apply suffix_cons_r|done].
Qed.

Lemma trim_empty_iff v : trim v = [] ↔ Forall (λ c, is_whitespace c = true) v.
Proof.
  unfold trim. rewrite <- (reverse_involutive []) at 1.
  split.
  - intros H%(inj reverse). change (reverse []) with (@nil N) in H.
    rewrite dropWhile_nil_iff, Forall_reverse in H.
    destruct (dropWhile_suffix is_whitespace v) as [pre Hv].
    rewrite Hv at 1. apply Forall_app. split; [|done].
    (* the stripped prefix is white space *)
    clear H. revert pre Hv. induction v as [|c v IH]; intros pre Hv.
    + by destruct pre.
    + simpl in Hv. destruct (is_whitespace c) eqn:E.
      * destruct pre as [|c' pre].
        -- simpl in Hv. pose proof (dropWhile_suffix is_whitespace v) as Hs.
           rewrite <- Hv in Hs. apply suffix_length in Hs. simpl in Hs. lia.
        -- injection Hv as <- Hv. constructor; [done|]. by apply IH.
      * destruct pre as [|c' pre]; [constructor|].
        apply (f_equal length) in Hv. rewrite length_app in Hv. simpl in Hv. lia.
  - intros Hall. f_equal. change (reverse []) with (@nil N).
    apply dropWhile_nil_iff, Forall_reverse.
    apply dropWhile_nil_iff in Hall. by rewrite Hall.
Qed.

Lemma invalidChars_test_spec value :
  invalidChars_test value = true ↔ ∃ c, c ∈ value ∧ c ∈ invalidCharCodes.
Proof.
  unfold invalidChars_test. rewrite existsb_exists.
  split; intros (c & Hc & Hin); exists c.
  - split; [by apply list_elem_of_In|]. by apply bool_decide_eq_true in Hin.
  - split; [by apply list_elem_of_In|]. by apply bool_decide_eq_true.
Qed.

(** C8: the filename is judged on the trimmed input (lengths count
    UTF-16 code units).  It is refused exactly when that value is empty,
    or longer than 100, or holds one of the nine characters backslash,
    slash, colon, star, question mark, double quote, less-than,
    greater-than, vertical bar.  The rules are tried in that order and the
    first that fails gives the one message shown; the three messages
    differ.  The confirm button is disabled exactly when the filename is
    refused; an accepted filename shows no message and becomes the
    current filename, a refused one leaves the current filename alone. *)
Theorem filename_validation (a : App) :
  let value := trim (filenameInput_value (elements a)) in
  let a' := (validateFilenameInput a).1 in
  let accepted := (validateFilenameInput a).2 in
  invalidCharCodes = js "\/:*?" ++ [34%N] ++ js "<>|"
  ∧ (value = [] ↔ Forall (λ c, is_whitespace c = true) (filenameInput_value (elements a)))
  ∧ (accepted = false ↔
     value = [] ∨ 100 < length value ∨ ∃ c, c ∈ value ∧ c ∈ invalidCharCodes)
  ∧ filenameError_textContent (elements a')
    = (if decide (value = []) then js "Filename cannot be empty"
       else if decide (100 < length value)
            then js "Filename too long (max 100 characters)"
       else if decide (Exists (λ c, c ∈ invalidCharCodes) value)
            then js "Invalid characters: \ / : * ? " ++ [34%N] ++ js " < > |"
       else [])
  ∧ (js "Filename cannot be empty" ≠ js "Filename too long (max 100 characters)"
     ∧ js "Filename cannot be empty"
       ≠ js "Invalid characters: \ / : * ? " ++ [34%N] ++ js " < > |"
     ∧ js "Filename too long (max 100 characters)"
       ≠ js "Invalid characters: \ / : * ? " ++ [34%N] ++ js " < > |")
  ∧ (accepted = true ↔ filenameError_textContent (elements a') = [])
  ∧ confirmExport_disabled (elements a') = negb accepted
  ∧ currentFilename (state a')
    = (if accepted then value else currentFilename (state a)).
Proof.
  intros value a' accepted.
  split; [reflexivity|]. split; [apply trim_empty_iff|].
  assert (filenameErrorOf value
          = (if decide (value = []) then msg_empty
             else if decide (100 < length value) then msg_too_long
             else if decide (Exists (λ c, c ∈ invalidCharCodes) value) then msg_invalid
             else [])) as Herr.
  { unfold filenameErrorOf.
    destruct (decide (value = [])) as [->|Hne]; [done|].
    destruct value as [|c0 rest] eqn:Hv; [done|]. rewrite <- Hv in *.
    replace (length value =? 0) with false
      by (symmetry; apply Nat.eqb_neq; rewrite Hv; simpl; lia).
    destruct (decide (100 < length value)) as [Hlong|Hshort].
    - by replace (100 <? length value) with true by (symmetry; by apply Nat.ltb_lt).
    - replace (100 <? length value) with false by (symmetry; by apply Nat.ltb_ge; lia).
      destruct (invalidChars_test value) eqn:Htest.
      + rewrite decide_True; [done|]. apply Exists_exists.
        by apply invalidChars_test_spec.
      + rewrite decide_False; [done|]. intros Hex%Exists_exists.
        apply invalidChars_test_spec in Hex. congruence. }
  assert (accepted = bool_decide (filenameErrorOf value = [])) as Hacc by done.
  assert (accepted = false ↔
          value = [] ∨ 100 < length value ∨ ∃ c, c ∈ value ∧ c ∈ invalidCharCodes) as Hrej.
  { rewrite Hacc, Herr, bool_decide_eq_false.
    destruct (decide (value = [])) as [Hv|Hv]; [by split; [left|]|].
    destruct (decide (100 < length value)) as [Hl|Hl]; [by split; [right; left|]|].
    destruct (decide (Exists _ value)) as [He|He].
    - split; [|done]. intros _. right. right. by apply Exists_exists.
    - split; [done|]. intros [?|[?|Hex]]; [done|done|].
      destruct He. by apply Exists_exists. }
  assert (filenameError_textContent (elements a') = filenameErrorOf value) as Htext.
  { subst a'. unfold validateFilenameInput. simpl. fold value.
    by destruct (bool_decide (filenameErrorOf value = [])). }
  assert (confirmExport_disabled (elements a') = negb accepted) as Hdis.
  { subst a' accepted. unfold validateFilenameInput. simpl. fold value.
    by destruct (bool_decide (filenameErrorOf value = [])). }
  split; [done|].
  split; [rewrite Htext; exact Herr|].
  split; [repeat split; intros H; vm_compute in H; discriminate H|].
  split; [by rewrite Htext, Hacc, bool_decide_eq_true|].
  split; [done|].
  subst a' accepted. unfold validateFilenameInput. simpl.
  fold value. by destruct (bool_decide (filenameErrorOf value = [])).
Qed.

Lemma filename_validation_witness :
  (validateFilenameInput (set_filenameInput_value (js "a/b") app_three)).2 = false.
Proof.
  destruct (filename_validation (set_filenameInput_value (js "a/b") app_three))
    as (_ & _ & Hrejected & _).
  apply Hrejected. right. right. exists 47%N.
  split; apply (bool_decide_unpack _); vm_compute; reflexivity.
Defined.

(** The four sample filenames. *)
Example filename_samples :
  let shown v :=
    filenameError_textContent
      (elements (validateFilenameInput (set_filenameInput_value v app_three)).1) in
  shown [] = js "Filename cannot be empty"
  ∧ shown (replicate 101 97%N) = js "Filename too long (max 100 characters)"
  ∧ shown (js "a/b") = js "Invalid characters: \ / : * ? " ++ [34%N] ++ js " < > |"
  ∧ shown (js "report_final") = []
  ∧ shown (js "  report_final  ") = []
  ∧ currentFilename
      (state (validateFilenameInput
                (set_filenameInput_value (js "  report_final  ") app_three)).1)
    = js "report_final".
Proof. repeat split; vm_compute; reflexivity. Qed.

(** ** Size estimate *)

Lemma estimate_loop_distinct all planned l : ∀ acc seen,
  fst (foldl (estimate_step all planned) (acc, seen) l)
  = foldl (λ acc b,
             acc + inject_Z (Z.of_nat (length (bytes b)))
                   * inject_Z (Z.of_nat (pagesSharing b planned))
                   / inject_Z (Z.of_nat (pagesSharing b all)))%Q
          acc (distinctBuffers l seen).
Proof.
  induction l as [|p l IH]; intros acc seen; [done|].
  simpl. case_decide; [apply IH|]. simpl. apply IH.
Qed.

Lemma distinctBuffers_elem l : ∀ seen b,
  b ∈ distinctBuffers l seen → ∃ p, p ∈ l ∧ pdfBytes p = b.
Proof.
  induction l as [|p l IH]; intros seen b Hin; [by inversion Hin|].
  simpl in Hin. case_decide.
  - destruct (IH _ _ Hin) as (q & Hq & <-). exists q. split; [by right|done].
  - apply elem_of_cons in Hin as [->|Hin]; [exists p; split; [by left|done]|].
    destruct (IH _ _ Hin) as (q & Hq & <-). exists q. split; [by right|done].
Qed.

Section Estimate.
Context `{C : Collaborators}.

(** Where no page of a referenced source has left the collection, the
    estimate is the specified one. *)
Lemma estimatedBytes_agrees s planned :
  (∀ p, p ∈ planned →
        pagesSharing (pdfBytes p) (pages s) = pageCountOf (bytes (pdfBytes p))) →
  (estimatedBytes s planned == estimatedBytes_spec planned)%Q.
Proof.
  intros Hfull. unfold estimatedBytes, estimatedBytes_spec.
  rewrite estimate_loop_distinct.
  apply Qmult_comp; [|reflexivity].
  assert (∀ b, b ∈ distinctBuffers planned ∅ →
          pagesSharing b (pages s) = pageCountOf (bytes b)) as Hb.
  { intros b Hin. apply distinctBuffers_elem in Hin as (p & Hp & <-). by apply Hfull. }
  revert Hb. generalize (distinctBuffers planned ∅). generalize 0%Q at 1 2.
  intros acc l. revert acc. induction l as [|b l IH]; intros acc Hb; [reflexivity|].
  simpl. rewrite (Hb b) by (by left).
  assert (∀ x y : Q, x == y →
          (foldl (λ acc b,
             acc + inject_Z (Z.of_nat (length (bytes b)))
                   * inject_Z (Z.of_nat (pagesSharing b planned))
                   / inject_Z (Z.of_nat (pagesSharing b (pages s)))) x l
           == foldl (λ acc b,
             acc + inject_Z (Z.of_nat (length (bytes b)))
                   * inject_Z (Z.of_nat (pagesSharing b planned))
                   / inject_Z (Z.of_nat (pagesSharing b (pages s)))) y l)%Q) as Hcong.
  { clear. induction l as [|b l IHl]; intros x y Hxy; [done|].
    simpl. apply IHl. by rewrite Hxy. }
  etransitivity; [|apply IH; intros b' Hb'; apply Hb; by right].
  apply Hcong. unfold Qdiv. by rewrite Qmult_assoc.
Qed.
End Estimate.

(** C9 (defect): after two of the three pages of a 3000-byte source
    were deleted, the estimate for the remaining page divides by the one
    page still in the collection instead of the three pages of the source:
    2550 bytes, shown as 2 KB, where the specified formula gives 850. *)
Theorem estimate_divides_by_pages_left :
  let s := state session_one_page_left in
  length (pagesToExport s) = 1
  ∧ (estimatedBytes s (pagesToExport s) == 2550)%Q
  ∧ (estimatedBytes_spec (C := toy) (pagesToExport s) == 850)%Q
  ∧ statFileSize_textContent (elements (showExportPreview session_one_page_left))
    = js "2 KB".
Proof.
  split; [vm_compute; reflexivity|].
  split; [vm_compute; reflexivity|].
  split; vm_compute; reflexivity.
Qed.

(** ** The processing flag *)

Section Flag.
Context `{C : Collaborators}.

(** Whatever a run does, it leaves the flag down. *)
Lemma flag_down_after_run a files :
  (isProcessing (state a) = false →
   isProcessing (state (processFiles files a)) = false)
  ∧ (size (selectedIds (state a)) ≠ 0 →
     isProcessing (state (splitSelected a)) = false)
  ∧ (pages (state a) ≠ [] → isProcessing (state (mergeAndExport a)) = false).
Proof.
  split; [|split].
  - intros Hflag.
    destruct (processFiles_run files a Hflag) as (ps & new & -> & _). done.
  - intros Hsel. by destruct (splitSelected_run a Hsel) as (k & new & -> & _).
  - intros Hne. by destruct (mergeAndExport_run a Hne) as (new & -> & _).
Qed.

(** Only ingestion looks at the flag. *)
Lemma start_while_processing a :
  isProcessing (state a) = true →
  start Ingestion a = None
  ∧ (size (selectedIds (state a)) ≠ 0 → is_Some (start SplitAssembly a))
  ∧ (pages (state a) ≠ [] → is_Some (start MergeAssembly a)).
Proof.
  intros Hflag. simpl. unfold processFiles_begin, splitSelected_begin,
    mergeAndExport_begin. rewrite Hflag. split; [done|]. split.
  - intros Hsel. by rewrite decide_False.
  - intros Hne. by destruct (pages (state a)).
Qed.
End Flag.

(** C3 (defect): with three pages selected and an ingestion in flight,
    the flag is up and a second ingestion is refused, yet a split and a
    merge both start; the merge then finishes first and lowers the flag
    with the ingestion still in flight, and a second ingestion is
    accepted: three, then again two, long operations are in flight
    together. *)
Theorem exports_start_while_processing :
  ∃ a1 a2 a3 a4,
    start Ingestion app_all_selected = Some a1
    ∧ isProcessing (state a1) = true
    ∧ start Ingestion a1 = None
    ∧ start SplitAssembly a1 = Some a2
    ∧ start MergeAssembly a2 = Some a3
    ∧ isProcessing (state (finish a3)) = false
    ∧ start Ingestion (finish a3) = Some a4
    ∧ rtc (interleaving) (app_all_selected, [])
        (a4, [Ingestion; SplitAssembly; Ingestion]).
Proof.
  eexists _, _, _, _.
  split; [reflexivity|]. split; [reflexivity|]. split; [reflexivity|].
  split; [vm_compute; reflexivity|]. split; [reflexivity|].
  split; [reflexivity|]. split; [reflexivity|].
  eapply rtc_l; [by apply (interleaving_start Ingestion)|].
  eapply rtc_l; [apply (interleaving_start SplitAssembly); vm_compute; reflexivity|].
  eapply rtc_l; [by apply (interleaving_start MergeAssembly)|].
  eapply rtc_l; [apply (interleaving_finish MergeAssembly _ [] [SplitAssembly; Ingestion])|].
  eapply rtc_l; [by apply (interleaving_start Ingestion)|].
  apply rtc_refl.
Qed.

(** ** The earlier variant *)

Lemma Forall_filtered {A} (P Q : A → Prop) `{∀ x, Decision (Q x)} (l : list A) :
  Forall P l → Forall P (filter Q l).
Proof.
  rewrite !Forall_forall. intros Hall x Hx.
  apply Hall. by apply list_elem_of_filter in Hx as [_ ?].
Qed.

Lemma effects_run new a :
  effects (set_isProcessing false (log new (set_isProcessing true a)))
  = effects a ++ new.
Proof. reflexivity. Qed.

Section AppJsRuns.
Context `{C : Collaborators}.

Lemma appjs_copyPage p a :
  rotation p = 0 → AppJs.copyPage p a = copyAndRotate p a.
Proof.
  intros Hrot. unfold AppJs.copyPage, copyAndRotate.
  rewrite !bind_run, !await_run.
  destruct (PDFDocument_load (bytes (pdfBytes p))) as [doc|e]; [|done].
  rewrite !bind_run, !await_run.
  destruct (copyPages doc (pageIndex p)) as [pg|e]; [|done].
  rewrite !mret_run, Hrot. by rewrite decide_False by lia.
Qed.

Lemma appjs_split_loop total l :
  Forall (λ p, rotation p = 0) l →
  ∀ i a, for_indexed (AppJs.splitPage total) i l a = for_indexed (splitPage total) i l a.
Proof.
  induction 1 as [|p l Hp _ IH]; intros i a; [done|].
  change (for_indexed (AppJs.splitPage total) i (p :: l))
    with (AppJs.splitPage total i p ≫= λ _, for_indexed (AppJs.splitPage total) (S i) l).
  change (for_indexed (splitPage total) i (p :: l))
    with (splitPage total i p ≫= λ _, for_indexed (splitPage total) (S i) l).
  rewrite !bind_run.
  assert (AppJs.splitPage total i p a = splitPage total i p a) as ->.
  { unfold AppJs.splitPage, splitPage. rewrite !bind_run, !act_run, !bind_run.
    by rewrite appjs_copyPage. }
  destruct (splitPage total i p a) as [a' [[]|e]]; [apply IH|done].
Qed.

(** On pages without rotation the split of the earlier variant is the
    split of the later one. *)
Lemma appjs_splitSelected a :
  Forall (λ p, rotation p = 0) (pages (state a)) →
  AppJs.splitSelected a = splitSelected a.
Proof.
  intros Hall. unfold AppJs.splitSelected, splitSelected.
  destruct (splitSelected_begin a) as [a1|] eqn:Hbegin; [|done].
  unfold try_catch_finally, AppJs.splitSelected_try, splitSelected_try.
  rewrite !bind_run, appjs_split_loop; [done|].
  unfold splitSelected_begin in Hbegin. case_decide; [done|].
  injection Hbegin as <-. unfold selectedPages. simpl.
  by apply Forall_filtered.
Qed.

Lemma appjs_merge_loop total l :
  Forall (λ p, rotation p = 0) l →
  ∀ acc a, for_accum (AppJs.mergePage total) l acc a = for_accum (mergePage total) l acc a.
Proof.
  induction 1 as [|p l Hp _ IH]; intros acc a; [done|].
  rewrite !for_accum_cons, !bind_run.
  assert (AppJs.mergePage total acc p a = mergePage total acc p a) as ->.
  { destruct acc as [i added]. unfold AppJs.mergePage, mergePage.
    rewrite !bind_run, !act_run, !bind_run. by rewrite appjs_copyPage. }
  destruct (mergePage total acc p a) as [a' [acc'|e]]; [apply IH|done].
Qed.

(** On pages without rotation the merge of the earlier variant emits
    the same single document, under its dated name. *)
Lemma appjs_mergeAndExport_emits a saved :
  pages (state a) ≠ [] →
  Forall (λ p, rotation p = 0) (pages (state a)) →
  serialized (pagesToExport (state a)) saved →
  downloads (effects (AppJs.mergeAndExport a))
  = downloads (effects a) ++ [(saved, AppJs.exportName a)].
Proof.
  intros Hne Hall (outs & Houts & Hsave).
  unfold AppJs.mergeAndExport, mergeAndExport_begin.
  destruct (pages (state a)) as [|p0 ps] eqn:Hps; [done|]. clear Hne.
  unfold try_catch_finally, AppJs.mergeAndExport_try.
  set (a1 := showLoading (js "Merging PDF...") (set_isProcessing true a)).
  change (pagesToExport (state a1)) with (pagesToExport (state a)).
  change (AppJs.exportName a1) with (AppJs.exportName a).
  set (planned := pagesToExport (state a)) in *.
  assert (Forall (λ p, rotation p = 0) planned) as Hplanned.
  { subst planned. unfold pagesToExport, selectedPages. rewrite Hps.
    case_decide; [by apply Forall_filtered|done]. }
  rewrite bind_run, appjs_merge_loop by done.
  destruct (merge_loop_run (length planned) planned 0 [] a1)
    as (es & Hd & Ht & [(outs' & Houts' & ->)|(e & Hfail & ->)]).
  - assert (outs' = outs) as ->.
    { clear -Houts Houts'. revert outs' Houts'.
      induction Houts; intros outs' Houts'; inversion Houts'; subst; [done|].
      f_equal; [by eapply copy_of_functional|eauto]. }
    cbn beta iota zeta. rewrite app_nil_l, bind_run, await_run, Hsave.
    repeat (rewrite bind_run; unfold act at 1).
    unfold act, downloadBlob, hideLoading, showToast, a1, showLoading.
    rewrite !emit_log, !log_log, effects_run.
    rewrite !downloads_app, Hd. reflexivity.
  - destruct Hfail. by exists outs.
Qed.
End AppJsRuns.

(** * Further properties of the handlers *)

(** ** Selection *)

Lemma set_selectedIds_same X a : X = selectedIds (state a) → set_selectedIds X a = a.
Proof. intros ->. by destruct a as [[] ? ? ? ? ?]. Qed.

Lemma filter_none {A} (P : A → Prop) `{∀ x, Decision (P x)} (l : list A) :
  Forall (λ x, ¬ P x) l → filter P l = [].
Proof.
  induction 1 as [|x l Hx _ IH]; [done|]. by rewrite filter_cons_False.
Qed.

(** X1: clicking the same card twice gives back the application as it
    was: the second click undoes the first, whether the page was selected
    or not. *)
Theorem toggle_twice_is_identity (i : jsstring) (a : App) :
  togglePageSelection i (togglePageSelection i a) = a.
Proof.
  unfold togglePageSelection at 2.
  destruct (decide (i ∈ selectedIds (state a))) as [Hin|Hout].
  - unfold togglePageSelection. simpl. rewrite decide_False.
    2: { rewrite elem_of_difference, elem_of_singleton. by intros [_ []]. }
    apply (set_selectedIds_same _ a).
    apply set_eq. intros j. rewrite elem_of_union, elem_of_difference, elem_of_singleton.
    split; [intros [[? _]| ->]; done|]. intros Hj.
    destruct (decide (j = i)) as [->|Hne]; [by right|by left].
  - unfold togglePageSelection. simpl. rewrite decide_True.
    2: { rewrite elem_of_union, elem_of_singleton. by right. }
    apply (set_selectedIds_same _ a).
    apply set_eq. intros j. rewrite elem_of_difference, elem_of_union, elem_of_singleton.
    split; [by intros [[?| ->] ?]|]. intros Hj. split; [by left|]. by intros ->.
Qed.

(** X2: select all followed by delete empties the collection and the
    selection, whatever was selected before, and the grid with them when
    there was a page. *)
Theorem select_all_then_delete_empties (a : App) :
  pages (state (deleteSelected (selectAll a))) = []
  ∧ selectedIds (state (deleteSelected (selectAll a))) = ∅
  ∧ (pages (state a) ≠ [] → pageGrid (elements (deleteSelected (selectAll a))) = []).
Proof.
  assert (filter (λ p, page_id p ∉ selectedIds (state (selectAll a)))
            (pages (state a)) = []) as Hnone.
  { apply filter_none, Forall_forall. intros p Hp Hnot. apply Hnot. simpl.
    apply elem_of_union. right. apply elem_of_list_to_set.
    by apply list_elem_of_fmap_2. }
  unfold deleteSelected. case_decide as Hz.
  - apply size_zero_empty in Hz. split; [|split; [done|]].
    + simpl in *. destruct (pages (state a)) as [|p l]; [done|].
      assert (page_id p ∈ selectedIds (state a) ∪ list_to_set (page_id <$> p :: l)) as Hp.
      { apply elem_of_union. right. apply elem_of_list_to_set. by left. }
      rewrite Hz in Hp. by apply not_elem_of_empty in Hp.
    + intros Hne. simpl in *. destruct (pages (state a)) as [|p l]; [done|].
      assert (page_id p ∈ selectedIds (state a) ∪ list_to_set (page_id <$> p :: l)) as Hp.
      { apply elem_of_union. right. apply elem_of_list_to_set. by left. }
      rewrite Hz in Hp. by apply not_elem_of_empty in Hp.
  - simpl in *. rewrite Hnone. done.
Qed.

Lemma select_all_then_delete_empties_witness :
  pageGrid (elements (deleteSelected (selectAll app_three))) = [].
Proof.
  apply (select_all_then_delete_empties app_three). discriminate.
Defined.

(** ** Rotation *)

Lemma set_rotation_same p : set_rotation (rotation p) p = p.
Proof. by destruct p. Qed.

Lemma rotation_set_rotation r p : rotation (set_rotation r p) = r.
Proof. reflexivity. Qed.

Lemma set_rotation_twice r r' p : set_rotation r' (set_rotation r p) = set_rotation r' p.
Proof. reflexivity. Qed.

(** What one rotation does to the page list. *)
Lemma rotatePage_found i a k p :
  list_find (λ p, page_id p = i) (pages (state a)) = Some (k, p) →
  pages (state (rotatePage i a))
  = <[k := set_rotation ((rotation p + 90) `mod` 360) p]> (pages (state a))
  ∧ list_find (λ p, page_id p = i) (pages (state (rotatePage i a)))
    = Some (k, set_rotation ((rotation p + 90) `mod` 360) p).
Proof.
  intros Hfind. unfold rotatePage. rewrite Hfind. simpl. split; [done|].
  apply list_find_Some in Hfind as (Hk & Hid & Hfirst).
  apply list_find_Some. split; [|split; [done|]].
  - apply list_lookup_insert_eq. by eapply lookup_lt_Some.
  - intros j y Hj Hlt. rewrite list_lookup_insert_ne in Hj by lia. by eapply Hfirst.
Qed.

Lemma quarter_turns r :
  r < 360 →
  ((((r + 90) `mod` 360 + 90) `mod` 360 + 90) `mod` 360 + 90) `mod` 360 = r.
Proof.
  assert (∀ x, x < 360 →
          (x + 90) `mod` 360 = if decide (x < 270) then x + 90 else x - 270) as Hturn.
  { intros x Hx. case_decide.
    - apply Nat.mod_small. lia.
    - symmetry. apply (Nat.mod_unique _ 360 1); lia. }
  intros Hr.
  rewrite (Hturn r) by done.
  destruct (decide (r < 270)).
  - rewrite (Hturn (r + 90)) by lia. destruct (decide (r + 90 < 270)).
    + rewrite (Hturn (r + 90 + 90)) by lia. destruct (decide (r + 90 + 90 < 270)).
      * rewrite (Hturn (r + 90 + 90 + 90)) by lia. case_decide; lia.
      * rewrite (Hturn (r + 90 + 90 - 270)) by lia. case_decide; lia.
    + rewrite (Hturn (r + 90 - 270)) by lia. destruct (decide (r + 90 - 270 < 270)); [|lia].
      rewrite (Hturn (r + 90 - 270 + 90)) by lia. case_decide; lia.
  - rewrite (Hturn (r - 270)) by lia. destruct (decide (r - 270 < 270)); [|lia].
    rewrite (Hturn (r - 270 + 90)) by lia. destruct (decide (r - 270 + 90 < 270)); [|lia].
    rewrite (Hturn (r - 270 + 90 + 90)) by lia. case_decide; lia.
Qed.

(** X3: four rotations of a page bring the collection back to what it
    was (angles are below 360, as they are for every page the application
    makes); a page that is not in the collection is not rotated at all. *)
Theorem rotate_four_times_restores (i : jsstring) (a : App) :
  Forall (λ p, rotation p < 360) (pages (state a)) →
  pages (state (rotatePage i (rotatePage i (rotatePage i (rotatePage i a)))))
  = pages (state a)
  ∧ (i ∉ page_id <$> pages (state a) → rotatePage i a = a).
Proof.
  intros Hvalid. split.
  - destruct (list_find (λ p, page_id p = i) (pages (state a))) as [[k p]|] eqn:Hfind.
    + destruct (rotatePage_found i a k p Hfind) as [Hp1 Hf1].
      destruct (rotatePage_found i _ k _ Hf1) as [Hp2 Hf2].
      destruct (rotatePage_found i _ k _ Hf2) as [Hp3 Hf3].
      destruct (rotatePage_found i _ k _ Hf3) as [Hp4 _].
      rewrite Hp4, Hp3, Hp2, Hp1.
      rewrite !list_insert_insert_eq, !set_rotation_twice, !rotation_set_rotation.
      apply list_find_Some in Hfind as (Hk & _).
      rewrite quarter_turns.
      * rewrite set_rotation_same. by apply list_insert_id.
      * rewrite Forall_forall in Hvalid. apply Hvalid.
        by eapply list_elem_of_lookup_2.
    + assert (rotatePage i a = a) as Hid by (unfold rotatePage; by rewrite Hfind).
      by rewrite !Hid.
  - intros Habsent. unfold rotatePage.
    destruct (list_find _ _) as [[k p]|] eqn:Hfind; [|done].
    apply list_find_Some in Hfind as (Hk & Hid & _).
    destruct Habsent. rewrite <- Hid. apply list_elem_of_fmap_2.
    by eapply list_elem_of_lookup_2.
Qed.

Lemma rotate_four_times_restores_witness :
  pages (state (rotatePage (js "page_1") (rotatePage (js "page_1")
                 (rotatePage (js "page_1") (rotatePage (js "page_1") app_three)))))
  = pages (state app_three).
Proof.
  apply (rotate_four_times_restores (js "page_1") app_three).
  change (pages (state app_three)) with pages_three. unfold pages_three.
  repeat constructor; simpl; lia.
Defined.

(** X4: a rotation changes nothing but the angle of one page, which it
    advances by a quarter turn: ids, order, source arrays, thumbnails,
    the selection and the grid are as before, and every other page keeps
    its angle. *)
Theorem rotate_changes_one_angle (i : jsstring) (a : App) :
  set_rotation 0 <$> pages (state (rotatePage i a))
  = set_rotation 0 <$> pages (state a)
  ∧ selectedIds (state (rotatePage i a)) = selectedIds (state a)
  ∧ pageGrid (elements (rotatePage i a)) = pageGrid (elements a)
  ∧ (∀ k p, list_find (λ p, page_id p = i) (pages (state a)) = Some (k, p) →
       (rotation <$> pages (state (rotatePage i a)))
       = <[k := (rotation p + 90) `mod` 360]> (rotation <$> pages (state a))).
Proof.
  destruct (rotatePage_ids i a) as (_ & Hs & Hg).
  split; [|split; [done|split; [done|]]].
  - destruct (list_find (λ p, page_id p = i) (pages (state a))) as [[k p]|] eqn:Hfind.
    + destruct (rotatePage_found i a k p Hfind) as [-> _].
      rewrite list_fmap_insert. apply list_insert_id.
      apply list_find_Some in Hfind as (Hk & _).
      by rewrite list_lookup_fmap, Hk.
    + unfold rotatePage. by rewrite Hfind.
  - intros k p Hfind. destruct (rotatePage_found i a k p Hfind) as [-> _].
    by rewrite list_fmap_insert.
Qed.

Lemma rotate_changes_one_angle_witness :
  rotation <$> pages (state (rotatePage (js "page_1") app_three)) = [0; 90; 0].
Proof.
  destruct (pages (state app_three) !! 1) as [p|] eqn:Hp; [|discriminate].
  destruct (rotate_changes_one_angle (js "page_1") app_three) as (_ & _ & _ & Hangle).
  rewrite (Hangle 1 p).
  - vm_compute in Hp. injection Hp as <-. reflexivity.
  - vm_compute in Hp. injection Hp as <-. vm_compute. reflexivity.
Defined.

(** ** Reorder, positions *)

(** X5: a drop moves pages only between the two positions involved:
    every page before both or after both stays where it was, and a drop
    onto the next or the previous page swaps the two. *)
Theorem reposition_is_local
    (a : App) (d targetId : jsstring) (di ti : nat) (dp tp : PageData) :
  draggedId (state a) = Some d →
  d ≠ targetId →
  firstIndexOf d (pages (state a)) = Some di →
  firstIndexOf targetId (pages (state a)) = Some ti →
  pages (state a) !! di = Some dp →
  pages (state a) !! ti = Some tp →
  let after := pages (state (handlePageDrop targetId a)) in
  (∀ k, k < di → k < ti → after !! k = pages (state a) !! k)
  ∧ (∀ k, di < k → ti < k → after !! k = pages (state a) !! k)
  ∧ (ti = S di ∨ di = S ti →
     after !! di = Some tp ∧ after !! ti = Some dp).
Proof.
  intros Hd Hne Hdi Hti Hdp Htp after.
  destruct (handlePageDrop_moves a targetId d di ti Hd Hne Hdi Hti)
    as (dp' & Hdp' & _ & Hafter).
  assert (dp' = dp) as -> by congruence.
  subst after. rewrite Hafter.
  pose proof (lookup_lt_Some _ _ _ Hdp) as Hdlen.
  pose proof (lookup_lt_Some _ _ _ Htp) as Htlen.
  pose proof (splice_remove_length _ _ _ Hdp) as Hlen.
  split; [|split].
  - intros k Hkd Hkt. rewrite splice_insert_lookup_lt by lia.
    unfold splice_remove. by rewrite list_lookup_delete_lt.
  - intros k Hkd Hkt. destruct k as [|k]; [lia|].
    rewrite splice_insert_lookup_gt by lia.
    unfold splice_remove. by rewrite list_lookup_delete_ge by lia.
  - intros [-> | ->].
    + split; [|by apply move_lookup].
      rewrite splice_insert_lookup_lt by lia.
      unfold splice_remove. by rewrite list_lookup_delete_ge by lia.
    + split; [|by apply move_lookup].
      rewrite splice_insert_lookup_gt by lia.
      unfold splice_remove. by rewrite list_lookup_delete_lt by lia.
Qed.

Lemma reposition_is_local_witness :
  ∃ dp tp,
    pages (state (handlePageDrop (js "page_1") app_dragging_first)) !! 0 = Some tp
    ∧ pages (state (handlePageDrop (js "page_1") app_dragging_first)) !! 1 = Some dp
    ∧ pages (state (handlePageDrop (js "page_1") app_dragging_first)) !! 2
      = pages (state app_dragging_first) !! 2
    ∧ page_id dp = js "page_0" ∧ page_id tp = js "page_1".
Proof.
  destruct (pages (state app_dragging_first) !! 0) as [dp|] eqn:Hdp; [|discriminate].
  destruct (pages (state app_dragging_first) !! 1) as [tp|] eqn:Htp; [|discriminate].
  exists dp, tp.
  assert (js "page_0" ≠ js "page_1") as Hne by (intros H; vm_compute in H; discriminate H).
  assert (firstIndexOf (js "page_0") (pages (state app_dragging_first)) = Some 0) as Hdi
    by (vm_compute; reflexivity).
  assert (firstIndexOf (js "page_1") (pages (state app_dragging_first)) = Some 1) as Hti
    by (vm_compute; reflexivity).
  destruct (reposition_is_local app_dragging_first
              (js "page_0") (js "page_1") 0 1 dp tp eq_refl Hne Hdi Hti Hdp Htp)
    as (_ & Hlater & Hswap).
  destruct Hswap as [H0 H1]; [by left|].
  split; [done|]. split; [done|]. split; [apply Hlater; lia|].
  vm_compute in Hdp, Htp. injection Hdp as <-. injection Htp as <-. done.
Defined.

(** ** Export plan *)

(** X6: the export plan lists pages of the collection in collection
    order, never in the order they were selected: it is the whole
    collection when nothing is selected, and otherwise exactly the pages
    whose id is selected. *)
Theorem export_plan_follows_collection (s : State) :
  pagesToExport s `sublist_of` pages s
  ∧ (selectedIds s = ∅ → pagesToExport s = pages s)
  ∧ (selectedIds s ≠ ∅ →
     ∀ p, p ∈ pagesToExport s ↔ p ∈ pages s ∧ page_id p ∈ selectedIds s).
Proof.
  rewrite pagesToExport_plan. split; [|split].
  - case_decide; [done|]. apply sublist_filter.
  - intros He. by rewrite decide_True.
  - intros Hne p. rewrite decide_False by done. rewrite list_elem_of_filter.
    split; intros [? ?]; done.
Qed.

Lemma export_plan_follows_collection_witness :
  page_id <$> pagesToExport (state app_first_and_third) = [js "page_0"; js "page_2"]
  ∧ pagesToExport (state app_three) = pages (state app_three).
Proof.
  split; [vm_compute; reflexivity|].
  apply (export_plan_follows_collection (state app_three)). reflexivity.
Defined.

Section PlanNonEmpty.
Context `{C : Collaborators}.

(** X7: in every state the application can reach, a collection with a
    page has a plan with a page: a merge never builds an empty document,
    because a non-empty selection always selects a page that is there. *)
Theorem reachable_plan_not_empty (date : jsstring) (a : App) :
  reachable date a →
  pages (state a) ≠ [] →
  pagesToExport (state a) ≠ [].
Proof.
  intros Hreach Hne. destruct (reachable_valid date a Hreach) as [Hsel _].
  rewrite pagesToExport_plan. case_decide as He; [done|].
  apply set_choose_L in He as [i Hi].
  destruct (Hsel i Hi) as (p & Hp & <-).
  intros Hnil.
  assert (p ∈ filter (λ p0, page_id p0 ∈ selectedIds (state a)) (pages (state a))) as Hin
    by (by apply list_elem_of_filter).
  rewrite Hnil in Hin. by apply elem_of_nil in Hin.
Qed.
End PlanNonEmpty.

Lemma reachable_plan_not_empty_witness : pagesToExport (state session_two_clicks) ≠ [].
Proof.
  apply (reachable_plan_not_empty (C := toy) (js "2024-01-31")).
  - unfold session_two_clicks.
    apply reachable_step; [apply reachable_step; [apply reachable_step|]|].
    + apply reachable_initial.
    + exact I.
    + unfold enabled. apply (bool_decide_unpack _). vm_compute. reflexivity.
    + unfold enabled. apply (bool_decide_unpack _). vm_compute. reflexivity.
  - vm_compute. discriminate.
Defined.

(** ** Split names *)

Lemma uint_units_inj d d' : uint_units d = uint_units d' → d = d'.
Proof.
  revert d'. induction d; intros d' H; destruct d'; simpl in H;
    try discriminate H; try reflexivity;
    injection H as H; f_equal; by apply IHd.
Qed.

Lemma num_inj i j : num i = num j → i = j.
Proof.
  unfold num. intros H%uint_units_inj. by apply DecimalNat.Unsigned.to_uint_inj.
Qed.

Lemma splitName_inj i j : splitName i = splitName j → i = j.
Proof.
  unfold splitName. intros H. apply app_inv_head in H. apply app_inv_tail in H.
  by apply num_inj.
Qed.

(** X8: the files of one split never collide: different positions give
    different names, so the names emitted by a run are pairwise distinct. *)
Theorem split_names_are_distinct `{C : Collaborators} (a : App) :
  (∀ i j, js "page_" ++ num i ++ js ".pdf" = js "page_" ++ num j ++ js ".pdf" → i = j)
  ∧ (size (selectedIds (state a)) ≠ 0 →
     ∃ new, effects (splitSelected a) = effects a ++ new
            ∧ NoDup (downloads new).*2).
Proof.
  split; [apply splitName_inj|]. intros Hsel.
  destruct (splitSelected_run a Hsel) as (k & new & -> & _ & _ & Hnames & _).
  exists new. split; [done|]. rewrite Hnames.
  apply NoDup_fmap_2; [|apply NoDup_seq].
  intros i j. apply splitName_inj.
Qed.

Lemma split_names_are_distinct_witness :
  ∃ new, effects (splitSelected (C := toy) app_all_selected)
         = effects app_all_selected ++ new
         ∧ NoDup (downloads new).*2.
Proof.
  apply (split_names_are_distinct (C := toy) app_all_selected).
  vm_compute. discriminate.
Defined.

(** ** The processing flag, whole runs *)

(** X11: each long operation either does not start, and then changes
    nothing (ingestion while the flag is up) or only shows its message
    (split without a selection, merge without a page), or runs and leaves
    the flag down, whether it succeeded or failed. *)
Theorem processing_flag_is_released `{C : Collaborators} (files : list File) (a : App) :
  (if isProcessing (state a) then processFiles files a = a
   else isProcessing (state (processFiles files a)) = false)
  ∧ (if decide (selectedIds (state a) = ∅)
     then splitSelected a = showToast (js "Select pages to split") error a
     else isProcessing (state (splitSelected a)) = false)
  ∧ (if decide (pages (state a) = [])
     then mergeAndExport a = showToast (js "No pages to merge") error a
     else isProcessing (state (mergeAndExport a)) = false).
Proof.
  split; [|split].
  - destruct (isProcessing (state a)) eqn:Hflag.
    + unfold processFiles, processFiles_begin. by rewrite Hflag.
    + by apply flag_down_after_run.
  - case_decide as He.
    + unfold splitSelected, splitSelected_begin.
      rewrite decide_True; [done|]. by apply size_zero_empty.
    + apply (flag_down_after_run a files). by rewrite size_zero_empty.
  - case_decide as He.
    + unfold mergeAndExport, mergeAndExport_begin. by rewrite He.
    + by apply (flag_down_after_run a files).
Qed.

(** ** Confirming an export *)

Lemma filenameErrorOf_valid v :
  v ≠ [] → length v ≤ 100 → invalidChars_test v = false → filenameErrorOf v = [].
Proof.
  intros Hne Hlen Hchars. unfold filenameErrorOf.
  destruct v as [|c v]; [done|]. simpl length in *.
  replace (S (length v) =? 0) with false by done.
  replace (100 <? S (length v)) with false by (symmetry; apply Nat.ltb_ge; lia).
  by rewrite Hchars.
Qed.

Section Confirm.
Context `{C : Collaborators}.

(** X12: confirming with a refused filename does nothing beyond showing
    the message: no operation starts and nothing is emitted.  Confirming
    with an accepted filename closes the preview and, when the assembly
    succeeds, emits exactly one file, named after the trimmed input with
    the extension .pdf. *)
Theorem confirm_exports_under_validated_name (a : App) :
  let value := trim (filenameInput_value (elements a)) in
  ((validateFilenameInput a).2 = false →
   confirmAndExport a = (validateFilenameInput a).1
   ∧ effects (confirmAndExport a) = effects a
   ∧ isProcessing (state (confirmAndExport a)) = isProcessing (state a))
  ∧ ((validateFilenameInput a).2 = true →
     pages (state a) ≠ [] →
     ∀ saved, serialized (pagesToExport (state a)) saved →
       downloads (effects (confirmAndExport a))
       = downloads (effects a) ++ [(saved, value ++ js ".pdf")]
       ∧ exportModal_visible (elements (confirmAndExport a)) = false).
Proof.
  intros value. unfold confirmAndExport.
  destruct (validateFilenameInput a) as [a1 ok] eqn:Hval.
  assert (effects a1 = effects a ∧ isProcessing (state a1) = isProcessing (state a)
          ∧ pages (state a1) = pages (state a)
          ∧ selectedIds (state a1) = selectedIds (state a)
          ∧ (ok = true → currentFilename (state a1) = value)) as (He & Hf & Hp & Hs & Hn).
  { unfold validateFilenameInput in Hval. injection Hval as <- <-.
    fold value. by destruct (bool_decide (filenameErrorOf value = [])). }
  simpl. split.
  - intros ->. done.
  - intros -> Hne saved Hsaved.
    set (a2 := hideExportPreview a1).
    assert (pages (state a2) ≠ []) as Hne2 by (by rewrite <- Hp in Hne).
    destruct (mergeAndExport_run a2 Hne2) as (new & -> & Hrun).
    assert (pagesToExport (state a2) = pagesToExport (state a)) as Hplan.
    { unfold pagesToExport, selectedPages. simpl. by rewrite Hp, Hs. }
    rewrite Hplan in Hrun.
    split; [|done].
    change (effects (set_isProcessing false (log new a2))) with (effects a1 ++ new).
    rewrite He, downloads_app. f_equal.
    destruct Hrun as [(saved' & m & Hs' & -> & _)|(Hfail & _)].
    + simpl. rewrite (Hn eq_refl). do 2 f_equal.
      destruct Hsaved as (outs & Houts & Hsave).
      destruct Hs' as (outs' & Houts' & Hsave').
      assert (outs' = outs) as ->; [|congruence].
      clear -Houts Houts'. revert outs' Houts'.
      induction Houts; intros outs' Houts'; inversion Houts'; subst; [done|].
      f_equal; [by eapply copy_of_functional|eauto].
    + destruct Hfail. by exists saved.
Qed.
End Confirm.

Lemma confirm_exports_under_validated_name_witness :
  confirmAndExport (C := toy) (set_filenameInput_value (js "a/b") app_three)
  = (validateFilenameInput (set_filenameInput_value (js "a/b") app_three)).1
  ∧ downloads (effects (confirmAndExport (C := toy)
                          (set_filenameInput_value (js "  report  ") app_three)))
    = [([Byte.x03; Byte.x03; Byte.x03], js "report.pdf")].
Proof.
  split.
  - apply (confirm_exports_under_validated_name (C := toy)
             (set_filenameInput_value (js "a/b") app_three)).
    vm_compute. reflexivity.
  - destruct (confirm_exports_under_validated_name (C := toy)
                (set_filenameInput_value (js "  report  ") app_three)) as [_ Hok].
    destruct (Hok eq_refl) with (saved := [Byte.x03; Byte.x03; Byte.x03]) as [Hd _].
    + discriminate.
    + change (pagesToExport (state (set_filenameInput_value (js "  report  ") app_three)))
        with pages_three.
      exists [ {| copied := ([Byte.x03; Byte.x25; Byte.x50; Byte.x44; Byte.x46], 0);
                  setRotation := None |};
               {| copied := ([Byte.x03; Byte.x25; Byte.x50; Byte.x44; Byte.x46], 1);
                  setRotation := None |};
               {| copied := ([Byte.x03; Byte.x25; Byte.x50; Byte.x44; Byte.x46], 2);
                  setRotation := None |} ].
      split; [|reflexivity].
      unfold pages_three. repeat constructor;
        exists [Byte.x03; Byte.x25; Byte.x50; Byte.x44; Byte.x46]; repeat split.
    + rewrite Hd. vm_compute. reflexivity.
Defined.

(** ** Filename templates *)

Lemma dropWhile_clean {A} (f : A → bool) (l : list A) :
  Forall (λ x, f x = false) l → dropWhile f l = l.
Proof. destruct 1 as [|x l Hx _]; [done|]. simpl. by rewrite Hx. Qed.

Lemma trim_clean v : Forall (λ c, is_whitespace c = false) v → trim v = v.
Proof.
  intros Hv. unfold trim. rewrite (dropWhile_clean _ v) by done.
  rewrite dropWhile_clean by (by apply Forall_reverse).
  apply reverse_involutive.
Qed.

(** A code unit that is neither white space nor forbidden in a filename. *)
Lemma plain_name_accepted v :
  v ≠ [] → length v ≤ 100 →
  Forall (λ c, is_whitespace c = false ∧ c ∉ invalidCharCodes) v →
  trim v = v ∧ filenameErrorOf v = [].
Proof.
  intros Hne Hlen Hplain. split.
  - apply trim_clean. eapply Forall_impl; [exact Hplain|]. by intros c [? _].
  - apply filenameErrorOf_valid; [done|done|].
    destruct (invalidChars_test v) eqn:Htest; [|done].
    apply invalidChars_test_spec in Htest as (c & Hc & Hbad).
    rewrite Forall_forall in Hplain. by destruct (Hplain c Hc) as [_ []].
Qed.

Lemma uint_units_digits d : Forall (λ c, (48 ≤ c ≤ 57)%N) (uint_units d).
Proof. induction d; simpl; constructor; (lia || done). Qed.

Lemma digit_plain c :
  (48 ≤ c ≤ 57)%N ∨ c = 45%N → is_whitespace c = false ∧ c ∉ invalidCharCodes.
Proof.
  intros Hc. split.
  - apply bool_decide_eq_false. intros Hin.
    repeat (apply elem_of_cons in Hin as [->|Hin]; [lia|]). by apply elem_of_nil in Hin.
  - intros Hin. unfold invalidCharCodes in Hin.
    repeat (apply elem_of_cons in Hin as [->|Hin]; [lia|]). by apply elem_of_nil in Hin.
Qed.

Lemma plain_literal (s : string) :
  forallb (λ c, negb (is_whitespace c)
                && negb (bool_decide (c ∈ invalidCharCodes))) (js s) = true →
  Forall (λ c, is_whitespace c = false ∧ c ∉ invalidCharCodes) (js s).
Proof.
  intros H. apply Forall_forall. intros c Hc.
  rewrite forallb_forall in H. apply list_elem_of_In in Hc.
  apply H in Hc. apply andb_true_iff in Hc as [Hw Hi].
  apply negb_true_iff in Hw, Hi. split; [done|]. by apply bool_decide_eq_false in Hi.
Qed.

(** The outcome of a template whose name is plain. *)
Lemma template_accepted t a filename :
  (match t with
   | TplMerged => js "merged"
   | TplPages => js "pages_1-" ++ num (length (pagesToExport (state a)))
   | TplDate => js "document_" ++ today a
   | TplCustom | TplOther _ =>
       match filenameInput_value (elements a) with [] => js "merged" | v => v end
   end) = filename →
  trim filename = filename → filenameErrorOf filename = [] →
  currentFilename (state (selectFilenameTemplate t a)) = filename
  ∧ filenameInput_value (elements (selectFilenameTemplate t a)) = filename
  ∧ filenameError_textContent (elements (selectFilenameTemplate t a)) = []
  ∧ confirmExport_disabled (elements (selectFilenameTemplate t a)) = false.
Proof.
  intros Hname Htrim Herr.
  unfold selectFilenameTemplate, updateFilenameFromTemplate.
  change (filenameTemplate (state (set_filenameTemplate t a))) with t.
  change (pagesToExport (state (set_filenameTemplate t a)))
    with (pagesToExport (state a)).
  change (today (set_filenameTemplate t a)) with (today a).
  change (filenameInput_value (elements (set_filenameTemplate t a)))
    with (filenameInput_value (elements a)).
  rewrite Hname. unfold validateFilenameInput. simpl.
  rewrite Htrim, Herr. done.
Qed.

(** X13: the fixed templates always give an acceptable filename: with
    the merged template, the pages template (for a page count of at most
    92 digits) or the date template (for a date made of digits and dashes,
    at most 91 long), the input holds the template's name, no message is
    shown, the confirm button is enabled and the name is the current
    filename. *)
Theorem fixed_templates_are_accepted (a : App) :
  let done_with t filename :=
    currentFilename (state (selectFilenameTemplate t a)) = filename
    ∧ filenameInput_value (elements (selectFilenameTemplate t a)) = filename
    ∧ filenameError_textContent (elements (selectFilenameTemplate t a)) = []
    ∧ confirmExport_disabled (elements (selectFilenameTemplate t a)) = false in
  done_with TplMerged (js "merged")
  ∧ (length (num (length (pagesToExport (state a)))) ≤ 92 →
     done_with TplPages (js "pages_1-" ++ num (length (pagesToExport (state a)))))
  ∧ (Forall (λ c, (48 ≤ c ≤ 57)%N ∨ c = 45%N) (today a) → length (today a) ≤ 91 →
     done_with TplDate (js "document_" ++ today a)).
Proof.
  intros done_with. subst done_with. cbn beta. split; [|split].
  - apply template_accepted; [done|vm_compute; reflexivity|vm_compute; reflexivity].
  - intros Hlen.
    destruct (plain_name_accepted (js "pages_1-" ++ num (length (pagesToExport (state a)))))
      as [Htrim Herr].
    + intros [H _]%app_eq_nil. vm_compute in H. discriminate H.
    + rewrite length_app. change (length (js "pages_1-")) with 8. lia.
    + apply Forall_app. split; [by apply plain_literal|].
      eapply Forall_impl; [apply uint_units_digits|].
      intros c Hc. apply digit_plain. by left.
    + by apply template_accepted.
  - intros Hiso Hlen.
    destruct (plain_name_accepted (js "document_" ++ today a)) as [Htrim Herr].
    + intros [H _]%app_eq_nil. vm_compute in H. discriminate H.
    + rewrite length_app. change (length (js "document_")) with 9. lia.
    + apply Forall_app. split; [by apply plain_literal|].
      eapply Forall_impl; [exact Hiso|]. apply digit_plain.
    + by apply template_accepted.
Qed.

Lemma fixed_templates_are_accepted_witness :
  currentFilename (state (selectFilenameTemplate TplPages app_first_and_third))
  = js "pages_1-2"
  ∧ currentFilename (state (selectFilenameTemplate TplDate app_first_and_third))
    = js "document_2024-01-31".
Proof.
  destruct (fixed_templates_are_accepted app_first_and_third) as (_ & Hpages & Hdate).
  split.
  - destruct Hpages as [-> _]; [vm_compute; lia|]. vm_compute. reflexivity.
  - destruct Hdate as [-> _].
    + apply Forall_forall. intros c Hc. vm_compute in Hc.
      repeat (apply elem_of_cons in Hc as [->|Hc]; [lia|]). by apply elem_of_nil in Hc.
    + vm_compute. lia.
    + reflexivity.
Defined.


(** ** Pages appended by a batch *)


(** X14: a batch whose documents all decode and render, started while
    no operation is running, is flattened in order: the pages appended
    are the pages of the first file in page order, then those of the
    second, and so on; the pages of a file share one new array holding
    the bytes of the file, and the arrays of different files differ;
    every new page is unrotated, is numbered one more than its index,
    and gets the id of the next call of the generator; the cards are
    redrawn from the new collection. *)
Theorem batch_is_flattened_in_order `{C : Collaborators} (files : list File) (a : App) :
  isProcessing (state a) = false →
  Forall renders files →
  ∃ ps,
    pages (state (processFiles files a)) = pages (state a) ++ ps
    ∧ (λ p, (sourceFile p, pageIndex p, pdfBytes p)) <$> ps
      = batchLayout files (heapNext a)
    ∧ Forall (λ p, rotation p = 0 ∧ originalPageNumber p = pageIndex p + 1) ps
    ∧ page_id <$> ps = generateId <$> seq (idCalls a) (length ps)
    ∧ pageGrid (elements (processFiles files a))
      = page_id <$> pages (state (processFiles files a)).
Proof.
  intros Hflag Hall.
  destruct (processFiles_detail files a Hflag)
    as (ps & new & Hs & _ & _ & _ & Hids & Hps & _ & _ & Hok).
  destruct (Hok Hall) as (Hlayout & _ & _ & _ & Hgrid).
  exists ps. rewrite Hs. simpl. split; [done|]. split; [done|].
  split; [|split; [done|by rewrite Hgrid, Hs]].
  eapply Forall_impl; [exact Hps|].
  by intros p (f & h & _ & _ & _ & _ & Hr & Hn & _).
Qed.

Lemma batch_is_flattened_in_order_witness :
  ∃ ps,
    pages (state (processFiles (C := toy) [file_two_pages; file_three_pages] app_three))
    = pages (state app_three) ++ ps
    ∧ (λ p, (sourceFile p, pageIndex p, pdfBytes p)) <$> ps
      = batchLayout (C := toy) [file_two_pages; file_three_pages] (heapNext app_three)
    ∧ Forall (λ p, rotation p = 0 ∧ originalPageNumber p = pageIndex p + 1) ps
    ∧ page_id <$> ps = generateId (Collaborators := toy) <$> seq (idCalls app_three) (length ps)
    ∧ pageGrid (elements (processFiles (C := toy) [file_two_pages; file_three_pages] app_three))
      = page_id <$> pages (state (processFiles (C := toy) [file_two_pages; file_three_pages]
                                    app_three)).
Proof.
  apply (batch_is_flattened_in_order (C := toy) [file_two_pages; file_three_pages] app_three).
  - reflexivity.
  - toy_renders.
Defined.

(** X15: for a batch whose documents all decode and render, started
    while no operation is running, the loading text is updated once per page,
    counting from one to the number of pages of the batch (the number
    found by the first pass), the only toast is the success toast, which
    reports that number and the number of files, and the collection
    grows by that number. *)
Theorem batch_progress_counts_every_page `{C : Collaborators}
    (files : list File) (a : App) :
  isProcessing (state a) = false →
  Forall renders files →
  ∃ new,
    effects (processFiles files a) = effects a ++ new
    ∧ progressUpdates new
      = (λ k, js "Processing page " ++ num k ++ js " of "
              ++ num (batchPageCount files) ++ js "...")
        <$> seq 1 (batchPageCount files)
    ∧ toasts new
      = [(js "Added " ++ num (batchPageCount files) ++ js " pages from "
          ++ num (length files) ++ js " file(s)", success)]
    ∧ length (pages (state (processFiles files a)))
      = length (pages (state a)) + batchPageCount files.
Proof.
  intros Hflag Hall.
  destruct (processFiles_detail files a Hflag)
    as (ps & new & Hs & He & _ & _ & _ & _ & _ & _ & Hok).
  destruct (Hok Hall) as (_ & Ht & Hp & Hlen & _).
  exists new. split; [done|]. split; [done|].
  split; [by rewrite <- Hlen|].
  rewrite Hs. simpl. rewrite length_app. lia.
Qed.

Lemma batch_progress_counts_every_page_witness :
  ∃ new,
    effects (processFiles (C := toy) [file_two_pages; file_three_pages] app_three)
    = effects app_three ++ new
    ∧ progressUpdates new
      = (λ k, js "Processing page " ++ num k ++ js " of "
              ++ num (batchPageCount (C := toy) [file_two_pages; file_three_pages])
              ++ js "...")
        <$> seq 1 (batchPageCount (C := toy) [file_two_pages; file_three_pages])
    ∧ toasts new
      = [(js "Added " ++ num (batchPageCount (C := toy) [file_two_pages; file_three_pages])
          ++ js " pages from "
          ++ num (length [file_two_pages; file_three_pages]) ++ js " file(s)", success)]
    ∧ length (pages (state (processFiles (C := toy) [file_two_pages; file_three_pages]
                              app_three)))
      = length (pages (state app_three))
        + batchPageCount (C := toy) [file_two_pages; file_three_pages].
Proof.
  apply (batch_progress_counts_every_page (C := toy)
           [file_two_pages; file_three_pages] app_three).
  - reflexivity.
  - toy_renders.
Defined.

(** ** The collection in the states the application can reach *)

Lemma validateFilenameInput_sources a : same_sources a (validateFilenameInput a).1.
Proof. unfold validateFilenameInput. simpl. by case_bool_decide. Qed.

Lemma updateFilenameFromTemplate_sources a :
  same_sources a (updateFilenameFromTemplate a).
Proof.
  unfold updateFilenameFromTemplate.
  match goal with |- same_sources _ (validateFilenameInput ?b).1 =>
    destruct (validateFilenameInput_sources b) as (Hp & Hi & Hh) end.
  by repeat split; rewrite ?Hp, ?Hi, ?Hh.
Qed.

Lemma showExportPreview_sources a : same_sources a (showExportPreview a).
Proof.
  unfold showExportPreview. destruct (pages (state a)) eqn:E; [done|].
  match goal with |- same_sources _ (set_exportModal_visible _ (updateFilenameFromTemplate ?b)) =>
    destruct (updateFilenameFromTemplate_sources b) as (Hp & Hi & Hh) end.
  by repeat split; simpl; rewrite ?Hp, ?Hi, ?Hh.
Qed.

Section Collection.
Context `{C : Collaborators}.

Lemma splitSelected_sources a : same_sources a (splitSelected a).
Proof.
  destruct (decide (size (selectedIds (state a)) = 0)) as [Hz|Hnz].
  - unfold splitSelected, splitSelected_begin. by rewrite decide_True.
  - by destruct (splitSelected_run a Hnz) as (k & new & -> & _).
Qed.

Lemma mergeAndExport_sources a : same_sources a (mergeAndExport a).
Proof.
  destruct (pages (state a)) as [|p ps] eqn:Hps.
  - unfold mergeAndExport, mergeAndExport_begin. by rewrite Hps.
  - destruct (mergeAndExport_run a) as (new & -> & _); [by rewrite Hps|done].
Qed.

Lemma confirmAndExport_sources a : same_sources a (confirmAndExport a).
Proof.
  unfold confirmAndExport.
  pose proof (validateFilenameInput_sources a) as (Hp & Hi & Hh).
  destruct (validateFilenameInput a) as [a1 [|]]; simpl in *; [|done].
  destruct (mergeAndExport_sources (hideExportPreview a1)) as (Hp' & Hi' & Hh').
  repeat split; simpl in *; congruence.
Qed.

(** What a handler does to the collection: it keeps some of the pages,
    or turns one page, or appends the pages of a batch. *)
Lemma handle_collection a ev :
  (pages (state (handle ev a)) ⊆+ pages (state a)
   ∧ idCalls (handle ev a) = idCalls a ∧ heapNext (handle ev a) = heapNext a)
  ∨ (∃ k p, pages (state a) !! k = Some p
            ∧ pages (state (handle ev a))
              = <[k := set_rotation ((rotation p + 90) `mod` 360) p]> (pages (state a))
            ∧ idCalls (handle ev a) = idCalls a ∧ heapNext (handle ev a) = heapNext a)
  ∨ (∃ ps, pages (state (handle ev a)) = pages (state a) ++ ps
           ∧ idCalls (handle ev a) = idCalls a + length ps
           ∧ heapNext a ≤ heapNext (handle ev a)
           ∧ page_id <$> ps = generateId <$> seq (idCalls a) (length ps)
           ∧ Forall (λ p, ∃ f h, heapNext a ≤ h < heapNext (handle ev a)
                                 ∧ page_of_file f h p) ps
           ∧ sources_coherent ps).
Proof.
  assert (∀ a', same_sources a a' →
                pages (state a') ⊆+ pages (state a)
                ∧ idCalls a' = idCalls a ∧ heapNext a' = heapNext a) as Hsame.
  { by intros a' (-> & -> & ->). }
  assert (∀ files,
    (pages (state (processFiles files a)) ⊆+ pages (state a)
     ∧ idCalls (processFiles files a) = idCalls a
     ∧ heapNext (processFiles files a) = heapNext a)
    ∨ (∃ ps, pages (state (processFiles files a)) = pages (state a) ++ ps
           ∧ idCalls (processFiles files a) = idCalls a + length ps
           ∧ heapNext a ≤ heapNext (processFiles files a)
           ∧ page_id <$> ps = generateId <$> seq (idCalls a) (length ps)
           ∧ Forall (λ p, ∃ f h, heapNext a ≤ h < heapNext (processFiles files a)
                                 ∧ page_of_file f h p) ps
           ∧ sources_coherent ps)) as Hfiles.
  { intros files. destruct (isProcessing (state a)) eqn:Hflag.
    { left. unfold processFiles, processFiles_begin. by rewrite Hflag. }
    right.
    destruct (processFiles_detail files a Hflag)
      as (ps & new & Hs & _ & Hi & Hh & Hids & Hps & Hco & _).
    exists ps. rewrite Hs. simpl. repeat split; try done.
    eapply Forall_impl; [exact Hps|]. intros p (f & h & _ & Hr & Hp). by exists f, h. }
  destruct ev as [i|i|i| |i| | | | | | |v|t| |files|files]; simpl.
  - left. unfold togglePageSelection. by case_decide.
  - unfold rotatePage.
    destruct (list_find _ _) as [[k p]|] eqn:E; [|by left].
    right; left. apply list_find_Some in E as (Hk & _). by exists k, p.
  - by left.
  - by left.
  - left.
    destruct (handlePageDrop_cases a i)
      as [->|(d & di & ti & dp & _ & _ & _ & _ & Hdp & ->)]; [done|].
    simpl. split; [|done].
    apply Permutation_submseteq, move_Permutation, Hdp.
  - left. unfold deleteSelected. case_decide; [done|]. simpl. split; [|done].
    apply sublist_submseteq, sublist_filter.
  - by left.
  - left. simpl. split; [apply submseteq_nil_l|done].
  - left. apply Hsame, splitSelected_sources.
  - left. apply Hsame, showExportPreview_sources.
  - by left.
  - left. apply Hsame, (validateFilenameInput_sources (set_filenameInput_value v a)).
  - left. apply Hsame, (updateFilenameFromTemplate_sources (set_filenameTemplate t a)).
  - left. apply Hsame, confirmAndExport_sources.
  - unfold handleFileSelect. destruct files as [|f files]; [by left|].
    destruct (Hfiles (f :: files)) as [H|H]; [by left|by right; right].
  - unfold handleFileDrop. destruct (filter _ files) as [|f fs]; [by left|].
    destruct (Hfiles (f :: fs)) as [H|H]; [by left|by right; right].
Qed.

Lemma sources_coherent_fmap l l' :
  (∀ p, p ∈ l' → ∃ q, q ∈ l ∧ source q = source p) →
  sources_coherent l → sources_coherent l'.
Proof.
  intros Hsub Hco p q Hp Hq Haddr.
  destruct (Hsub p Hp) as (p0 & Hp0 & Ep). destruct (Hsub q Hq) as (q0 & Hq0 & Eq).
  rewrite <- Ep, <- Eq. apply Hco; [done|done|].
  unfold source in Ep, Eq. congruence.
Qed.

Lemma sources_ok_submseteq l l' heap :
  l' ⊆+ l → sources_ok l heap → sources_ok l' heap.
Proof.
  intros Hsub (Hsrc & Hrot & Haddr & Hco).
  assert (∀ P : PageData → Prop, Forall P l → Forall P l') as Hall.
  { intros P HP. apply Forall_forall. intros p Hp.
    eapply Forall_forall; [exact HP|]. by eapply elem_of_submseteq. }
  repeat split; [by apply Hall..|].
  eapply sources_coherent_fmap; [|exact Hco].
  intros p Hp. exists p. split; [by eapply elem_of_submseteq|done].
Qed.

Lemma quarter_turn_valid r :
  r ∈ [0; 90; 180; 270] → (r + 90) `mod` 360 ∈ [0; 90; 180; 270].
Proof.
  intros Hr. repeat (apply elem_of_cons in Hr as [->|Hr]);
    [..|by apply elem_of_nil in Hr]; vm_compute; set_solver.
Qed.

Lemma sources_ok_rotate l heap k p r :
  l !! k = Some p → r ∈ [0; 90; 180; 270] →
  sources_ok l heap → sources_ok (<[k := set_rotation r p]> l) heap.
Proof.
  intros Hk Hr (Hsrc & Hrot & Haddr & Hco).
  pose proof (list_elem_of_lookup_2 _ _ _ Hk) as Hp.
  repeat split.
  - apply Forall_insert; [done|]. by eapply (proj1 (Forall_forall _ _) Hsrc) in Hp.
  - by apply Forall_insert.
  - apply Forall_insert; [done|]. by eapply (proj1 (Forall_forall _ _) Haddr) in Hp.
  - eapply sources_coherent_fmap; [|exact Hco].
    intros q Hq. apply list_elem_of_lookup in Hq as [j Hj].
    apply list_lookup_insert_Some in Hj as [(_ & <- & _)|(_ & Hj)].
    + by exists p.
    + exists q. split; [by eapply list_elem_of_lookup_2|done].
Qed.

Lemma sources_ok_append l ps heap heap' :
  heap ≤ heap' →
  Forall (λ p, ∃ f h, heap ≤ h < heap' ∧ page_of_file f h p) ps →
  sources_coherent ps →
  sources_ok l heap → sources_ok (l ++ ps) heap'.
Proof.
  intros Hle Hps Hnew (Hsrc & Hrot & Haddr & Hco).
  rewrite Forall_forall in Hps.
  repeat split.
  - apply Forall_app. split; [done|]. apply Forall_forall. intros p Hp.
    destruct (Hps p Hp) as (f & h & _ & Hb & _ & _ & Hn & Hi & doc & Hdoc).
    split; [|done]. exists doc. rewrite Hb. simpl. split; [done|].
    unfold pageCountOf in Hi. by rewrite Hdoc in Hi.
  - apply Forall_app. split; [done|]. apply Forall_forall. intros p Hp.
    destruct (Hps p Hp) as (f & h & _ & _ & _ & Hr & _).
    unfold rotation_valid. rewrite Hr. apply list_elem_of_here.
  - apply Forall_app. split.
    + eapply Forall_impl; [exact Haddr|]. simpl. lia.
    + apply Forall_forall. intros p Hp.
      destruct (Hps p Hp) as (f & h & Hh & Hb & _). rewrite Hb. simpl. lia.
  - rewrite Forall_forall in Haddr.
    intros p q [Hp|Hp]%elem_of_app [Hq|Hq]%elem_of_app E.
    + by apply Hco.
    + destruct (Hps q Hq) as (f & h & Hh & Hb & _). rewrite Hb in E. simpl in E.
      specialize (Haddr p Hp). simpl in Haddr. lia.
    + destruct (Hps p Hp) as (f & h & Hh & Hb & _). rewrite Hb in E. simpl in E.
      specialize (Haddr q Hq). simpl in Haddr. lia.
    + by apply Hnew.
Qed.

Lemma handle_sources_ok a ev :
  sources_ok (pages (state a)) (heapNext a) →
  sources_ok (pages (state (handle ev a))) (heapNext (handle ev a)).
Proof.
  intros Hok.
  destruct (handle_collection a ev)
    as [(Hsub & _ & ->)|[(k & p & Hk & -> & _ & ->)|(ps & -> & _ & Hh & _ & Hps & Hco)]].
  - by eapply sources_ok_submseteq.
  - apply sources_ok_rotate; [done| |done].
    apply quarter_turn_valid. destruct Hok as (_ & Hrot & _).
    eapply (proj1 (Forall_forall _ _) Hrot). by eapply list_elem_of_lookup_2.
  - by eapply sources_ok_append.
Qed.

Lemma reachable_sources_ok date a :
  reachable date a → sources_ok (pages (state a)) (heapNext a).
Proof.
  induction 1 as [|a ev _ IH _].
  - simpl. repeat split; try by constructor. intros p q Hp. by apply elem_of_nil in Hp.
  - by apply handle_sources_ok.
Qed.

Section Ids.
Hypothesis generateId_inj : ∀ i j, generateId i = generateId j → i = j.

Lemma ids_ok_submseteq l l' calls :
  l' ⊆+ l → ids_ok l calls → ids_ok l' calls.
Proof.
  intros Hsub (Hnd & Hiss). split.
  - assert (page_id <$> l' ⊆+ page_id <$> l) as Hids by (by apply fmap_submseteq).
    apply submseteq_Permutation in Hids as [k Hk].
    rewrite Hk in Hnd. by apply NoDup_app in Hnd as (Hnd & _).
  - apply Forall_forall. intros p Hp.
    eapply Forall_forall; [exact Hiss|]. by eapply elem_of_submseteq.
Qed.

Lemma ids_ok_rotate l calls k p r :
  l !! k = Some p → ids_ok l calls → ids_ok (<[k := set_rotation r p]> l) calls.
Proof.
  intros Hk (Hnd & Hiss). split.
  - rewrite list_fmap_insert. simpl.
    rewrite list_insert_id; [done|]. by rewrite list_lookup_fmap, Hk.
  - apply Forall_insert; [done|].
    assert (id_issued calls p) as (j & Hj & Ej).
    { eapply (proj1 (Forall_forall _ _) Hiss). by eapply list_elem_of_lookup_2. }
    by exists j.
Qed.

Lemma ids_ok_append l ps calls :
  page_id <$> ps = generateId <$> seq calls (length ps) →
  ids_ok l calls → ids_ok (l ++ ps) (calls + length ps).
Proof.
  intros Hids (Hnd & Hiss). rewrite Forall_forall in Hiss. split.
  - rewrite fmap_app, Hids. apply NoDup_app. split; [done|]. split.
    + intros i Hi Hi'.
      apply list_elem_of_fmap in Hi as (p & -> & Hp).
      destruct (Hiss p Hp) as (k & Hk & Ek).
      apply list_elem_of_fmap in Hi' as (j & Ej & Hj).
      apply elem_of_seq in Hj. rewrite Ek in Ej. apply generateId_inj in Ej. lia.
    + apply NoDup_fmap_2_strong; [|apply NoDup_seq].
      intros i j _ _. apply generateId_inj.
  - apply Forall_app. split.
    + apply Forall_forall. intros p Hp. destruct (Hiss p Hp) as (k & Hk & Ek).
      exists k. split; [lia|done].
    + apply Forall_forall. intros p Hp.
      apply list_elem_of_lookup in Hp as [j Hj].
      assert ((page_id <$> ps) !! j = Some (page_id p)) as Hj'
        by (by rewrite list_lookup_fmap, Hj).
      rewrite Hids, list_lookup_fmap in Hj'.
      destruct (seq calls (length ps) !! j) as [k|] eqn:Ek; [|done].
      apply lookup_seq in Ek as [-> Hlt]. simpl in Hj'.
      exists (calls + j). split; [lia|congruence].
Qed.

Lemma handle_ids_ok a ev :
  ids_ok (pages (state a)) (idCalls a) →
  ids_ok (pages (state (handle ev a))) (idCalls (handle ev a)).
Proof.
  intros Hok.
  destruct (handle_collection a ev)
    as [(Hsub & -> & _)|[(k & p & Hk & -> & -> & _)|(ps & -> & -> & _ & Hids & _)]].
  - by eapply ids_ok_submseteq.
  - by apply ids_ok_rotate.
  - by apply ids_ok_append.
Qed.

Lemma reachable_ids_ok date a :
  reachable date a → ids_ok (pages (state a)) (idCalls a).
Proof.
  induction 1 as [|a ev _ IH _].
  - split; simpl; constructor.
  - by apply handle_ids_ok.
Qed.
End Ids.
End Collection.


Lemma toy_generateId_inj i j :
  generateId (Collaborators := toy) i = generateId (Collaborators := toy) j → i = j.
Proof.
  change (js "page_" ++ num i = js "page_" ++ num j → i = j).
  intros H. apply (app_inv_head (js "page_")) in H. by apply num_inj.
Qed.

(** X16: as long as the id generator never returns the same id twice,
    the pages of every collection the application can reach have pairwise
    distinct ids: uploads give each page the id of a new call, and
    rotation, reordering and deletion create no page. *)
Theorem page_ids_stay_distinct `{C : Collaborators} (date : jsstring) (a : App) :
  (∀ i j, generateId i = generateId j → i = j) →
  reachable date a →
  NoDup (page_id <$> pages (state a)).
Proof.
  intros Hinj Hreach. by destruct (reachable_ids_ok Hinj date a Hreach) as [Hnd _].
Qed.

Lemma page_ids_stay_distinct_witness :
  NoDup (page_id <$> pages (state session_two_clicks)).
Proof.
  apply (page_ids_stay_distinct (C := toy) (js "2024-01-31") session_two_clicks).
  - exact toy_generateId_inj.
  - session_reachable.
Defined.

(** X17: every page of a collection the application can reach refers to
    a page that exists: its bytes decode to a document, its page index is
    below the page count of that document, the page number shown is the
    index plus one, and its rotation is 0, 90, 180 or 270. *)
Theorem reachable_pages_exist_in_their_source `{C : Collaborators}
    (date : jsstring) (a : App) (p : PageData) :
  reachable date a →
  p ∈ pages (state a) →
  (∃ doc, PDFDocument_load (bytes (pdfBytes p)) = Ok doc
          ∧ pageIndex p < getPageCount doc)
  ∧ originalPageNumber p = pageIndex p + 1
  ∧ rotation p ∈ [0; 90; 180; 270].
Proof.
  intros Hreach Hp.
  destruct (reachable_sources_ok date a Hreach) as (Hsrc & Hrot & _).
  rewrite Forall_forall in Hsrc, Hrot.
  destruct (Hsrc p Hp) as [Hdoc Hnum]. split; [done|]. split; [done|].
  by apply Hrot.
Qed.

Lemma reachable_pages_exist_in_their_source_witness :
  ∃ p, pages (state session_two_clicks) !! 2 = Some p
       ∧ (∃ doc, PDFDocument_load (Collaborators := toy) (bytes (pdfBytes p)) = Ok doc
                 ∧ pageIndex p < getPageCount (Collaborators := toy) doc)
       ∧ originalPageNumber p = pageIndex p + 1
       ∧ rotation p ∈ [0; 90; 180; 270].
Proof.
  eexists. split; [vm_compute; reflexivity|].
  apply (reachable_pages_exist_in_their_source (C := toy) (js "2024-01-31")
           session_two_clicks).
  - session_reachable.
  - apply (list_elem_of_lookup_2 _ 2). vm_compute. reflexivity.
Defined.

(** X18: in a collection the application can reach, two pages that
    share their byte array were read from the same file: they hold the
    same bytes and carry the same source file name.  The size estimate,
    which groups pages by array, therefore groups them by uploaded
    file. *)
Theorem pages_sharing_an_array_share_the_file `{C : Collaborators}
    (date : jsstring) (a : App) (p q : PageData) :
  reachable date a →
  p ∈ pages (state a) → q ∈ pages (state a) →
  same_object (pdfBytes p) (pdfBytes q) = true →
  pdfBytes p = pdfBytes q ∧ sourceFile p = sourceFile q.
Proof.
  intros Hreach Hp Hq Hsame.
  destruct (reachable_sources_ok date a Hreach) as (_ & _ & _ & Hco).
  assert (source p = source q) as E.
  { apply Hco; [done|done|]. unfold same_object in Hsame.
    by apply Nat.eqb_eq in Hsame. }
  unfold source in E. by inversion E.
Qed.

Lemma pages_sharing_an_array_share_the_file_witness :
  ∃ p q, pages (state session_two_clicks) !! 0 = Some p
         ∧ pages (state session_two_clicks) !! 2 = Some q
         ∧ pdfBytes p = pdfBytes q ∧ sourceFile p = sourceFile q.
Proof.
  eexists _, _. split; [vm_compute; reflexivity|]. split; [vm_compute; reflexivity|].
  apply (pages_sharing_an_array_share_the_file (C := toy) (js "2024-01-31")
           session_two_clicks).
  - session_reachable.
  - apply (list_elem_of_lookup_2 _ 0). vm_compute. reflexivity.
  - apply (list_elem_of_lookup_2 _ 2). vm_compute. reflexivity.
  - vm_compute. reflexivity.
Defined.

(** ** Exports from a reachable collection *)

Section ReachableExports.
Context `{C : Collaborators}.
Hypothesis copyPages_in_range :
  ∀ doc i, i < getPageCount doc → ∃ pg, copyPages doc i = Ok pg.

Lemma reachable_page_copies date a p :
  reachable date a → p ∈ pages (state a) → ∃ out, copy_of p out.
Proof.
  intros Hreach Hp.
  destruct (reachable_sources_ok date a Hreach) as (Hsrc & _).
  rewrite Forall_forall in Hsrc.
  destruct (Hsrc p Hp) as [(doc & Hdoc & Hi) _].
  destruct (copyPages_in_range doc (pageIndex p) Hi) as [pg Hpg].
  exists {| copied := pg;
            setRotation := if decide (rotation p = 0) then None else Some (rotation p) |}.
  by exists doc.
Qed.

Lemma copies_of_list l :
  Forall (λ p, ∃ out, copy_of p out) l → ∃ outs, Forall2 copy_of l outs.
Proof.
  induction 1 as [|p l [out Hout] _ [outs Houts]].
  - by exists [].
  - exists (out :: outs). by constructor.
Qed.
End ReachableExports.

(** X19: the pages of a reachable collection never make a merge fail.
    If the copier accepts every index below the page count of a document
    and the serializer succeeds, then a merge of a reachable, non-empty
    collection emits exactly one file, the serialization of the planned
    pages under the current filename, and ends with a success toast. *)
Theorem merge_of_reachable_collection_succeeds `{C : Collaborators}
    (date : jsstring) (a : App) :
  (∀ doc i, i < getPageCount doc → ∃ pg, copyPages doc i = Ok pg) →
  (∀ outs, ∃ saved, save outs exportOptions = Ok saved) →
  reachable date a →
  pages (state a) ≠ [] →
  ∃ saved m new,
    effects (mergeAndExport a) = effects a ++ new
    ∧ serialized (pagesToExport (state a)) saved
    ∧ downloads new = [(saved, currentFilename (state a) ++ js ".pdf")]
    ∧ toasts new = [(m, success)].
Proof.
  intros Hcopy Hsave Hreach Hne.
  destruct (mergeAndExport_run a Hne) as (new & -> & Hrun).
  destruct Hrun as [(saved & m & Hser & Hd & Ht)|(Hfail & _)].
  - by exists saved, m, new.
  - destruct Hfail.
    destruct (copies_of_list (pagesToExport (state a))) as [outs Houts].
    { apply Forall_forall. intros p Hp.
      apply (reachable_page_copies Hcopy date a); [done|].
      rewrite pagesToExport_plan in Hp. case_decide; [done|].
      by apply list_elem_of_filter in Hp as [_ Hp]. }
    destruct (Hsave outs) as [saved Hsaved]. exists saved, outs. by split.
Qed.

Lemma merge_of_reachable_collection_succeeds_witness :
  ∃ saved m new,
    effects (mergeAndExport (C := toy) session_two_clicks)
    = effects session_two_clicks ++ new
    ∧ serialized (C := toy) (pagesToExport (state session_two_clicks)) saved
    ∧ downloads new = [(saved, currentFilename (state session_two_clicks) ++ js ".pdf")]
    ∧ toasts new = [(m, success)].
Proof.
  apply (merge_of_reachable_collection_succeeds (C := toy) (js "2024-01-31")
           session_two_clicks).
  - intros doc i Hi. exists (doc, i).
    change (toy_copyPages doc i = Ok (doc, i)).
    unfold toy_copyPages. by rewrite decide_True.
  - intros outs. by eexists.
  - session_reachable.
  - vm_compute. discriminate.
Defined.

(** X20: if the copier accepts every index below the page count of a
    document and the serializer succeeds, a split of a reachable state with a
    non-empty selection emits one file for every page of the collection
    whose id is selected, in collection order, each the serialization of
    that one page, named
    [page_1.pdf], [page_2.pdf], ... and ends with a success toast. *)
Theorem split_of_reachable_selection_succeeds `{C : Collaborators}
    (date : jsstring) (a : App) :
  (∀ doc i, i < getPageCount doc → ∃ pg, copyPages doc i = Ok pg) →
  (∀ outs, ∃ saved, save outs exportOptions = Ok saved) →
  reachable date a →
  size (selectedIds (state a)) ≠ 0 →
  ∃ m new,
    effects (splitSelected a) = effects a ++ new
    ∧ Forall2 (λ p d, serialized [p] d.1)
        (filter (λ p, page_id p ∈ selectedIds (state a)) (pages (state a)))
        (downloads new)
    ∧ (downloads new).*2
      = (λ i, js "page_" ++ num i ++ js ".pdf")
        <$> seq 1 (length (filter (λ p, page_id p ∈ selectedIds (state a))
                             (pages (state a))))
    ∧ toasts new = [(m, success)].
Proof.
  intros Hcopy Hsave Hreach Hsel.
  destruct (splitSelected_run a Hsel) as (k & new & -> & Hk & Hdocs & Hnames & Hend).
  unfold selectedPages in Hk, Hdocs, Hend.
  destruct Hend as [(-> & _ & m & Ht)|(_ & _ & (p & Hlook & Hbad) & _)].
  - exists m, new. rewrite firstn_all in Hdocs. by repeat split.
  - destruct Hbad.
    assert (p ∈ pages (state a)) as Hp.
    { apply list_elem_of_lookup_2 in Hlook.
      by apply list_elem_of_filter in Hlook as [_ Hp]. }
    destruct (reachable_page_copies Hcopy date a p Hreach Hp) as [out Hout].
    destruct (Hsave [out]) as [saved Hsaved].
    exists saved, [out]. split; [by repeat constructor|done].
Qed.

Lemma split_of_reachable_selection_succeeds_witness :
  ∃ m new,
    effects (splitSelected (C := toy) session_two_clicks)
    = effects session_two_clicks ++ new
    ∧ Forall2 (λ p d, serialized (C := toy) [p] d.1)
        (filter (λ p, page_id p ∈ selectedIds (state session_two_clicks))
           (pages (state session_two_clicks)))
        (downloads new)
    ∧ (downloads new).*2
      = (λ i, js "page_" ++ num i ++ js ".pdf")
        <$> seq 1 (length (filter (λ p, page_id p ∈ selectedIds (state session_two_clicks))
                             (pages (state session_two_clicks))))
    ∧ toasts new = [(m, success)].
Proof.
  apply (split_of_reachable_selection_succeeds (C := toy) (js "2024-01-31")
           session_two_clicks).
  - intros doc i Hi. exists (doc, i).
    change (toy_copyPages doc i = Ok (doc, i)).
    unfold toy_copyPages. by rewrite decide_True.
  - intros outs. by eexists.
  - session_reachable.
  - vm_compute. discriminate.
Defined.

(** ** Counting the selection *)

Lemma selected_length (X : gset jsstring) (l : list PageData) :
  NoDup (page_id <$> l) →
  (∀ i, i ∈ X → i ∈ page_id <$> l) →
  length (filter (λ p, page_id p ∈ X) l) = size X.
Proof.
  intros Hnd Hsub.
  set (l' := filter (λ p, page_id p ∈ X) l).
  assert (NoDup (page_id <$> l')) as Hnd'.
  { assert (page_id <$> l' ⊆+ page_id <$> l) as Hids.
    { apply fmap_submseteq, sublist_submseteq, sublist_filter. }
    apply submseteq_Permutation in Hids as [k Hk].
    rewrite Hk in Hnd. by apply NoDup_app in Hnd as (Hnd & _). }
  assert (X = list_to_set (C := gset jsstring) (page_id <$> l')) as HX.
  { apply set_eq. intros i. rewrite elem_of_list_to_set, list_elem_of_fmap. split.
    - intros Hi. pose proof (Hsub i Hi) as Hp.
      apply list_elem_of_fmap in Hp as (p & -> & Hp).
      exists p. split; [done|]. apply list_elem_of_filter. by split.
    - intros (p & -> & Hp). by apply list_elem_of_filter in Hp as [Hp _]. }
  transitivity (size (list_to_set (C := gset jsstring) (page_id <$> l')));
    [|by rewrite <- HX].
  rewrite size_list_to_set by done. by rewrite length_fmap.
Qed.

Lemma unselected_length (X : gset jsstring) (l : list PageData) :
  length (filter (λ p, page_id p ∉ X) l) + length (filter (λ p, page_id p ∈ X) l)
  = length l.
Proof.
  induction l as [|p l IH]; [done|].
  rewrite !filter_cons. destruct (decide (page_id p ∈ X)).
  - rewrite decide_False by (by intros H; apply H). simpl. lia.
  - rewrite decide_True by done. simpl. lia.
Qed.

(** X21: as long as the id generator never repeats an id, in every
    state the application can reach the selection counts pages: the
    number of selected pages of the collection is the size of the
    selection, which is the count the delete toast reports, and deleting
    removes exactly that many pages. *)
Theorem selection_counts_pages `{C : Collaborators} (date : jsstring) (a : App) :
  (∀ i j, generateId i = generateId j → i = j) →
  reachable date a →
  length (selectedPages (state a)) = size (selectedIds (state a))
  ∧ length (pages (state (deleteSelected a))) + size (selectedIds (state a))
    = length (pages (state a))
  ∧ (size (selectedIds (state a)) ≠ 0 →
     toasts (effects (deleteSelected a))
     = toasts (effects a)
       ++ [(js "Deleted " ++ num (length (pages (state a))
                                  - length (pages (state (deleteSelected a))))
            ++ js " page(s)", success)]).
Proof.
  intros Hinj Hreach.
  destruct (reachable_ids_ok Hinj date a Hreach) as [Hnd _].
  destruct (reachable_valid date a Hreach) as [Hsel _].
  rewrite selection_valid_ids in Hsel.
  pose proof (selected_length (selectedIds (state a)) (pages (state a)) Hnd Hsel) as Hlen.
  pose proof (unselected_length (selectedIds (state a)) (pages (state a))) as Hsum.
  split; [done|].
  destruct (decide (size (selectedIds (state a)) = 0)) as [Hz|Hnz].
  { unfold deleteSelected. rewrite decide_True by done. split; [lia|done]. }
  assert (pages (state (deleteSelected a))
          = filter (λ p, page_id p ∉ selectedIds (state a)) (pages (state a))) as ->.
  { unfold deleteSelected. by rewrite decide_False. }
  split; [lia|]. intros _.
  replace (length (pages (state a))
           - length (filter (λ p, page_id p ∉ selectedIds (state a)) (pages (state a))))
    with (size (selectedIds (state a))) by lia.
  unfold deleteSelected. rewrite decide_False by done.
  cbv zeta. unfold showToast. rewrite emit_log.
  change (effects (log ?es ?b)) with (effects a ++ es).
  by rewrite toasts_app.
Qed.

Lemma selection_counts_pages_witness :
  length (selectedPages (state session_two_clicks))
  = size (selectedIds (state session_two_clicks))
  ∧ length (pages (state (deleteSelected session_two_clicks)))
    + size (selectedIds (state session_two_clicks))
    = length (pages (state session_two_clicks))
  ∧ (size (selectedIds (state session_two_clicks)) ≠ 0 →
     toasts (effects (deleteSelected session_two_clicks))
     = toasts (effects session_two_clicks)
       ++ [(js "Deleted " ++ num (length (pages (state session_two_clicks))
                                  - length (pages (state (deleteSelected
                                                            session_two_clicks))))
            ++ js " page(s)", success)]).
Proof.
  apply (selection_counts_pages (C := toy) (js "2024-01-31") session_two_clicks).
  - exact toy_generateId_inj.
  - session_reachable.
Defined.

(** ** The cards and the collection *)

Section Cards.
Context `{C : Collaborators}.

Lemma same_collection_prefix a a' :
  same_collection a a' →
  pageGrid (elements a) `prefix_of` page_id <$> pages (state a) →
  pageGrid (elements a') `prefix_of` page_id <$> pages (state a').
Proof. by intros (-> & _ & ->). Qed.

Lemma processFiles_prefix files a :
  pageGrid (elements a) `prefix_of` page_id <$> pages (state a) →
  pageGrid (elements (processFiles files a))
    `prefix_of` page_id <$> pages (state (processFiles files a)).
Proof.
  intros Hpre. destruct (isProcessing (state a)) eqn:Hflag.
  { unfold processFiles, processFiles_begin. by rewrite Hflag. }
  destruct (processFiles_run files a Hflag) as (ps & new & Hs & _ & Hg & _).
  destruct Hg as [-> | ->]; [|done].
  rewrite Hs. simpl. rewrite fmap_app. by apply prefix_app_r.
Qed.

Lemma handle_prefix a ev :
  pageGrid (elements a) `prefix_of` page_id <$> pages (state a) →
  pageGrid (elements (handle ev a))
    `prefix_of` page_id <$> pages (state (handle ev a)).
Proof.
  intros Hpre.
  destruct ev as [i|i|i| |i| | | | | | |v|t| |files|files]; simpl.
  - unfold togglePageSelection. by case_decide.
  - destruct (rotatePage_ids i a) as (-> & _ & ->). done.
  - done.
  - done.
  - destruct (handlePageDrop_cases a i)
      as [->|(d & di & ti & dp & _ & _ & _ & _ & Hdp & ->)]; done.
  - unfold deleteSelected. by case_decide.
  - done.
  - done.
  - eapply same_collection_prefix; [apply splitSelected_same|done].
  - eapply same_collection_prefix; [apply showExportPreview_same|done].
  - done.
  - eapply same_collection_prefix; [|done].
    apply (validateFilenameInput_same (set_filenameInput_value v a)).
  - eapply same_collection_prefix; [|done].
    apply (updateFilenameFromTemplate_same (set_filenameTemplate t a)).
  - eapply same_collection_prefix; [apply confirmAndExport_same|done].
  - unfold handleFileSelect. destruct files as [|f files]; [done|].
    by apply processFiles_prefix.
  - unfold handleFileDrop. destruct (filter _ files) as [|f fs]; [done|].
    by apply processFiles_prefix.
Qed.
End Cards.

(** X22: in every state the application can reach, the cards shown are,
    in order, the first pages of the collection: no card is stale or out
    of order.  The cards can fall short of the collection, since an
    upload that fails in its second pass keeps the pages it had appended
    without redrawing. *)
Theorem cards_are_the_first_pages `{C : Collaborators} (date : jsstring) (a : App) :
  reachable date a →
  ∃ n, pageGrid (elements a) = take n (page_id <$> pages (state a)).
Proof.
  intros Hreach.
  assert (pageGrid (elements a) `prefix_of` page_id <$> pages (state a)) as [k Hk].
  { induction Hreach as [|a ev _ IH _]; [done|by apply handle_prefix]. }
  exists (length (pageGrid (elements a))). by rewrite Hk, take_app_length.
Qed.

Lemma cards_are_the_first_pages_witness :
  ∃ n, pageGrid (elements session_two_clicks)
       = take n (page_id <$> pages (state session_two_clicks)).
Proof.
  apply (cards_are_the_first_pages (C := toy) (js "2024-01-31") session_two_clicks).
  session_reachable.
Defined.

(** After an upload whose second document cannot be rendered, the two
    pages of the first document are in the collection and have no card. *)
Example cards_fall_short_after_failed_upload :
  let a := handle (C := toy) (FilesChosen batch_with_unrenderable)
             (initial (js "2024-01-31")) in
  length (pages (state a)) = 2 ∧ pageGrid (elements a) = [].
Proof. split; vm_compute; reflexivity. Qed.

(** ** From the preview to the file *)

Lemma validateFilenameInput_facts a :
  effects (validateFilenameInput a).1 = effects a
  ∧ pages (state (validateFilenameInput a).1) = pages (state a)
  ∧ selectedIds (state (validateFilenameInput a).1) = selectedIds (state a)
  ∧ filenameInput_value (elements (validateFilenameInput a).1)
    = filenameInput_value (elements a)
  ∧ statPageCount_textContent (elements (validateFilenameInput a).1)
    = statPageCount_textContent (elements a)
  ∧ (validateFilenameInput a).2
    = bool_decide (filenameErrorOf (trim (filenameInput_value (elements a))) = [])
  ∧ confirmExport_disabled (elements (validateFilenameInput a).1)
    = negb (validateFilenameInput a).2
  ∧ ((validateFilenameInput a).2 = true →
     currentFilename (state (validateFilenameInput a).1)
     = trim (filenameInput_value (elements a))).
Proof.
  unfold validateFilenameInput. cbv zeta.
  destruct (bool_decide (filenameErrorOf (trim (filenameInput_value (elements a))) = []));
    by repeat split.
Qed.

(** X23: the preview and the export agree.  When the preview of a
    non-empty collection leaves the confirm button enabled, the page count
    it shows is the length of the export plan, and confirming then emits,
    when the assembly succeeds, exactly one file: the planned pages of the
    collection as it was before the preview, under the filename the
    preview settled on. *)
Theorem preview_then_confirm_exports_the_plan `{C : Collaborators}
    (a : App) (saved : list Byte.byte) :
  pages (state a) ≠ [] →
  confirmExport_disabled (elements (showExportPreview a)) = false →
  serialized (pagesToExport (state a)) saved →
  exportModal_visible (elements (showExportPreview a)) = true
  ∧ statPageCount_textContent (elements (showExportPreview a))
    = num (length (pagesToExport (state a)))
  ∧ downloads (effects (confirmAndExport (showExportPreview a)))
    = downloads (effects a)
      ++ [(saved, currentFilename (state (showExportPreview a)) ++ js ".pdf")]
  ∧ exportModal_visible (elements (confirmAndExport (showExportPreview a))) = false.
Proof.
  intros Hne Hen Hsaved. unfold showExportPreview in *.
  destruct (pages (state a)) as [|p0 ps] eqn:Hps; [done|]. cbv zeta in *.
  set (b := set_statFileSize_textContent _ _) in *.
  unfold updateFilenameFromTemplate in *. cbv zeta in *.
  set (c := set_currentFilename _ _) in *.
  destruct (validateFilenameInput_facts c) as (He & Hp & Hs & Hi & Hn & Hok & Hdis & Hcur).
  set (a1 := set_exportModal_visible true (validateFilenameInput c).1) in *.
  assert (effects a1 = effects a) as He1 by exact He.
  assert (pages (state a1) = pages (state a)) as Hp1 by exact Hp.
  assert (selectedIds (state a1) = selectedIds (state a)) as Hs1 by exact Hs.
  assert (filenameInput_value (elements a1) = filenameInput_value (elements c)) as Hi1
    by exact Hi.
  assert (statPageCount_textContent (elements a1)
          = num (length (pagesToExport (state a)))) as Hn1 by exact Hn.
  assert ((validateFilenameInput c).2 = true) as Hvalid.
  { change (confirmExport_disabled (elements a1))
      with (confirmExport_disabled (elements (validateFilenameInput c).1)) in Hen.
    rewrite Hdis in Hen. by destruct ((validateFilenameInput c).2). }
  assert (currentFilename (state a1) = trim (filenameInput_value (elements c))) as Hc1
    by exact (Hcur Hvalid).
  assert (exportModal_visible (elements a1) = true) as Hm1 by done.
  rewrite Hok in Hvalid.
  clearbody a1. clear He Hp Hs Hi Hn Hok Hdis Hcur Hen.
  split; [done|]. split; [done|].
  unfold confirmAndExport.
  destruct (validateFilenameInput_facts a1)
    as (He2 & Hp2 & Hs2 & _ & _ & Hok2 & _ & Hcur2).
  rewrite Hi1, Hvalid in Hok2. rewrite Hi1 in Hcur2.
  destruct (validateFilenameInput a1) as [a2 ok]. cbn [fst snd] in *.
  subst ok. specialize (Hcur2 eq_refl).
  assert (pages (state (hideExportPreview a2)) ≠ []) as Hne3.
  { change (pages (state a2) ≠ []). by rewrite Hp2, Hp1, Hps. }
  destruct (mergeAndExport_run (hideExportPreview a2) Hne3) as (new & -> & Hrun).
  split; [|done].
  assert (pagesToExport (state (hideExportPreview a2)) = pagesToExport (state a)) as Hplan.
  { unfold pagesToExport, selectedPages.
    change (pages (state (hideExportPreview a2))) with (pages (state a2)).
    change (selectedIds (state (hideExportPreview a2))) with (selectedIds (state a2)).
    by rewrite Hp2, Hs2, Hp1, Hs1, Hps. }
  rewrite Hplan in Hrun.
  change (effects (set_isProcessing false (log new (hideExportPreview a2))))
    with (effects a2 ++ new).
  rewrite He2, He1, downloads_app. f_equal.
  destruct Hrun as [(saved' & m & Hs' & -> & _)|(Hfail & _)].
  - change (currentFilename (state (hideExportPreview a2)))
      with (currentFilename (state a2)).
    rewrite Hcur2, Hc1. do 2 f_equal.
    destruct Hsaved as (outs & Houts & Hsave).
    destruct Hs' as (outs' & Houts' & Hsave').
    assert (outs' = outs) as ->; [|congruence].
    clear -Houts Houts'. revert outs' Houts'.
    induction Houts; intros outs' Houts'; inversion Houts'; subst; [done|].
    f_equal; [by eapply copy_of_functional|eauto].
  - destruct Hfail. by exists saved.
Qed.

Lemma preview_then_confirm_exports_the_plan_witness :
  exportModal_visible (elements (showExportPreview app_three)) = true
  ∧ statPageCount_textContent (elements (showExportPreview app_three))
    = num (length (pagesToExport (state app_three)))
  ∧ downloads (effects (confirmAndExport (C := toy) (showExportPreview app_three)))
    = downloads (effects app_three)
      ++ [([Byte.x03; Byte.x03; Byte.x03],
           currentFilename (state (showExportPreview app_three)) ++ js ".pdf")]
  ∧ exportModal_visible (elements (confirmAndExport (C := toy)
                                     (showExportPreview app_three))) = false.
Proof.
  apply (preview_then_confirm_exports_the_plan (C := toy) app_three
           [Byte.x03; Byte.x03; Byte.x03]).
  - vm_compute. discriminate.
  - vm_compute. reflexivity.
  - change (pagesToExport (state app_three)) with pages_three.
    exists [ {| copied := ([Byte.x03; Byte.x25; Byte.x50; Byte.x44; Byte.x46], 0);
                setRotation := None |};
             {| copied := ([Byte.x03; Byte.x25; Byte.x50; Byte.x44; Byte.x46], 1);
                setRotation := None |};
             {| copied := ([Byte.x03; Byte.x25; Byte.x50; Byte.x44; Byte.x46], 2);
                setRotation := None |} ].
    split; [|reflexivity].
    unfold pages_three. repeat constructor;
      exists [Byte.x03; Byte.x25; Byte.x50; Byte.x44; Byte.x46]; repeat split.
Defined.

(** ** The merge of the earlier variant *)

(** X24: in the earlier variant ([app.js]) the merge button exports at
    once.  On a non-empty collection whose planned pages can be assembled
    it emits exactly one file, the serialization of the planned pages,
    named [merged_selected_<date>.pdf] when pages are selected and
    [merged_all_<date>.pdf] otherwise, and its toast reports the number
    of planned pages with the same label. *)
Theorem appjs_merge_names_file_by_selection `{C : Collaborators}
    (a : App) (saved : list Byte.byte) :
  pages (state a) ≠ [] →
  Forall (λ p, rotation p = 0) (pages (state a)) →
  serialized (pagesToExport (state a)) saved →
  let label := if decide (selectedIds (state a) = ∅) then js "all" else js "selected" in
  downloads (effects (AppJs.mergeAndExport a))
  = downloads (effects a)
    ++ [(saved, js "merged_" ++ label ++ js "_" ++ today a ++ js ".pdf")]
  ∧ toasts (effects (AppJs.mergeAndExport a))
    = toasts (effects a)
      ++ [(js "Exported " ++ num (length (pagesToExport (state a))) ++ js " "
           ++ label ++ js " pages", success)].
Proof.
  intros Hne Hall (outs & Houts & Hsave) label.
  assert (AppJs.exportName a = js "merged_" ++ label ++ js "_" ++ today a ++ js ".pdf"
          ∧ (if decide (0 < size (selectedIds (state a)))
             then js "selected" else js "all") = label) as [Hname Hlabel].
  { unfold AppJs.exportName. subst label.
    destruct (decide (selectedIds (state a) = ∅)) as [He|He].
    - rewrite !decide_False; [done|apply size_zero_empty in He; lia..].
    - assert (size (selectedIds (state a)) ≠ 0) by (by rewrite size_zero_empty).
      rewrite !decide_True by lia. done. }
  clearbody label.
  unfold AppJs.mergeAndExport, mergeAndExport_begin.
  destruct (pages (state a)) as [|p0 ps] eqn:Hps; [done|]. clear Hne.
  unfold try_catch_finally, AppJs.mergeAndExport_try.
  set (a1 := showLoading (js "Merging PDF...") (set_isProcessing true a)).
  change (pagesToExport (state a1)) with (pagesToExport (state a)).
  change (AppJs.exportName a1) with (AppJs.exportName a).
  change (selectedIds (state a1)) with (selectedIds (state a)).
  rewrite Hname, Hlabel.
  set (planned := pagesToExport (state a)) in *.
  assert (Forall (λ p, rotation p = 0) planned) as Hplanned.
  { subst planned. unfold pagesToExport, selectedPages. rewrite Hps.
    case_decide; [by apply Forall_filtered|done]. }
  rewrite bind_run, appjs_merge_loop by done.
  destruct (merge_loop_run (length planned) planned 0 [] a1)
    as (es & Hd & Ht & [(outs' & Houts' & ->)|(e & Hfail & ->)]).
  - assert (outs' = outs) as ->.
    { clear -Houts Houts'. revert outs' Houts'.
      induction Houts; intros outs' Houts'; inversion Houts'; subst; [done|].
      f_equal; [by eapply copy_of_functional|eauto]. }
    split;
      cbn beta iota zeta; rewrite app_nil_l, bind_run, await_run, Hsave;
      repeat (rewrite bind_run; unfold act at 1);
      unfold act, downloadBlob, hideLoading, showToast, a1, showLoading;
      rewrite !emit_log, !log_log, effects_run;
      rewrite ?downloads_app, ?toasts_app, ?Hd, ?Ht; reflexivity.
  - destruct Hfail. by exists outs.
Qed.

Lemma appjs_merge_names_file_by_selection_witness :
  downloads (effects (AppJs.mergeAndExport (C := toy) app_three))
  = downloads (effects app_three)
    ++ [([Byte.x03; Byte.x03; Byte.x03],
         js "merged_" ++ js "all" ++ js "_" ++ js "2024-01-31" ++ js ".pdf")]
  ∧ toasts (effects (AppJs.mergeAndExport (C := toy) app_three))
    = toasts (effects app_three)
      ++ [(js "Exported " ++ num 3 ++ js " " ++ js "all" ++ js " pages", success)].
Proof.
  apply (appjs_merge_names_file_by_selection (C := toy) app_three
           [Byte.x03; Byte.x03; Byte.x03]).
  - vm_compute. discriminate.
  - apply (bool_decide_unpack _). vm_compute. reflexivity.
  - change (pagesToExport (state app_three)) with pages_three.
    exists [ {| copied := ([Byte.x03; Byte.x25; Byte.x50; Byte.x44; Byte.x46], 0);
                setRotation := None |};
             {| copied := ([Byte.x03; Byte.x25; Byte.x50; Byte.x44; Byte.x46], 1);
                setRotation := None |};
             {| copied := ([Byte.x03; Byte.x25; Byte.x50; Byte.x44; Byte.x46], 2);
                setRotation := None |} ].
    split; [|reflexivity].
    unfold pages_three. repeat constructor;
      exists [Byte.x03; Byte.x25; Byte.x50; Byte.x44; Byte.x46]; repeat split.
Defined.
